(** * cga-gestion: the offline-first synchronisation layer

    A shallow embedding of the data layer of the application
    (src/utils/sync.ts, src/utils/forms.ts, src/utils/database/*.ts) and the
    properties of its outbox, upload, download and read paths.

    Conventions of the embedding.
    - A row of the embedded store, a JSON record of the remote store and a
      plain JS object are all finite maps from column names to values.
    - JS numbers are integers in [Z]; any other number is kept as the text
      that denotes it ([VReal]).
    - An [async] function is a computation over the [world] that either
      returns or throws; [await] points are sequenced.  The interleaving of
      two invocations is modelled separately, in [Module Interleave].
    - The store is one connection to [app.db]: utils/sync.ts and
      utils/database/core.ts both open that file.  A data statement
      ([runAsync]) is refused when the environment says so, which stands
      for constraint violations and disk errors alike; BEGIN, COMMIT and
      ROLLBACK fail only for the state of the connection, and a SELECT is
      not refused.  Foreign-key actions on child tables are not part of
      the store's model.
    - Rows of a table stand in the order they were written; where SQL
      leaves an order open (ties of ORDER BY, the members of a group) the
      scan order is kept. *)

From Stdlib Require Import ZArith String Ascii List Decimal DecimalString DecimalZ.
From Stdlib Require Import Sorting.Sorted Permutation Lia Bool.
From stdpp Require Import base option list gmap strings.

Local Open Scope string_scope.
Local Open Scope Z_scope.

(** ** Text helpers: [String.prototype.split], number rendering and parsing *)

Module Text.

(** [s.split(sep)] for a one-character separator: never the empty list. *)
Fixpoint split_on (sep : ascii) (s : string) : list string :=
  match s with
  | EmptyString => [EmptyString]
  | String c rest =>
      if Ascii.eqb c sep then EmptyString :: split_on sep rest
      else match split_on sep rest with
           | [] => [String c EmptyString]
           | hd :: tl => String c hd :: tl
           end
  end.

(** [xs.join(sep)] *)
Fixpoint join (sep : string) (xs : list string) : string :=
  match xs with
  | [] => EmptyString
  | [x] => x
  | x :: rest => x ++ sep ++ join sep rest
  end.

Fixpoint mem_char (c : ascii) (s : string) : bool :=
  match s with
  | EmptyString => false
  | String a rest => Ascii.eqb a c || mem_char c rest
  end.

(** [n.toString()] and the template literal of an integer that a number
    holds exactly, the case of every id the store hands out: its decimal
    digits.  (From 2^53 on a number rounds, from 1e21 on it prints with an
    exponent.) *)
Definition of_Z (n : Z) : string := NilZero.string_of_int (Z.to_int n).

Definition is_digit (c : ascii) : bool :=
  let n := nat_of_ascii c in (Nat.leb 48 n && Nat.leb n 57)%bool.

Definition digit_val (c : ascii) : Z := Z.of_nat (nat_of_ascii c) - 48.

(** ASCII members of the StrWhiteSpaceChar class. *)
Definition is_space (c : ascii) : bool :=
  let n := nat_of_ascii c in
  (Nat.eqb n 32 || (Nat.leb 9 n && Nat.leb n 13))%bool.

Fixpoint skip_spaces (s : string) : string :=
  match s with
  | String c rest => if is_space c then skip_spaces rest else s
  | EmptyString => s
  end.

(** Longest prefix of decimal digits, read as a number; [None] when the
    text does not start with a digit. *)
Fixpoint digits_prefix (acc : option Z) (s : string) : option Z :=
  match s with
  | String c rest =>
      if is_digit c
      then digits_prefix (Some (10 * default 0 acc + digit_val c)) rest
      else acc
  | EmptyString => acc
  end.

End Text.

(** ** Values, rows and objects *)

(** A value of a column, of a JSON record or of a JS object property.
    [VReal t] is a number that is not an integer, written [t] (the text
    ["NaN"] for not-a-number); a property that is absent reads as
    [undefined], and a column that is absent reads as [VNull]. *)
Inductive value : Type :=
| VNull
| VInt (n : Z)
| VReal (text : string)
| VText (s : string)
| VBool (b : bool).

#[global] Instance value_eq_dec : EqDecision value.
Proof. solve_decision. Defined.

Abbreviation row := (gmap string value).

Definition col (r : row) (c : string) : value := default VNull (r !! c).

Definition is_null (v : value) : bool :=
  match v with VNull => true | _ => false end.

(** JS truthiness, as in [if (user.is_admin)] and [Boolean(user.active)]. *)
Definition truthy (v : value) : bool :=
  match v with
  | VNull => false
  | VInt n => negb (n =? 0)
  | VReal t => negb (String.eqb t "NaN")
  | VText s => negb (String.eqb s "")
  | VBool b => b
  end.

(** The comparison [a = b] of the embedded store: false when either side
    is NULL. *)
Definition sql_eq (a b : value) : bool :=
  match a, b with
  | VInt x, VInt y => x =? y
  | VText x, VText y => String.eqb x y
  | VReal x, VReal y => String.eqb x y
  | _, _ => false
  end.

(** The text a value contributes to [a || b]; [None] is NULL. *)
Definition sql_text (v : value) : option string :=
  match v with
  | VNull => None
  | VInt n => Some (Text.of_Z n)
  | VReal t => Some t
  | VText s => Some s
  | VBool b => Some (if b then "1" else "0")
  end.

(** [a || b || ...]: NULL as soon as one operand is NULL. *)
Fixpoint sql_concat (parts : list (option string)) : option string :=
  match parts with
  | [] => Some ""
  | None :: _ => None
  | Some s :: rest =>
      match sql_concat rest with
      | Some t => Some (s ++ t)
      | None => None
      end
  end.

(** How the driver binds a JS value to a statement parameter. *)
Definition bind_param (v : value) : value :=
  match v with
  | VBool b => VInt (if b then 1 else 0)
  | _ => v
  end.

(** [parseInt(s, 10)] *)
Definition parseInt10 (s : string) : option Z :=
  match Text.skip_spaces s with
  | String "-" rest => option_map Z.opp (Text.digits_prefix None rest)
  | String "+" rest => Text.digits_prefix None rest
  | t => Text.digits_prefix None t
  end.

Definition hex_val (c : ascii) : option Z :=
  let n := nat_of_ascii c in
  if Text.is_digit c then Some (Z.of_nat n - 48)
  else if (Nat.leb 97 n && Nat.leb n 102)%bool then Some (Z.of_nat n - 87)
  else if (Nat.leb 65 n && Nat.leb n 70)%bool then Some (Z.of_nat n - 55)
  else None.

Fixpoint hex_prefix (acc : option Z) (s : string) : option Z :=
  match s with
  | String c rest =>
      match hex_val c with
      | Some v => hex_prefix (Some (16 * default 0 acc + v)) rest
      | None => acc
      end
  | EmptyString => acc
  end.

Definition unsigned_auto (s : string) : option Z :=
  match s with
  | String "0" (String "x" rest) => hex_prefix None rest
  | String "0" (String "X" rest) => hex_prefix None rest
  | _ => Text.digits_prefix None s
  end.

(** [parseInt(s)], the radix left to the text. *)
Definition parseInt (s : string) : option Z :=
  match Text.skip_spaces s with
  | String "-" rest => option_map Z.opp (unsigned_auto rest)
  | String "+" rest => unsigned_auto rest
  | t => unsigned_auto t
  end.

Definition num_or_nan (o : option Z) : value :=
  match o with Some n => VInt n | None => VReal "NaN" end.

(** [Number(s)] on the texts the data layer produces: an optionally
    negated run of decimal digits is that integer; any other text [s] is
    left as the number [Number(s)], uninterpreted. *)
Inductive numeric : Type :=
| NumInt (n : Z)
| NumberOf (text : string).

#[global] Instance numeric_eq_dec : EqDecision numeric.
Proof. solve_decision. Defined.

Definition Number (s : string) : numeric :=
  match NilZero.int_of_string s with
  | Some d => NumInt (Z.of_int d)
  | None => NumberOf s
  end.

(** ** The embedded store *)

Inductive operation : Type := INSERT | UPDATE | DELETE.

#[global] Instance operation_eq_dec : EqDecision operation.
Proof. solve_decision. Defined.

(** A row of [sync_queue].  [created_at] is the instant, in seconds, that
    the TEXT column denotes: [CURRENT_TIMESTAMP] and [datetime('now', ...)]
    share one fixed-width format, whose text order is the order of the
    instants.  [data] is the object whose JSON text the column holds. *)
Record change : Type := mkChange {
  sq_id : Z;
  sq_table_name : string;
  sq_record_id : string;
  sq_operation : operation;
  sq_data : row;
  sq_synced : bool;
  sq_retry_count : Z;
  sq_error : option string;
  sq_created_at : Z
}.

#[global] Instance change_eq_dec : EqDecision change.
Proof. solve_decision. Defined.

(** The database file: the syncable tables by name (rows in the order they
    were written), the AUTOINCREMENT counters, and [sync_queue]. *)
Record database : Type := mkDatabase {
  tables : gmap string (list row);
  sequences : gmap string Z;
  sync_queue : list change;
  sync_queue_seq : Z
}.

#[global] Instance database_eq_dec : EqDecision database.
Proof. solve_decision. Defined.

Definition tbl (d : database) (t : string) : list row :=
  default [] (tables d !! t).

Definition store_rows (t : string) (rows : list row) (d : database) : database :=
  mkDatabase (<[t := rows]> (tables d)) (sequences d) (sync_queue d) (sync_queue_seq d).

Definition store_queue (q : list change) (d : database) : database :=
  mkDatabase (tables d) (sequences d) q (sync_queue_seq d).

(** *** Schema (initDatabase) *)

Definition junction (t : string) : bool :=
  (String.eqb t "user_roles" || String.eqb t "user_companies"
   || String.eqb t "form_companies")%bool.

(** PRIMARY KEY and UNIQUE column groups. *)
Definition unique_keys (t : string) : list (list string) :=
  if String.eqb t "users" then [["id"]; ["username"]]
  else if String.eqb t "user_roles" then [["user_id"; "role_id"]]
  else if String.eqb t "user_companies" then [["user_id"; "company_id"]]
  else if String.eqb t "form_companies" then [["form_id"; "company_id"]]
  else [["id"]].

(** Column DEFAULTs; [ts] is the text of CURRENT_TIMESTAMP. *)
Definition defaults (ts : string) (t : string) : row :=
  let stamps : row := {[ "created_at" := VText ts; "updated_at" := VText ts ]} in
  if String.eqb t "users"
  then <["is_admin" := VInt 0]> (<["active" := VInt 1]> stamps)
  else if String.eqb t "visits"
  then <["no_gps_signal" := VInt 0]> (<["no_gps_signal_end" := VInt 0]> stamps)
  else if String.eqb t "form_fields"
  then <["required" := VInt 0]> stamps
  else stamps.

Definition id_of (r : row) : Z :=
  match col r "id" with VInt n => n | _ => 0 end.

Definition max_id (rows : list row) : Z :=
  fold_right (fun r m => Z.max (id_of r) m) 0 rows.

(** The next AUTOINCREMENT key: above every key in the table and every key
    ever handed out. *)
Definition next_id (d : database) (t : string) : Z :=
  1 + Z.max (default 0 (sequences d !! t)) (max_id (tbl d t)).

Definition same_on (key : list string) (r r' : row) : bool :=
  forallb (fun c => sql_eq (col r c) (col r' c)) key.

Definition conflicting (t : string) (r r' : row) : bool :=
  existsb (fun key => same_on key r r') (unique_keys t).

(** The stored image of the column list of an INSERT: named columns, then
    DEFAULTs, then a fresh key where the table has one and none was given. *)
Definition complete (ts : string) (t : string) (r : row) (d : database) : row :=
  let r1 : row := r ∪ defaults ts t in
  if (negb (junction t) && is_null (col r1 "id"))%bool
  then <["id" := VInt (next_id d t)]> r1
  else r1.

Definition bump_sequence (t : string) (r : row) (d : database) : database :=
  if junction t then d
  else mkDatabase (tables d)
         (<[t := Z.max (default 0 (sequences d !! t)) (id_of r)]> (sequences d))
         (sync_queue d) (sync_queue_seq d).

Inductive outcome (A : Type) : Type :=
| Return (a : A)
| Throw (message : string).
Arguments Return {A} a.
Arguments Throw {A} message.

(** The statements act on the table they name.  The schema declares the
    foreign keys of user_roles, user_companies, visits, form_fields,
    form_companies, form_responses and form_field_responses with ON DELETE
    CASCADE and turns them on: the refusal of a row whose parent is missing
    is one of the refusals the environment decides (see [statement_fails]
    below); the cascade of a DELETE or REPLACE of a parent row onto the
    rows that refer to it is not part of these definitions, which therefore
    describe the engine on the tables without a parent (users, companies,
    roles, forms, sync_queue) and on stores where the removed rows have no
    children. *)

(** [INSERT INTO t (...) VALUES (...)]: aborts on a key that is taken;
    returns [lastInsertRowId]. *)
Definition insert_row (ts t : string) (r : row) (d : database) : outcome Z * database :=
  let full := complete ts t r d in
  if existsb (conflicting t full) (tbl d t)
  then (Throw "UNIQUE constraint failed", d)
  else (Return (id_of full), store_rows t (tbl d t ++ [full]) (bump_sequence t full d)).

(** [INSERT OR REPLACE INTO t (...) VALUES (...)]: rows holding one of the
    new row's keys are removed first.  An empty column list is a syntax
    error. *)
Definition insert_or_replace (ts t : string) (r : row) (d : database) : outcome Z * database :=
  if bool_decide (r = ∅) then (Throw "syntax error", d) else
  let full := complete ts t r d in
  (Return (id_of full),
   store_rows t (List.filter (fun r' => negb (conflicting t full r')) (tbl d t) ++ [full])
     (bump_sequence t full d)).

(** [UPDATE t SET ... WHERE p] *)
Definition update_where (t : string) (p : row -> bool) (f : row -> row) (d : database)
  : outcome unit * database :=
  (Return tt, store_rows t (map (fun r => if p r then f r else r) (tbl d t)) d).

(** [DELETE FROM t WHERE p] *)
Definition delete_where (t : string) (p : row -> bool) (d : database)
  : outcome unit * database :=
  (Return tt, store_rows t (List.filter (fun r => negb (p r)) (tbl d t)) d).

(** ** The remote collaborator, as seen from the client *)

Inductive operand : Type :=
| Num (n : numeric)
| Undefined.

#[global] Instance operand_eq_dec : EqDecision operand.
Proof. solve_decision. Defined.

(** A request as issued through the query builder. *)
Inductive request : Type :=
| SelectActive (table : string)
| Upsert (table : string) (data : row)
| InsertInto (table : string) (data : row)
| UpdateEq (table : string) (data : row) (filters : list (string * operand))
| DeleteEq (table : string) (filters : list (string * operand)).

#[global] Instance request_eq_dec : EqDecision request.
Proof. solve_decision. Defined.

(** ** The world an operation runs in *)

(** What the operation cannot decide: the platform, which statements the
    store refuses (constraint, disk), which requests the remote answers
    with an error, and how instants are printed.  Statements and requests
    are numbered in the order they are issued. *)
Record env : Type := mkEnv {
  web : bool;
  statement_fails : nat -> bool;
  request_error : nat -> option string;
  toISOString : Z -> string;
  current_timestamp : Z -> string
}.

Record world : Type := mkWorld {
  db : database;
  transaction : option database;
  remote : gmap string (list row);
  sent : list request;
  storage : gmap string string;
  syncInProgress : bool;
  globalTransaction : bool;
  syncTimeout : bool;
  online : bool;
  now : Z;
  statements : nat;
  requests : nat
}.

#[global] Instance world_eq_dec : EqDecision world.
Proof. solve_decision. Defined.

Definition with_db (d : database) (tx : option database) (w : world) : world :=
  mkWorld d tx (remote w) (sent w) (storage w) (syncInProgress w)
    (globalTransaction w) (syncTimeout w) (online w) (now w) (statements w) (requests w).

Definition with_flags (sip gt : bool) (w : world) : world :=
  mkWorld (db w) (transaction w) (remote w) (sent w) (storage w) sip gt
    (syncTimeout w) (online w) (now w) (statements w) (requests w).

Definition with_syncTimeout (b : bool) (w : world) : world :=
  mkWorld (db w) (transaction w) (remote w) (sent w) (storage w) (syncInProgress w)
    (globalTransaction w) b (online w) (now w) (statements w) (requests w).

Definition with_storage (s : gmap string string) (w : world) : world :=
  mkWorld (db w) (transaction w) (remote w) (sent w) s (syncInProgress w)
    (globalTransaction w) (syncTimeout w) (online w) (now w) (statements w) (requests w).

Definition count_statement (w : world) : world :=
  mkWorld (db w) (transaction w) (remote w) (sent w) (storage w) (syncInProgress w)
    (globalTransaction w) (syncTimeout w) (online w) (now w) (S (statements w)) (requests w).

Definition record_request (r : request) (w : world) : world :=
  mkWorld (db w) (transaction w) (remote w) (sent w ++ [r]) (storage w) (syncInProgress w)
    (globalTransaction w) (syncTimeout w) (online w) (now w) (statements w) (S (requests w)).

(** ** Asynchronous functions: state and exceptions *)

Definition M (A : Type) : Type := world -> outcome A * world.

Definition ret {A : Type} (a : A) : M A := fun w => (Return a, w).

Definition throw {A : Type} (message : string) : M A := fun w => (Throw message, w).

Definition bind {A B : Type} (m : M A) (k : A -> M B) : M B :=
  fun w =>
    match m w with
    | (Return a, w') => k a w'
    | (Throw e, w') => (Throw e, w')
    end.

Declare Scope async_scope.
Delimit Scope async_scope with async.
Notation "x <- m ;; k" := (bind m (fun x => k))
  (at level 100, m at next level, right associativity) : async_scope.
Notation "m ;; k" := (bind m (fun _ => k))
  (at level 100, right associativity) : async_scope.
Local Open Scope async_scope.

(** [try { body } catch (e) { handler }] *)
Definition try_catch {A : Type} (body : M A) (handler : string -> M A) : M A :=
  fun w =>
    match body w with
    | (Throw e, w') => handler e w'
    | done => done
    end.

(** [try { body } finally { cleanup }] *)
Definition try_finally {A : Type} (body : M A) (cleanup : M unit) : M A :=
  fun w =>
    let '(r, w') := body w in
    match cleanup w' with
    | (Return _, w'') => (r, w'')
    | (Throw e, w'') => (Throw e, w'')
    end.

(** [for (const x of xs) { body }] *)
Fixpoint for_of {A : Type} (xs : list A) (body : A -> M unit) : M unit :=
  match xs with
  | [] => ret tt
  | x :: rest => body x ;; for_of rest body
  end.

Definition gets {A : Type} (f : world -> A) : M A := fun w => (Return (f w), w).

Definition modify (f : world -> world) : M unit := fun w => (Return tt, f w).

(** *** The connection (expo-sqlite) *)

(** [db.execAsync('BEGIN TRANSACTION')] *)
Definition BEGIN : M unit :=
  fun w =>
    match transaction w with
    | Some _ => (Throw "cannot start a transaction within a transaction", w)
    | None => (Return tt, with_db (db w) (Some (db w)) w)
    end.

(** [db.execAsync('COMMIT')] *)
Definition COMMIT : M unit :=
  fun w =>
    match transaction w with
    | Some _ => (Return tt, with_db (db w) None w)
    | None => (Throw "cannot commit - no transaction is active", w)
    end.

(** [db.execAsync('ROLLBACK')] *)
Definition ROLLBACK : M unit :=
  fun w =>
    match transaction w with
    | Some saved => (Return tt, with_db saved None w)
    | None => (Throw "cannot rollback - no transaction is active", w)
    end.

(** [db.getAllAsync(query)]: a read of the current contents. *)
Definition getAllAsync {A : Type} (query : database -> A) : M A :=
  gets (fun w => query (db w)).

(** The rows a [select('*').is('deleted_at', null)] answers with. *)
Definition active_rows (store : gmap string (list row)) (t : string) : list row :=
  List.filter (fun r => is_null (col r "deleted_at")) (default [] (store !! t)).

Section Client.

Variable E : env.

(** [db.runAsync(statement)]: refused when the environment says so, and
    then without effect. *)
Definition runAsync {A : Type} (statement : database -> outcome A * database) : M A :=
  fun w =>
    let w1 := count_statement w in
    if statement_fails E (statements w) then (Throw "SQLITE_ERROR", w1)
    else
      match statement (db w) with
      | (Return a, d') => (Return a, with_db d' (transaction w1) w1)
      | (Throw e, _) => (Throw e, w1)
      end.

Definition CURRENT_TIMESTAMP : M string := gets (fun w => current_timestamp E (now w)).

(** [new Date().toISOString()] *)
Definition new_Date_toISOString : M string := gets (fun w => toISOString E (now w)).

(** [isOnline()] (utils/supabase.ts): the probe never throws. *)
Definition isOnline : M bool :=
  if web E then ret true else gets online.

(** A write request: [{ error }]. *)
Definition send (r : request) : M (option string) :=
  fun w => (Return (request_error E (requests w)), record_request r w).

(** [supabase.from(t).select('*').is('deleted_at', null)]: [{ data, error }],
    [data] being the rows of the remote table without a deletion mark. *)
Definition select_active (t : string) : M (list row * option string) :=
  fun w =>
    let w1 := record_request (SelectActive t) w in
    match request_error E (requests w) with
    | Some e => (Return ([], Some e), w1)
    | None =>
        (Return (active_rows (remote w) t, None), w1)
    end.

(** [AsyncStorage.setItem(key, value)] *)
Definition AsyncStorage_setItem (key v : string) : M unit :=
  modify (fun w => with_storage (<[key := v]> (storage w)) w).

End Client.

(** ** src/utils/sync.ts *)

(** The [recordId: number | string] argument and its [toString()]. *)
Inductive record_key : Type :=
| KeyNum (n : Z)
| KeyText (s : string).

Definition key_toString (k : record_key) : string :=
  match k with
  | KeyNum n => Text.of_Z n
  | KeyText s => s
  end.

(** [`${v}`] of a value read from the store. *)
Definition template (v : value) : string :=
  match v with
  | VNull => "null"
  | VInt n => Text.of_Z n
  | VReal t => t
  | VText s => s
  | VBool b => if b then "true" else "false"
  end.

Definition next_queue_id (d : database) : Z :=
  1 + Z.max (sync_queue_seq d)
            (fold_right (fun c m => Z.max (sq_id c) m) 0 (sync_queue d)).

(** [INSERT INTO sync_queue (table_name, record_id, operation, data)
     VALUES (?, ?, ?, ?)] *)
Definition insert_sync_queue (tableName recordId : string) (op : operation)
    (data : row) (at_time : Z) (d : database) : outcome unit * database :=
  let i := next_queue_id d in
  (Return tt,
   mkDatabase (tables d) (sequences d)
     (sync_queue d ++ [mkChange i tableName recordId op data false 0 None at_time])
     i).

(** Stable insertion sort, for [ORDER BY]. *)
Fixpoint insert_sorted {A : Type} (le : A -> A -> bool) (x : A) (l : list A) : list A :=
  match l with
  | [] => [x]
  | y :: rest => if le x y then x :: l else y :: insert_sorted le x rest
  end.

Definition order_by {A : Type} (le : A -> A -> bool) (l : list A) : list A :=
  fold_right (insert_sorted le) [] l.

Definition is_pending (c : change) : bool :=
  (negb (sq_synced c) && (sq_retry_count c <? 3))%bool.

(** [SELECT * FROM sync_queue WHERE synced = 0 AND retry_count < 3
     ORDER BY created_at ASC] *)
Definition pendingChanges (d : database) : list change :=
  order_by (fun a b => sq_created_at a <=? sq_created_at b)
    (List.filter is_pending (sync_queue d)).

Definition update_queue (p : change -> bool) (f : change -> change) (d : database)
  : outcome unit * database :=
  (Return tt, store_queue (map (fun c => if p c then f c else c) (sync_queue d)) d).

(** [UPDATE sync_queue SET synced = 1, error = NULL WHERE id = ?] *)
Definition mark_synced (i : Z) : database -> outcome unit * database :=
  update_queue (fun c => sq_id c =? i)
    (fun c => mkChange (sq_id c) (sq_table_name c) (sq_record_id c) (sq_operation c)
                (sq_data c) true (sq_retry_count c) None (sq_created_at c)).

(** [UPDATE sync_queue SET retry_count = retry_count + 1, error = ?
     WHERE id = ?] *)
Definition mark_failed (message : string) (i : Z) : database -> outcome unit * database :=
  update_queue (fun c => sq_id c =? i)
    (fun c => mkChange (sq_id c) (sq_table_name c) (sq_record_id c) (sq_operation c)
                (sq_data c) (sq_synced c) (sq_retry_count c + 1) (Some message)
                (sq_created_at c)).

Definition seven_days : Z := 7 * 24 * 60 * 60.

Definition purgeable (at_time : Z) (c : change) : bool :=
  ((sq_synced c || (3 <=? sq_retry_count c))
   && (sq_created_at c <? at_time - seven_days))%bool.

(** [DELETE FROM sync_queue WHERE (synced = 1 OR retry_count >= 3)
     AND created_at < datetime('now', '-7 days')] *)
Definition purge_old (at_time : Z) (d : database) : outcome unit * database :=
  (Return tt, store_queue (List.filter (fun c => negb (purgeable at_time c)) (sync_queue d)) d).

(** [const [id1, id2] = record_id.split(',').map(Number)] *)
Definition split_ids (record_id : string) : operand * operand :=
  match map Number (Text.split_on "," record_id) with
  | [] => (Undefined, Undefined)
  | [a] => (Num a, Undefined)
  | a :: b :: _ => (Num a, Num b)
  end.

Definition parsed_id (record_id : string) : numeric :=
  match parseInt record_id with
  | Some n => NumInt n
  | None => NumberOf "NaN"
  end.

(** The key columns of each junction table (initDatabase). *)
Definition key_columns (t : string) : string * string :=
  if String.eqb t "user_roles" then ("user_id", "role_id")
  else if String.eqb t "user_companies" then ("user_id", "company_id")
  else ("form_id", "company_id").

(** The DELETE entry of a junction row, as updateUser enqueues it: record
    id [`${id},${oldRoleId}`]. *)
Definition junction_delete (t : string) (k1 k2 : Z) (i : Z) (payload : row) (at_time : Z)
  : change :=
  mkChange i t (Text.of_Z k1 ++ "," ++ Text.of_Z k2) DELETE payload false 0 None at_time.

Section SyncTs.

Variable E : env.

(** addToSyncQueue *)
Definition addToSyncQueue (tableName : string) (recordId : record_key)
    (op : operation) (data : row) : M unit :=
  if web E then ret tt else
  at_time <- gets now ;;
  runAsync E (insert_sync_queue tableName (key_toString recordId) op data at_time) ;;
  on <- isOnline E ;;
  busy <- gets syncInProgress ;;
  if (on && negb busy)%bool
  then modify (with_syncTimeout true)
  else ret tt.

(** The body of the inner [try] of processSyncQueue, up to [success]:
    which request one queued change turns into. *)
Definition request_of (iso : string) (c : change) : request :=
  let table_name := sq_table_name c in
  let record_id := sq_record_id c in
  let data := sq_data c in
  if junction table_name then
    match sq_operation c with
    | INSERT | UPDATE => Upsert table_name data
    | DELETE =>
        let '(id1, id2) := split_ids record_id in
        let key1 := if String.eqb table_name "user_roles" then "user_id" else "user_id" in
        let key2 := if String.eqb table_name "user_roles" then "role_id" else "company_id" in
        DeleteEq table_name [(key1, id1); (key2, id2)]
    end
  else
    match sq_operation c with
    | INSERT | UPDATE =>
        Upsert table_name (<["id" := num_or_nan (parseInt record_id)]> data)
    | DELETE =>
        UpdateEq table_name {[ "deleted_at" := VText iso ]}
          [("id", Num (parsed_id record_id))]
    end.

Definition error_message (m : string) : string :=
  if String.eqb m "" then "Unknown error" else m.

(** One turn of the [for (const change of pendingChanges)] loop. *)
Definition process_change (c : change) : M unit :=
  try_catch
    (iso <- new_Date_toISOString E ;;
     err <- send E (request_of iso c) ;;
     match err with
     | Some e => throw e
     | None =>
         runAsync E (mark_synced (sq_id c)) ;;
         stamp <- new_Date_toISOString E ;;
         AsyncStorage_setItem ("last_sync_" ++ sq_table_name c) stamp
     end)
    (fun e => runAsync E (mark_failed (error_message e) (sq_id c))).

(** processSyncQueue *)
Definition processSyncQueue : M unit :=
  busy <- gets syncInProgress ;;
  if (web E || busy)%bool then ret tt else
  on <- isOnline E ;;
  if negb on then ret tt else
  gt <- gets globalTransaction ;;
  if gt then ret tt else
  modify (fun w => with_flags true (globalTransaction w) w) ;;
  try_finally
    (pending <- getAllAsync pendingChanges ;;
     for_of pending process_change ;;
     at_time <- gets now ;;
     runAsync E (purge_old at_time))
    (modify (fun w => with_flags false (globalTransaction w) w)).

(** The tables of a download, in dependency order, with [clearFirst]. *)
Definition download_tables : list (string * bool) :=
  [ ("users", true); ("companies", true); ("roles", true);
    ("user_roles", false); ("user_companies", false);
    ("forms", true); ("form_fields", false); ("form_companies", false);
    ("visits", false); ("form_responses", false); ("form_field_responses", false) ].

(** [Object.keys(record).filter(k => record[k] !== null)] with the values
    bound in that order: the columns of the INSERT. *)
Definition sent_columns (record : row) : row :=
  omap (fun v => if is_null v then None else Some (bind_param v)) record.

(** One record of the inner loop of downloadUpdates; the inner [try] only
    logs and rethrows. *)
Definition download_record (t : string) (record : row) : M unit :=
  ts <- CURRENT_TIMESTAMP E ;;
  runAsync E (insert_or_replace ts t (sent_columns record)) ;;
  ret tt.

(** One turn of the [for (const table of tables)] loop. *)
Definition download_table (table : string * bool) : M unit :=
  let '(name, clearFirst) := table in
  resp <- select_active E name ;;
  let '(data, error) := resp in
  match error with
  | Some e => throw e
  | None =>
      match data with
      | [] => ret tt
      | _ =>
          (if clearFirst
           then runAsync E (delete_where name (fun _ => true))
           else ret tt) ;;
          for_of data (download_record name)
      end
  end.

(** downloadUpdates *)
Definition downloadUpdates : M unit :=
  busy <- gets syncInProgress ;;
  if (web E || busy)%bool then ret tt else
  on <- isOnline E ;;
  if negb on then ret tt else
  modify (with_flags true true) ;;
  try_finally
    (try_catch
       (BEGIN ;;
        for_of download_tables download_table ;;
        COMMIT ;;
        getAllAsync (fun d => map (fun table => length (tbl d (fst table))) download_tables) ;;
        ret tt)
       (fun error =>
          try_catch ROLLBACK (fun _ => ret tt) ;;
          throw error))
    (modify (with_flags false false)).

End SyncTs.

(** ** The domain repositories *)

Definition flag (b : bool) : value := VInt (if b then 1 else 0).

Definition id_is (i : Z) (r : row) : bool := sql_eq (col r "id") (VInt i).

Definition live (r : row) : bool := is_null (col r "deleted_at").

(** [SELECT COUNT( * ) as count FROM t WHERE user_id = ? AND deleted_at IS NULL] *)
Definition count_live_of_user (t : string) (i : Z) (d : database) : Z :=
  Z.of_nat (length (List.filter
    (fun r => (sql_eq (col r "user_id") (VInt i) && live r)%bool) (tbl d t))).

(** The field list of createForm. *)
Record field_input : Type := mkField {
  fi_name : string;
  fi_label : string;
  fi_type : string;
  fi_required : bool;
  fi_sort_order : Z
}.

Section Repositories.

Variable E : env.

(** *** src/utils/database/users.ts *)

Definition createUser (username password : string) (isAdmin active : bool) : M Z :=
  try_catch
    (BEGIN ;;
     ts <- CURRENT_TIMESTAMP E ;;
     userId <- runAsync E (insert_row ts "users"
                 {[ "username" := VText username; "password" := VText password;
                    "is_admin" := flag isAdmin; "active" := flag active ]}) ;;
     COMMIT ;;
     iso <- new_Date_toISOString E ;;
     addToSyncQueue E "users" (KeyNum userId) INSERT
       {[ "username" := VText username; "password" := VText password;
          "is_admin" := VBool isAdmin; "active" := VBool active;
          "created_at" := VText iso; "updated_at" := VText iso ]} ;;
     ret userId)
    (fun _ =>
       ROLLBACK ;;
       throw "Failed to create user. Username might already exist.").

Definition deleteUser (id : Z) : M unit :=
  try_catch
    (BEGIN ;;
     hasVisits <- getAllAsync (count_live_of_user "visits" id) ;;
     hasFormResponses <- getAllAsync (count_live_of_user "form_responses" id) ;;
     (if ((0 <? hasVisits) || (0 <? hasFormResponses))%bool
      then throw "Cannot delete user with associated visits or form responses. Consider deactivating the user instead."
      else ret tt) ;;
     runAsync E (delete_where "user_roles" (fun r => sql_eq (col r "user_id") (VInt id))) ;;
     runAsync E (delete_where "user_companies" (fun r => sql_eq (col r "user_id") (VInt id))) ;;
     ts <- CURRENT_TIMESTAMP E ;;
     runAsync E (update_where "users" (id_is id)
                   (fun r => <["deleted_at" := VText ts]> (<["active" := VInt 0]> r))) ;;
     COMMIT ;;
     iso <- new_Date_toISOString E ;;
     addToSyncQueue E "users" (KeyNum id) DELETE
       {[ "deleted_at" := VText iso; "active" := VBool false ]})
    (fun error => ROLLBACK ;; throw error).

Definition assignUserRole (userId roleId : Z) : M unit :=
  try_catch
    (BEGIN ;;
     ts <- CURRENT_TIMESTAMP E ;;
     runAsync E (insert_row ts "user_roles"
                   {[ "user_id" := VInt userId; "role_id" := VInt roleId ]}) ;;
     COMMIT ;;
     iso <- new_Date_toISOString E ;;
     addToSyncQueue E "user_roles"
       (KeyText (Text.of_Z userId ++ "," ++ Text.of_Z roleId)) INSERT
       {[ "user_id" := VInt userId; "role_id" := VInt roleId;
          "created_at" := VText iso; "updated_at" := VText iso ]})
    (fun error => ROLLBACK ;; throw error).

Definition assignUserCompany (userId companyId : Z) : M unit :=
  try_catch
    (BEGIN ;;
     ts <- CURRENT_TIMESTAMP E ;;
     runAsync E (insert_row ts "user_companies"
                   {[ "user_id" := VInt userId; "company_id" := VInt companyId ]}) ;;
     COMMIT ;;
     iso <- new_Date_toISOString E ;;
     addToSyncQueue E "user_companies"
       (KeyText (Text.of_Z userId ++ "," ++ Text.of_Z companyId)) INSERT
       {[ "user_id" := VInt userId; "company_id" := VInt companyId;
          "created_at" := VText iso; "updated_at" := VText iso ]})
    (fun error => ROLLBACK ;; throw error).

(** [if (password)]: a password that is given and not empty. *)
Definition given_text (arg : option string) : option string :=
  match arg with
  | Some s => if String.eqb s "" then None else Some s
  | None => None
  end.

(** [ids.includes(v)] *)
Definition includes (ids : list value) (v : value) : bool :=
  existsb (fun x => bool_decide (x = v)) ids.

(** The [syncData] object of updateUser: [updated_at], and each property
    whose new value differs from the row read before the update. *)
Definition syncData (current : row) (username : string) (password : option string)
    (isAdmin active : bool) (iso : string) : row :=
  let o0 : row := {[ "updated_at" := VText iso ]} in
  let o1 := if bool_decide (VText username = col current "username")
            then o0 else <["username" := VText username]> o0 in
  let o2 := match given_text password with
            | Some p => <["password" := VText p]> o1
            | None => o1
            end in
  let o3 := if Bool.eqb isAdmin (truthy (col current "is_admin"))
            then o2 else <["is_admin" := VBool isAdmin]> o2 in
  if Bool.eqb active (truthy (col current "active"))
  then o3 else <["active" := VBool active]> o3.

(** updateUser.  The junction rows are enqueued inside the transaction,
    the user row and the removals after COMMIT.  [currentUser[0].username]
    on an empty result is a TypeError, raised after COMMIT.  The current
    role and company ids are read in the order of the table; the query
    does not order them, so the order in which the removals are enqueued is
    the engine's. *)
Definition updateUser (id : Z) (username : string) (password : option string)
    (isAdmin : bool) (roleIds companyIds : list Z) (active : bool) : M unit :=
  try_catch
    (BEGIN ;;
     currentUser <- getAllAsync (fun d => List.filter (id_is id) (tbl d "users")) ;;
     ts <- CURRENT_TIMESTAMP E ;;
     match given_text password with
     | Some p =>
         runAsync E (update_where "users" (id_is id)
                       (fun r => <["username" := VText username]>
                                   (<["password" := VText p]>
                                      (<["is_admin" := flag isAdmin]>
                                         (<["active" := flag active]>
                                            (<["updated_at" := VText ts]> r))))))
     | None =>
         runAsync E (update_where "users" (id_is id)
                       (fun r => <["username" := VText username]>
                                   (<["is_admin" := flag isAdmin]>
                                      (<["active" := flag active]>
                                         (<["updated_at" := VText ts]> r)))))
     end ;;
     currentRoleIds <- getAllAsync (fun d =>
       map (fun r => col r "role_id")
         (List.filter (fun r => sql_eq (col r "user_id") (VInt id)) (tbl d "user_roles"))) ;;
     currentCompanyIds <- getAllAsync (fun d =>
       map (fun c => col c "company_id")
         (List.filter (fun r => sql_eq (col r "user_id") (VInt id)) (tbl d "user_companies"))) ;;
     runAsync E (delete_where "user_roles" (fun r => sql_eq (col r "user_id") (VInt id))) ;;
     for_of roleIds (fun roleId =>
       runAsync E (insert_row ts "user_roles"
                     {[ "user_id" := VInt id; "role_id" := VInt roleId ]}) ;;
       if includes currentRoleIds (VInt roleId) then ret tt else
       iso <- new_Date_toISOString E ;;
       addToSyncQueue E "user_roles"
         (KeyText (Text.of_Z id ++ "," ++ Text.of_Z roleId)) INSERT
         {[ "user_id" := VInt id; "role_id" := VInt roleId;
            "created_at" := VText iso; "updated_at" := VText iso ]}) ;;
     runAsync E (delete_where "user_companies" (fun r => sql_eq (col r "user_id") (VInt id))) ;;
     for_of companyIds (fun companyId =>
       runAsync E (insert_row ts "user_companies"
                     {[ "user_id" := VInt id; "company_id" := VInt companyId ]}) ;;
       if includes currentCompanyIds (VInt companyId) then ret tt else
       iso <- new_Date_toISOString E ;;
       addToSyncQueue E "user_companies"
         (KeyText (Text.of_Z id ++ "," ++ Text.of_Z companyId)) INSERT
         {[ "user_id" := VInt id; "company_id" := VInt companyId;
            "created_at" := VText iso; "updated_at" := VText iso ]}) ;;
     COMMIT ;;
     iso <- new_Date_toISOString E ;;
     match currentUser with
     | [] => throw "TypeError: Cannot read property 'username' of undefined"
     | current :: _ =>
         let data := syncData current username password isAdmin active iso in
         (if (1 <? size data)%nat
          then addToSyncQueue E "users" (KeyNum id) UPDATE data
          else ret tt) ;;
         for_of currentRoleIds (fun oldRoleId =>
           if includes (map VInt roleIds) oldRoleId then ret tt else
           addToSyncQueue E "user_roles"
             (KeyText (Text.of_Z id ++ "," ++ template oldRoleId)) DELETE
             {[ "deleted_at" := VText iso ]}) ;;
         for_of currentCompanyIds (fun oldCompanyId =>
           if includes (map VInt companyIds) oldCompanyId then ret tt else
           addToSyncQueue E "user_companies"
             (KeyText (Text.of_Z id ++ "," ++ template oldCompanyId)) DELETE
             {[ "deleted_at" := VText iso ]})
     end)
    (fun error => ROLLBACK ;; throw error).

(** *** src/utils/database/companies.ts *)

Definition createCompany (name description : string) : M Z :=
  try_catch
    (BEGIN ;;
     ts <- CURRENT_TIMESTAMP E ;;
     companyId <- runAsync E (insert_row ts "companies"
                     {[ "name" := VText name; "description" := VText description ]}) ;;
     COMMIT ;;
     iso <- new_Date_toISOString E ;;
     (if web E then ret tt else
      addToSyncQueue E "companies" (KeyNum companyId) INSERT
        {[ "name" := VText name; "description" := VText description;
           "created_at" := VText iso; "updated_at" := VText iso ]}) ;;
     ret companyId)
    (fun error => ROLLBACK ;; throw error).

Definition updateCompany (id : Z) (name description : string) : M unit :=
  try_catch
    (BEGIN ;;
     ts <- CURRENT_TIMESTAMP E ;;
     runAsync E (update_where "companies" (id_is id)
                   (fun r => <["name" := VText name]>
                               (<["description" := VText description]>
                                  (<["updated_at" := VText ts]> r)))) ;;
     COMMIT ;;
     iso <- new_Date_toISOString E ;;
     if web E then ret tt else
     addToSyncQueue E "companies" (KeyNum id) UPDATE
       {[ "name" := VText name; "description" := VText description;
          "updated_at" := VText iso ]})
    (fun error => ROLLBACK ;; throw error).

Definition deleteCompany (id : Z) : M unit :=
  try_catch
    (BEGIN ;;
     ts <- CURRENT_TIMESTAMP E ;;
     runAsync E (update_where "companies" (id_is id)
                   (fun r => <["deleted_at" := VText ts]> r)) ;;
     COMMIT ;;
     iso <- new_Date_toISOString E ;;
     if web E then ret tt else
     addToSyncQueue E "companies" (KeyNum id) DELETE {[ "deleted_at" := VText iso ]})
    (fun error => ROLLBACK ;; throw error).

(** *** src/utils/database/roles.ts *)

Definition createRole (name : string) : M Z :=
  try_catch
    (BEGIN ;;
     ts <- CURRENT_TIMESTAMP E ;;
     roleId <- runAsync E (insert_row ts "roles" {[ "name" := VText name ]}) ;;
     COMMIT ;;
     iso <- new_Date_toISOString E ;;
     (if web E then ret tt else
      addToSyncQueue E "roles" (KeyNum roleId) INSERT
        {[ "name" := VText name; "created_at" := VText iso; "updated_at" := VText iso ]}) ;;
     ret roleId)
    (fun error => ROLLBACK ;; throw error).

Definition updateRole (id : Z) (name : string) : M unit :=
  try_catch
    (BEGIN ;;
     ts <- CURRENT_TIMESTAMP E ;;
     runAsync E (update_where "roles" (id_is id)
                   (fun r => <["name" := VText name]> (<["updated_at" := VText ts]> r))) ;;
     COMMIT ;;
     iso <- new_Date_toISOString E ;;
     if web E then ret tt else
     addToSyncQueue E "roles" (KeyNum id) UPDATE
       {[ "name" := VText name; "updated_at" := VText iso ]})
    (fun error => ROLLBACK ;; throw error).

Definition deleteRole (id : Z) : M unit :=
  try_catch
    (BEGIN ;;
     ts <- CURRENT_TIMESTAMP E ;;
     runAsync E (update_where "roles" (id_is id)
                   (fun r => <["deleted_at" := VText ts]> r)) ;;
     COMMIT ;;
     iso <- new_Date_toISOString E ;;
     if web E then ret tt else
     addToSyncQueue E "roles" (KeyNum id) DELETE {[ "deleted_at" := VText iso ]})
    (fun error => ROLLBACK ;; throw error).

(** *** src/utils/database/visits.ts *)

Definition startVisit (userId companyId roleId : Z) (latitude longitude : value)
    (noGpsSignal : bool) : M Z :=
  try_catch
    (BEGIN ;;
     ts <- CURRENT_TIMESTAMP E ;;
     visitId <- runAsync E (insert_row ts "visits"
                   {[ "user_id" := VInt userId; "company_id" := VInt companyId;
                      "role_id" := VInt roleId; "start_time" := VText ts;
                      "latitude" := latitude; "longitude" := longitude;
                      "no_gps_signal" := flag noGpsSignal ]}) ;;
     COMMIT ;;
     iso <- new_Date_toISOString E ;;
     addToSyncQueue E "visits" (KeyNum visitId) INSERT
       {[ "user_id" := VInt userId; "company_id" := VInt companyId;
          "role_id" := VInt roleId; "start_time" := VText iso;
          "latitude" := latitude; "longitude" := longitude;
          "no_gps_signal" := VBool noGpsSignal;
          "created_at" := VText iso; "updated_at" := VText iso ]} ;;
     ret visitId)
    (fun error => ROLLBACK ;; throw error).

(** [Math.floor((endTime.getTime() - startTime.getTime()) / 1000)] for the
    [start_time] read from the store; how [new Date] reads the stored text
    is the engine's business and is left open. *)
Variable seconds_since : value -> Z -> value.

Definition endVisit (visitId : Z) (endLatitude endLongitude : value)
    (noGpsSignalEnd : bool) : M unit :=
  try_catch
    (BEGIN ;;
     visit <- getAllAsync (fun d => List.filter (id_is visitId) (tbl d "visits")) ;;
     match visit with
     | [] => throw "Visit not found"
     | v :: _ =>
         endTime <- gets now ;;
         let duration := seconds_since (col v "start_time") endTime in
         ts <- CURRENT_TIMESTAMP E ;;
         runAsync E (update_where "visits" (id_is visitId)
                       (fun r => <["end_time" := VText ts]>
                                   (<["duration" := duration]>
                                      (<["end_latitude" := endLatitude]>
                                         (<["end_longitude" := endLongitude]>
                                            (<["no_gps_signal_end" := flag noGpsSignalEnd]>
                                               (<["updated_at" := VText ts]> r))))))) ;;
         COMMIT ;;
         iso <- new_Date_toISOString E ;;
         addToSyncQueue E "visits" (KeyNum visitId) UPDATE
           {[ "end_time" := VText iso; "duration" := duration;
              "end_latitude" := endLatitude; "end_longitude" := endLongitude;
              "no_gps_signal_end" := VBool noGpsSignalEnd;
              "updated_at" := VText iso ]}
     end)
    (fun error => ROLLBACK ;; throw error).

End Repositories.

(** *** src/utils/database/core.ts *)

Section Core.

Variable E : env.

(** The test companies of the first start. *)
Definition seed_companies : list (string * string) :=
  [ ("AWS", "Amazon Web Services Cloud Provider");
    ("Google Cloud", "Google Cloud Platform Services");
    ("Azure", "Microsoft Azure Cloud Services") ].

(** initDatabase.  The PRAGMA and the [CREATE ... IF NOT EXISTS] statements
    write no row; what remains is the seeding of a store without users,
    statement by statement and outside any transaction. *)
Definition initDatabase : M unit :=
  if web E then ret tt else
  try_catch
    (hasUsers <- getAllAsync (fun d => length (tbl d "users")) ;;
     if negb (Nat.eqb hasUsers 0) then ret tt else
     ts <- CURRENT_TIMESTAMP E ;;
     userRoleId <- runAsync E (insert_row ts "roles" {[ "name" := VText "usuario" ]}) ;;
     controllerRoleId <- runAsync E (insert_row ts "roles" {[ "name" := VText "controlador" ]}) ;;
     adminId <- runAsync E (insert_row ts "users"
                  {[ "username" := VText "admin"; "password" := VText "admin123";
                     "is_admin" := VInt 1; "active" := VInt 1 ]}) ;;
     userId <- runAsync E (insert_row ts "users"
                  {[ "username" := VText "usuario1"; "password" := VText "user123";
                     "is_admin" := VInt 0; "active" := VInt 1 ]}) ;;
     runAsync E (insert_row ts "user_roles"
                   {[ "user_id" := VInt userId; "role_id" := VInt userRoleId ]}) ;;
     controllerId <- runAsync E (insert_row ts "users"
                  {[ "username" := VText "controlador1"; "password" := VText "ctrl123";
                     "is_admin" := VInt 0; "active" := VInt 1 ]}) ;;
     runAsync E (insert_row ts "user_roles"
                   {[ "user_id" := VInt controllerId; "role_id" := VInt controllerRoleId ]}) ;;
     for_of seed_companies (fun company =>
       companyId <- runAsync E (insert_row ts "companies"
                       {[ "name" := VText (fst company);
                          "description" := VText (snd company) ]}) ;;
       runAsync E (insert_row ts "user_companies"
                     {[ "user_id" := VInt userId; "company_id" := VInt companyId ]}) ;;
       ret tt))
    (fun error => throw error).

End Core.


(** ** Queries: joins, grouping and the decoding of GROUP_CONCAT columns *)

Module Sql.

(** [l LEFT JOIN rows ON on]: a left row without a match is kept once, with
    no right row. *)
Definition left_join {A : Type} (l : list A) (rows : list row) (on : A -> row -> bool)
  : list (A * option row) :=
  flat_map (fun a =>
              match List.filter (on a) rows with
              | [] => [(a, None)]
              | ms => map (fun m => (a, Some m)) ms
              end) l.

(** [l INNER JOIN rows ON on] *)
Definition inner_join {A : Type} (l : list A) (rows : list row) (on : A -> row -> bool)
  : list (A * row) :=
  flat_map (fun a => map (fun m => (a, m)) (List.filter (on a) rows)) l.

(** A column of the right side of a LEFT JOIN. *)
Definition ocol (o : option row) (c : string) : value :=
  match o with Some r => col r c | None => VNull end.

(** [GROUP BY key]: a group is its first row and the rows that joined it, in
    scan order; groups stand in the order of their first rows.  NULL keys
    form one group. *)
Fixpoint add_to_groups {A : Type} (key : A -> value) (a : A) (groups : list (A * list A))
  : list (A * list A) :=
  match groups with
  | [] => [(a, [])]
  | (b, bs) :: rest =>
      if bool_decide (key a = key b) then (b, (bs ++ [a])%list) :: rest
      else (b, bs) :: add_to_groups key a rest
  end.

Definition group_by {A : Type} (key : A -> value) (l : list A) : list (A * list A) :=
  fold_left (fun groups a => add_to_groups key a groups) l [].

Definition members {A : Type} (g : A * list A) : list A := fst g :: snd g.

Fixpoint dedup (l : list string) : list string :=
  match l with
  | [] => []
  | x :: rest => x :: List.filter (fun y => negb (String.eqb x y)) (dedup rest)
  end.

Fixpoint non_null (vals : list (option string)) : list string :=
  match vals with
  | [] => []
  | Some s :: rest => s :: non_null rest
  | None :: rest => non_null rest
  end.

(** [GROUP_CONCAT(expr)]: the non-NULL values joined by a comma; NULL when
    there is none. *)
Definition group_concat (vals : list (option string)) : value :=
  match non_null vals with
  | [] => VNull
  | xs => VText (Text.join "," xs)
  end.

(** [GROUP_CONCAT(DISTINCT expr)] *)
Definition group_concat_distinct (vals : list (option string)) : value :=
  match dedup (non_null vals) with
  | [] => VNull
  | xs => VText (Text.join "," xs)
  end.

(** The order of [ORDER BY]: NULL, then numbers, then text by bytes.  Two
    numbers of which one is not an integer are left in scan order. *)
Definition rank (v : value) : Z :=
  match v with VNull => 0 | VText _ => 2 | _ => 1 end.

Definition le (a b : value) : bool :=
  match a, b with
  | VInt x, VInt y => x <=? y
  | VText x, VText y => String.leb x y
  | _, _ => rank a <=? rank b
  end.

End Sql.

(** The indices [i] of the [reduce] callbacks with [i % n === 0]. *)
Definition stride_starts (n : nat) (len : nat) : list nat :=
  List.filter (fun i => Nat.eqb (i mod n) 0) (seq 0 len).

(** An object literal; a property whose value is [undefined] is left out. *)
Fixpoint object (props : list (string * option value)) : row :=
  match props with
  | [] => ∅
  | (k, Some v) :: rest => <[k := v]> (object rest)
  | (_, None) :: rest => object rest
  end.

Definition text_at (parts : list string) (i : nat) : option value :=
  option_map VText (nth_error parts i).

(** [parseInt(parts[i], 10)]; [parseInt(undefined, 10)] is NaN. *)
Definition int_at (parts : list string) (i : nat) : option value :=
  Some (num_or_nan (match nth_error parts i with
                    | Some s => parseInt10 s
                    | None => None
                    end)).

(** [text ? text.split(',').reduce(...) : []] with one object per stride. *)
Definition decode (n : nat) (build : list string -> nat -> row) (v : value) : list row :=
  match v with
  | VText s =>
      if String.eqb s "" then []
      else let parts := Text.split_on "," s in
           map (build parts) (stride_starts n (length parts))
  | _ => []
  end.

(** *** getRoles, getCompanies *)

(** [SELECT * FROM roles WHERE deleted_at IS NULL ORDER BY name] *)
Definition getRoles (d : database) : list row :=
  order_by (fun a b => Sql.le (col a "name") (col b "name"))
    (List.filter live (tbl d "roles")).

(** [SELECT * FROM companies WHERE deleted_at IS NULL ORDER BY name] *)
Definition getCompanies (d : database) : list row :=
  order_by (fun a b => Sql.le (col a "name") (col b "name"))
    (List.filter live (tbl d "companies")).

(** getUserCompanies:
    [SELECT c.* FROM companies c
     INNER JOIN user_companies uc ON c.id = uc.company_id
     WHERE uc.user_id = ? AND c.deleted_at IS NULL ORDER BY c.name] *)
Definition getUserCompanies (userId : Z) (d : database) : list row :=
  order_by (fun a b => Sql.le (col a "name") (col b "name"))
    (map fst
       (List.filter (fun j => (sql_eq (col (snd j) "user_id") (VInt userId)
                               && live (fst j))%bool)
          (Sql.inner_join (tbl d "companies") (tbl d "user_companies")
             (fun c uc => sql_eq (col c "id") (col uc "company_id"))))).

(** *** getUsers, getUser (src/utils/database/users.ts) *)

Record User : Type := mkUser {
  user_id : value;
  user_username : value;
  user_password : value;
  user_isAdmin : bool;
  user_active : bool;
  user_roles : list row;
  user_companies : list row
}.

(** One row of [users u LEFT JOIN user_roles ur LEFT JOIN roles r
    LEFT JOIN user_companies uc LEFT JOIN companies c]. *)
Definition user_join : Type :=
  row * option row * option row * option row * option row.

Definition joined_u (j : user_join) : row := fst (fst (fst (fst j))).
Definition joined_r (j : user_join) : option row := snd (fst (fst j)).
Definition joined_c (j : user_join) : option row := snd j.

(** The rows of the join, taken in the order of the tables; the engine
    is free to answer in another order. *)
Definition users_joined (d : database) : list user_join :=
  let j1 := Sql.left_join (tbl d "users") (tbl d "user_roles")
              (fun u ur => sql_eq (col u "id") (col ur "user_id")) in
  let j2 := Sql.left_join j1 (tbl d "roles")
              (fun j r => sql_eq (Sql.ocol (snd j) "role_id") (col r "id")) in
  let j3 := Sql.left_join j2 (tbl d "user_companies")
              (fun j uc => sql_eq (col (fst (fst j)) "id") (col uc "user_id")) in
  Sql.left_join j3 (tbl d "companies")
    (fun j c => sql_eq (Sql.ocol (snd j) "company_id") (col c "id")).

(** The selected row of a group: [u.*] with the two aggregates. *)
Definition user_result (g : user_join * list user_join) : row :=
  let rows := Sql.members g in
  let roles := Sql.group_concat_distinct
                 (map (fun j => sql_concat [sql_text (Sql.ocol (joined_r j) "id"); Some ",";
                                            sql_text (Sql.ocol (joined_r j) "name")]) rows) in
  let companies := Sql.group_concat_distinct
                 (map (fun j => sql_concat
                                  [sql_text (Sql.ocol (joined_c j) "id"); Some ",";
                                   sql_text (Sql.ocol (joined_c j) "name"); Some ",";
                                   Some (default "" (sql_text (Sql.ocol (joined_c j) "description")))])
                      rows) in
  <["roles" := roles]> (<["companies" := companies]> (joined_u (fst g))).

(** The query of getUsers and getUser, up to its WHERE clause. *)
Definition users_query (d : database) (where_ : row -> bool) : list row :=
  map user_result
    (Sql.group_by (fun j => col (joined_u j) "id")
       (List.filter (fun j => where_ (joined_u j)) (users_joined d))).

Definition decode_roles (v : value) : list row :=
  decode 2 (fun parts i => object [("id", int_at parts i); ("name", text_at parts (i + 1))]) v.

Definition decode_companies (v : value) : list row :=
  decode 3 (fun parts i => object [("id", int_at parts i); ("name", text_at parts (i + 1));
                                   ("description", text_at parts (i + 2))]) v.

Definition user_of_row (user : row) : User :=
  mkUser (col user "id") (col user "username") (col user "password")
    (truthy (col user "is_admin")) (truthy (col user "active"))
    (decode_roles (col user "roles")) (decode_companies (col user "companies")).

(** getUsers *)
Definition getUsers (d : database) : list User :=
  map user_of_row
    (order_by (fun a b => Sql.le (col a "username") (col b "username"))
       (users_query d live)).

(** getUser: [results[0]], and for an administrator every role and every
    company. *)
Definition getUser (username password : string) (d : database) : option User :=
  match users_query d (fun u => (sql_eq (col u "username") (VText username)
                                 && sql_eq (col u "password") (VText password)
                                 && live u)%bool) with
  | [] => None
  | user :: _ =>
      if truthy (col user "is_admin")
      then Some (mkUser (col user "id") (col user "username") (col user "password")
                   true (truthy (col user "active")) (getRoles d) (getCompanies d))
      else Some (user_of_row user)
  end.

(** *** getActiveVisit, and the VisitDetails selection of getVisitReports
    (src/utils/database/visits.ts) *)

(** getActiveVisit: [result[0] || null]. *)
Definition getActiveVisit (userId : Z) (d : database) : option row :=
  match List.filter
          (fun j => (sql_eq (col (fst j) "user_id") (VInt userId)
                     && is_null (col (fst j) "end_time") && live (fst j))%bool)
          (Sql.left_join (tbl d "visits") (tbl d "companies")
             (fun v c => sql_eq (col v "company_id") (col c "id"))) with
  | [] => None
  | (v, c) :: _ => Some (<["company_name" := Sql.ocol c "name"]> v)
  end.

(** [if (arg) { filters += ' AND column = ?' }] *)
Definition numeric_filter (column : string) (param : option Z) (v : row) : bool :=
  match param with
  | Some n => if n =? 0 then true else sql_eq (col v column) (VInt n)
  | None => true
  end.

(** The rows of the [WITH VisitDetails AS (...)] clause: the visit, its user
    and its company.  The columns computed from them (julianday arithmetic)
    and the decoding of coordinates are floating point and stay outside. *)
Definition visitDetails (companyId : option Z) (startDate endDate : string)
    (userId : option Z) (d : database) : list (row * row * row) :=
  List.filter
    (fun j => let v := fst (fst j) in
              (Sql.le (VText startDate) (col v "start_time")
               && negb (is_null (col v "start_time"))
               && Sql.le (col v "start_time") (VText endDate)
               && numeric_filter "company_id" companyId v
               && numeric_filter "user_id" userId v
               && negb (is_null (col v "end_time"))
               && live v)%bool)
    (Sql.inner_join
       (Sql.inner_join (tbl d "visits") (tbl d "users")
          (fun v u => sql_eq (col v "user_id") (col u "id")))
       (tbl d "companies")
       (fun j c => sql_eq (col (fst j) "company_id") (col c "id"))).

(** *** Forms, as both form modules read them *)

(** The object getForms and getFormById build for a form. *)
Record Form : Type := mkForm {
  form_id : value;
  form_name : value;
  form_description : value;
  form_created_at : value;
  form_updated_at : value;
  form_fields : list row
}.

(** [ff.id || ',' || ff.name || ',' || ff.label || ',' || ff.type || ','
     || ff.required || ',' || ff.sort_order] *)
Definition field_text (ff : option row) : option string :=
  sql_concat [sql_text (Sql.ocol ff "id"); Some ",";
              sql_text (Sql.ocol ff "name"); Some ",";
              sql_text (Sql.ocol ff "label"); Some ",";
              sql_text (Sql.ocol ff "type"); Some ",";
              sql_text (Sql.ocol ff "required"); Some ",";
              sql_text (Sql.ocol ff "sort_order")].

(** The selected row of a group of [forms f LEFT JOIN form_fields ff]:
    [f.*] and the [fields] aggregate. *)
Definition form_result (g : (row * option row) * list (row * option row)) : row :=
  <["fields" := Sql.group_concat (map (fun j => field_text (snd j)) (Sql.members g))]>
    (fst (fst g)).

Definition decode_fields (form : row) : list row :=
  decode 6
    (fun parts index =>
       object [("id", int_at parts index);
               ("form_id", Some (col form "id"));
               ("name", text_at parts (index + 1));
               ("label", text_at parts (index + 2));
               ("type", text_at parts (index + 3));
               ("required",
                Some (VBool (bool_decide (nth_error parts (index + 4) = Some "1"))));
               ("sort_order", int_at parts (index + 5))])
    (col form "fields").

Definition form_of_row (form : row) : Form :=
  mkForm (col form "id") (col form "name") (col form "description")
    (col form "created_at") (col form "updated_at") (decode_fields form).

(** A numeric argument that passes [if (arg)]. *)
Definition given (arg : option Z) : option Z :=
  match arg with
  | Some n => if n =? 0 then None else Some n
  | None => None
  end.

(** [forms f LEFT JOIN form_fields ff ON f.id = ff.form_id], the rows
    taken in the order of the tables; the query does not order the fields
    of a form, and the engine is free to answer in another order. *)
Definition forms_with_fields (d : database) : list (row * option row) :=
  Sql.left_join (tbl d "forms") (tbl d "form_fields")
    (fun f ff => sql_eq (col f "id") (col ff "form_id")).

Definition by_name (rows : list row) : list row :=
  order_by (fun a b => Sql.le (col a "name") (col b "name")) rows.

(** *** src/utils/forms.ts *)

Module Forms.

Section Writes.

Variable E : env.

Definition createForm (name description : string) (fields : list field_input)
    (companyIds : list Z) : M Z :=
  try_catch
    (BEGIN ;;
     ts <- CURRENT_TIMESTAMP E ;;
     formId <- runAsync E (insert_row ts "forms"
                  {[ "name" := VText name; "description" := VText description ]}) ;;
     for_of fields (fun field =>
       runAsync E (insert_row ts "form_fields"
         {[ "form_id" := VInt formId; "name" := VText (fi_name field);
            "label" := VText (fi_label field); "type" := VText (fi_type field);
            "required" := flag (fi_required field);
            "sort_order" := VInt (fi_sort_order field) ]}) ;;
       ret tt) ;;
     for_of companyIds (fun companyId =>
       runAsync E (insert_row ts "form_companies"
         {[ "form_id" := VInt formId; "company_id" := VInt companyId ]}) ;;
       ret tt) ;;
     COMMIT ;;
     iso <- new_Date_toISOString E ;;
     (if web E then ret tt else
      addToSyncQueue E "forms" (KeyNum formId) INSERT
        {[ "name" := VText name; "description" := VText description;
           "created_at" := VText iso; "updated_at" := VText iso ]}) ;;
     ret formId)
    (fun error => ROLLBACK ;; throw error).

Definition createFormResponse (form_id visit_id user_id : Z)
    (fieldResponses : list (Z * string)) : M Z :=
  try_catch
    (BEGIN ;;
     ts <- CURRENT_TIMESTAMP E ;;
     responseId <- runAsync E (insert_row ts "form_responses"
                      {[ "form_id" := VInt form_id; "visit_id" := VInt visit_id;
                         "user_id" := VInt user_id ]}) ;;
     for_of fieldResponses (fun response =>
       runAsync E (insert_row ts "form_field_responses"
         {[ "form_response_id" := VInt responseId; "field_id" := VInt (fst response);
            "value" := VText (snd response) ]}) ;;
       ret tt) ;;
     COMMIT ;;
     iso <- new_Date_toISOString E ;;
     (if web E then ret tt else
      addToSyncQueue E "form_responses" (KeyNum responseId) INSERT
        {[ "form_id" := VInt form_id; "visit_id" := VInt visit_id;
           "user_id" := VInt user_id;
           "created_at" := VText iso; "updated_at" := VText iso ]}) ;;
     ret responseId)
    (fun error => ROLLBACK ;; throw error).

End Writes.


(** getForms; [DISTINCT] removes nothing, the rows of [GROUP BY f.id]
    differing in [f.id]. *)
Definition getForms (userId : option Z) (d : database) : list Form :=
  let selected :=
    match given userId with
    | Some u =>
        map (fun j => fst (fst j))
          (List.filter
             (fun j => (sql_eq (col (snd j) "user_id") (VInt u)
                        && live (fst (fst (fst j))))%bool)
             (Sql.inner_join
                (Sql.inner_join (forms_with_fields d) (tbl d "form_companies")
                   (fun j fc => sql_eq (col (fst j) "id") (col fc "form_id")))
                (tbl d "user_companies")
                (fun j uc => sql_eq (col (snd j) "company_id") (col uc "company_id"))))
    | None => List.filter (fun j => live (fst j)) (forms_with_fields d)
    end in
  map form_of_row
    (by_name (map form_result (Sql.group_by (fun j => col (fst j) "id") selected))).

(** [forms.find(f => f.id === formId) || null] *)
Definition getFormById (formId : Z) (d : database) : option Form :=
  List.find (fun f => bool_decide (form_id f = VInt formId)) (getForms None d).

(** The object getFormResponses builds for a response. *)
Record FormResponse : Type := mkFormResponse {
  response_id : value;
  response_form_id : value;
  response_formName : value;
  response_visit_id : value;
  response_user_id : value;
  response_username : value;
  response_created_at : value;
  response_updated_at : value;
  responses : list row
}.

(** One row of [form_responses fr JOIN forms f JOIN users u
    JOIN form_field_responses ffr JOIN form_fields ff]. *)
Definition responses_joined (d : database) : list (row * row * row * row * row) :=
  Sql.inner_join
    (Sql.inner_join
       (Sql.inner_join
          (Sql.inner_join (tbl d "form_responses") (tbl d "forms")
             (fun fr f => sql_eq (col fr "form_id") (col f "id")))
          (tbl d "users")
          (fun j u => sql_eq (col (fst j) "user_id") (col u "id")))
       (tbl d "form_field_responses")
       (fun j ffr => sql_eq (col (fst (fst j)) "id") (col ffr "form_response_id")))
    (tbl d "form_fields")
    (fun j ff => sql_eq (col (snd j) "field_id") (col ff "id")).

Definition response_result
    (g : (row * row * row * row * row) * list (row * row * row * row * row)) : row :=
  let '(fr, f, u, _, _) := fst g in
  <["formName" := col f "name"]>
    (<["username" := col u "username"]>
       (<["responses" :=
            Sql.group_concat
              (map (fun j => let '(_, _, _, ffr, ff) := j in
                             sql_concat [sql_text (col ffr "field_id"); Some ",";
                                         sql_text (col ff "label"); Some ",";
                                         sql_text (col ffr "value")])
                   (Sql.members g))]> fr)).

Definition decode_responses (v : value) : list row :=
  decode 3 (fun parts index =>
              object [("field_id", int_at parts index);
                      ("fieldLabel", text_at parts (index + 1));
                      ("value", text_at parts (index + 2))]) v.

(** getFormResponses, newest first. *)
Definition getFormResponses (form_id visit_id user_id : option Z) (d : database)
  : list FormResponse :=
  map (fun response =>
         mkFormResponse (col response "id") (col response "form_id")
           (col response "formName") (col response "visit_id") (col response "user_id")
           (col response "username") (col response "created_at")
           (col response "updated_at") (decode_responses (col response "responses")))
    (order_by (fun a b => Sql.le (col b "created_at") (col a "created_at"))
       (map response_result
          (Sql.group_by (fun j => col (fst (fst (fst (fst j)))) "id")
             (List.filter
                (fun j => let fr := fst (fst (fst (fst j))) in
                          (live fr
                           && numeric_filter "form_id" form_id fr
                           && numeric_filter "visit_id" visit_id fr
                           && numeric_filter "user_id" user_id fr)%bool)
                (responses_joined d))))).

End Forms.

(** *** The forms module of the database layer (src/unnamed/part_008) *)

Module DatabaseForms.

(** [UPDATE sync_queue SET synced = 1
     WHERE table_name IN (?, ?) AND record_id LIKE ?] with the pattern
    [`${responseId}%`]: the record ids that begin with the digits of
    [responseId]. *)
Definition mark_synced_like (names : list string) (start : string)
  : database -> outcome unit * database :=
  update_queue (fun c => (existsb (String.eqb (sq_table_name c)) names
                          && String.prefix start (sq_record_id c))%bool)
    (fun c => mkChange (sq_id c) (sq_table_name c) (sq_record_id c) (sq_operation c)
                (sq_data c) true (sq_retry_count c) (sq_error c) (sq_created_at c)).

Section Writes.

Variable E : env.

(** createFormResponse of the database layer: the local rows, then one
    outbox row for the response and one for each field response, then an
    attempt to upload at once.  The result of a field upload is not looked
    at, and whatever the attempt throws is logged and dropped. *)
Definition createFormResponse (formId visitId userId : Z) (responses : list (Z * string))
  : M Z :=
  try_catch
    (BEGIN ;;
     ts <- CURRENT_TIMESTAMP E ;;
     responseId <- runAsync E (insert_row ts "form_responses"
                      {[ "form_id" := VInt formId; "visit_id" := VInt visitId;
                         "user_id" := VInt userId ]}) ;;
     for_of responses (fun response =>
       runAsync E (insert_row ts "form_field_responses"
         {[ "form_response_id" := VInt responseId; "field_id" := VInt (fst response);
            "value" := VText (snd response) ]}) ;;
       ret tt) ;;
     COMMIT ;;
     (if web E then ret tt else
      iso <- new_Date_toISOString E ;;
      addToSyncQueue E "form_responses" (KeyNum responseId) INSERT
        {[ "form_id" := VInt formId; "visit_id" := VInt visitId;
           "user_id" := VInt userId;
           "created_at" := VText iso; "updated_at" := VText iso ]} ;;
      for_of responses (fun response =>
        addToSyncQueue E "form_field_responses"
          (KeyText (Text.of_Z responseId ++ "_" ++ Text.of_Z (fst response))) INSERT
          {[ "form_response_id" := VInt responseId; "field_id" := VInt (fst response);
             "value" := VText (snd response);
             "created_at" := VText iso; "updated_at" := VText iso ]}) ;;
      try_catch
        (responseError <- send E (InsertInto "form_responses"
                             {[ "id" := VInt responseId; "form_id" := VInt formId;
                                "visit_id" := VInt visitId; "user_id" := VInt userId;
                                "created_at" := VText iso; "updated_at" := VText iso ]}) ;;
         match responseError with
         | Some _ => ret tt
         | None =>
             for_of responses (fun response =>
               send E (InsertInto "form_field_responses"
                         {[ "form_response_id" := VInt responseId;
                            "field_id" := VInt (fst response);
                            "value" := VText (snd response);
                            "created_at" := VText iso; "updated_at" := VText iso ]}) ;;
               ret tt) ;;
             runAsync E (mark_synced_like ["form_responses"; "form_field_responses"]
                           (Text.of_Z responseId))
         end)
        (fun _ => ret tt)) ;;
     ret responseId)
    (fun error => ROLLBACK ;; throw error).

End Writes.

(** [fc.company_id IN (SELECT company_id FROM user_companies
     WHERE user_id = ?)] *)
Definition company_of_user (d : database) (u : Z) (fc : row) : bool :=
  existsb (fun uc => (sql_eq (col uc "user_id") (VInt u)
                      && sql_eq (col fc "company_id") (col uc "company_id"))%bool)
    (tbl d "user_companies").

(** getForms, by company or by the companies of a user. *)
Definition getForms (userId companyId : option Z) (d : database) : list Form :=
  let scope (fc : row) : bool :=
    match given companyId, given userId with
    | Some c, _ => sql_eq (col fc "company_id") (VInt c)
    | None, Some u => company_of_user d u fc
    | None, None => true
    end in
  map form_of_row
    (by_name
       (map form_result
          (Sql.group_by (fun j => col (fst j) "id")
             (map fst
                (List.filter (fun j => (live (fst (fst j)) && scope (snd j))%bool)
                   (Sql.inner_join (forms_with_fields d) (tbl d "form_companies")
                      (fun j fc => sql_eq (col (fst j) "id") (col fc "form_id")))))))).

(** getFormById: [results[0]] of the query on that id, or [null]. *)
Definition getFormById (formId : Z) (d : database) : option Form :=
  match map form_result
          (Sql.group_by (fun j => col (fst j) "id")
             (List.filter (fun j => (sql_eq (col (fst j) "id") (VInt formId)
                                     && live (fst j))%bool)
                (forms_with_fields d))) with
  | [] => None
  | form :: _ => Some (form_of_row form)
  end.

(** The object this getFormResponses builds for a response. *)
Record FormResponse : Type := mkFormResponse {
  response_id : value;
  response_formName : value;
  response_username : value;
  response_created_at : value;
  responses : list row
}.

(** One row of [form_responses fr JOIN forms f JOIN users u
    LEFT JOIN form_field_responses ffr LEFT JOIN form_fields ff]. *)
Definition responses_joined (d : database)
  : list (row * row * row * option row * option row) :=
  Sql.left_join
    (Sql.left_join
       (Sql.inner_join
          (Sql.inner_join (tbl d "form_responses") (tbl d "forms")
             (fun fr f => sql_eq (col fr "form_id") (col f "id")))
          (tbl d "users")
          (fun j u => sql_eq (col (fst j) "user_id") (col u "id")))
       (tbl d "form_field_responses")
       (fun j ffr => sql_eq (col (fst (fst j)) "id") (col ffr "form_response_id")))
    (tbl d "form_fields")
    (fun j ff => sql_eq (Sql.ocol (snd j) "field_id") (col ff "id")).

(** [GROUP_CONCAT(json_object('fieldLabel', ff.label, 'value', ffr.value))]
    read back by [JSON.parse(`[${row.responses}]`)]: one object per joined
    row, a NULL column as [null]. *)
Definition response_of_group
    (g : (row * row * row * option row * option row)
         * list (row * row * row * option row * option row)) : FormResponse :=
  let '(fr, f, u, _, _) := fst g in
  mkFormResponse (col fr "id") (col f "name") (col u "username") (col fr "created_at")
    (map (fun j => let '(_, _, _, ffr, ff) := j in
                   object [("fieldLabel", Some (Sql.ocol ff "label"));
                           ("value", Some (Sql.ocol ffr "value"))])
         (Sql.members g)).

(** getFormResponses: nothing for a visit that is deleted or unknown. *)
Definition getFormResponses (formId visitId userId : option Z) (d : database)
  : list FormResponse :=
  let visitExists :=
    match given visitId with
    | Some v => existsb (fun r => (id_is v r && live r)%bool) (tbl d "visits")
    | None => true
    end in
  if negb visitExists then [] else
  order_by (fun a b => Sql.le (response_created_at b) (response_created_at a))
    (map response_of_group
       (Sql.group_by (fun j => col (fst (fst (fst (fst j)))) "id")
          (List.filter
             (fun j => let fr := fst (fst (fst (fst j))) in
                       (live fr
                        && numeric_filter "form_id" formId fr
                        && numeric_filter "visit_id" visitId fr
                        && numeric_filter "user_id" userId fr)%bool)
             (responses_joined d)))).

End DatabaseForms.

(** *** src/utils/formSync.ts *)

(** The two operations handed to [queueFormSync].  With no other form sync
    in flight the queue runs the operation at once and settles with its
    result, which is what a caller awaiting one call after the other sees. *)
Module FormSync.

(** The columns bound by the three [INSERT OR REPLACE] statements: the full
    column list, a property the record lacks or holds as null being bound
    as NULL. *)
Definition form_columns (form : row) : row :=
  {[ "id" := bind_param (col form "id"); "name" := bind_param (col form "name");
     "description" := bind_param (col form "description");
     "created_at" := bind_param (col form "created_at");
     "updated_at" := bind_param (col form "updated_at");
     "deleted_at" := bind_param (col form "deleted_at") ]}.

Definition field_columns (field : row) : row :=
  {[ "id" := bind_param (col field "id"); "form_id" := bind_param (col field "form_id");
     "name" := bind_param (col field "name"); "label" := bind_param (col field "label");
     "type" := bind_param (col field "type");
     "required" := flag (truthy (col field "required"));
     "sort_order" := bind_param (col field "sort_order");
     "created_at" := bind_param (col field "created_at");
     "updated_at" := bind_param (col field "updated_at");
     "deleted_at" := bind_param (col field "deleted_at") ]}.

Definition form_company_columns (formCompany : row) : row :=
  {[ "form_id" := bind_param (col formCompany "form_id");
     "company_id" := bind_param (col formCompany "company_id");
     "created_at" := bind_param (col formCompany "created_at");
     "updated_at" := bind_param (col formCompany "updated_at");
     "deleted_at" := bind_param (col formCompany "deleted_at") ]}.

(** [SELECT * FROM sync_queue
     WHERE table_name IN ('form_responses', 'form_field_responses')
     AND synced = 0 AND retry_count < 3 ORDER BY created_at ASC] *)
Definition pendingResponses (d : database) : list change :=
  order_by (fun a b => sq_created_at a <=? sq_created_at b)
    (List.filter (fun c => ((String.eqb (sq_table_name c) "form_responses"
                             || String.eqb (sq_table_name c) "form_field_responses")
                            && is_pending c)%bool)
       (sync_queue d)).

Section Operations.

Variable E : env.

(** [if (error) throw error] *)
Definition raise_if (error : option string) : M unit :=
  match error with
  | Some e => throw e
  | None => ret tt
  end.

Definition store_all (t : string) (columns : row -> row) (records : list row) : M unit :=
  for_of records (fun record =>
    ts <- CURRENT_TIMESTAMP E ;;
    runAsync E (insert_or_replace ts t (columns record)) ;;
    ret tt).

(** The operation of downloadForms: the three fetches first, then one
    transaction for the writes. *)
Definition downloadForms_operation : M unit :=
  on <- isOnline E ;;
  if negb on then ret tt else
  try_catch
    (forms <- select_active E "forms" ;;
     raise_if (snd forms) ;;
     fields <- select_active E "form_fields" ;;
     raise_if (snd fields) ;;
     formCompanies <- select_active E "form_companies" ;;
     raise_if (snd formCompanies) ;;
     BEGIN ;;
     store_all "forms" form_columns (fst forms) ;;
     store_all "form_fields" field_columns (fst fields) ;;
     store_all "form_companies" form_company_columns (fst formCompanies) ;;
     COMMIT ;;
     stamp <- new_Date_toISOString E ;;
     AsyncStorage_setItem "last_forms_sync" stamp ;;
     getAllAsync (fun d => (length (tbl d "forms"), length (tbl d "form_fields"),
                            length (tbl d "form_companies"))) ;;
     ret tt)
    (fun error =>
       try_catch ROLLBACK (fun _ => ret tt) ;;
       throw error).

(** downloadForms *)
Definition downloadForms : M unit :=
  if web E then ret tt else downloadForms_operation.

(** The upsert of one queued row: [{ ...data, id: parseInt(record_id) }]. *)
Definition upsert_response (t : string) (response : change) : M unit :=
  match sq_operation response with
  | INSERT | UPDATE =>
      error <- send E (Upsert t (<["id" := num_or_nan (parseInt (sq_record_id response))]>
                                   (sq_data response))) ;;
      raise_if error
  | DELETE => ret tt
  end.

(** One turn of the loop of uploadFormResponses: a request for an INSERT or
    an UPDATE, none for a DELETE, and the row marked as synced. *)
Definition upload_response (response : change) : M unit :=
  try_catch
    ((if String.eqb (sq_table_name response) "form_responses"
      then upsert_response "form_responses" response
      else if String.eqb (sq_table_name response) "form_field_responses"
      then upsert_response "form_field_responses" response
      else ret tt) ;;
     runAsync E (mark_synced (sq_id response)))
    (fun e => runAsync E (mark_failed (error_message e) (sq_id response))).

(** The operation of uploadFormResponses. *)
Definition uploadFormResponses_operation : M unit :=
  on <- isOnline E ;;
  if negb on then ret tt else
  try_catch
    (pending <- getAllAsync pendingResponses ;;
     for_of pending upload_response ;;
     at_time <- gets now ;;
     runAsync E (purge_old at_time))
    (fun error => throw error).

(** uploadFormResponses *)
Definition uploadFormResponses : M unit :=
  if web E then ret tt else uploadFormResponses_operation.

End Operations.

End FormSync.

(** ** Two invocations of downloadUpdates on one event loop *)

Module Interleave.

(** Where an invocation of downloadUpdates stands.  An invocation runs from
    one [await] to the next without interruption; between two of its steps
    the other invocation may run.  The fetch and the writes of one table
    are taken as one step. *)
Inductive point : Type :=
| Entry
| Probing
| AtTable (k : nat)
| AtCommit
| Caught (error : string)
| Finishing (result : outcome unit)
| Done (result : outcome unit).

Section Machine.

Variable E : env.

Definition after {A : Type} (r : outcome A * world) (next : point) : point * world :=
  match r with
  | (Return _, w) => (next, w)
  | (Throw e, w) => (Caught e, w)
  end.

Definition step (p : point) (w : world) : point * world :=
  match p with
  | Entry =>
      if (web E || syncInProgress w)%bool then (Done (Return tt), w)
      else (Probing, w)
  | Probing =>
      match isOnline E w with
      | (Return true, w1) =>
          after (BEGIN (with_flags true true w1)) (AtTable 0)
      | (_, w1) => (Done (Return tt), w1)
      end
  | AtTable k =>
      match nth_error download_tables k with
      | Some table => after (download_table E table w) (AtTable (S k))
      | None => (AtCommit, w)
      end
  | AtCommit =>
      after ((COMMIT ;;
              getAllAsync (fun d => map (fun table => length (tbl d (fst table)))
                                      download_tables) ;;
              ret tt) w)
            (Finishing (Return tt))
  | Caught error =>
      (Finishing (Throw error), snd (try_catch ROLLBACK (fun _ => ret tt) w))
  | Finishing result => (Done result, with_flags false false w)
  | Done result => (Done result, w)
  end.

Fixpoint run (fuel : nat) (p : point) (w : world) : point * world :=
  match fuel with
  | O => (p, w)
  | S fuel' => let '(p', w') := step p w in run fuel' p' w'
  end.

(** Two invocations and the world they share; [schedule] names, turn by
    turn, the invocation that runs next. *)
Fixpoint interleave (schedule : list bool) (p1 p2 : point) (w : world)
  : point * point * world :=
  match schedule with
  | [] => (p1, p2, w)
  | true :: rest => let '(p1', w') := step p1 w in interleave rest p1' p2 w'
  | false :: rest => let '(p2', w') := step p2 w in interleave rest p1 p2' w'
  end.

End Machine.

(** The second invocation arrives while the first awaits its connectivity
    probe, and resumes after the first has written its first table. *)
Definition overlapping : list bool :=
  [true; false; true; true; false; false; false]
  ++ repeat true 14.

End Interleave.

(** ** Vocabulary of the statements *)

(** The guards of processSyncQueue all pass. *)
Definition drain_guard (E : env) (w : world) : bool :=
  (negb (web E) && negb (syncInProgress w) && online w && negb (globalTransaction w))%bool.

(** The guards of downloadUpdates all pass. *)
Definition download_guard (E : env) (w : world) : bool :=
  (negb (web E) && negb (syncInProgress w) && online w)%bool.

(** Rows of [sync_queue] whose id is not [i] are the same before and after
    a statement that rewrites the rows with id [i]. *)
Definition same_rows_except (i : Z) (q q' : list change) : Prop :=
  forall c, sq_id c <> i -> (In c q' <-> In c q).

(** Between [w] and [w'] the store refused no statement and the remote
    answered no request with an error. *)
Definition clean_between (E : env) (w w' : world) : Prop :=
  (forall j, (statements w <= j < statements w')%nat -> statement_fails E j = false)
  /\ (forall j, (requests w <= j < requests w')%nat -> request_error E j = None).

(** What the statements and requests of a computation leave untouched. *)
Definition ambient (w w' : world) : Prop :=
  transaction w' = transaction w /\ remote w' = remote w /\ now w' = now w.

(** What a downloaded record is stored as: its non-null columns, bound, over
    the column DEFAULTs. *)
Definition image (E : env) (at_time : Z) (t : string) (record : row) : row :=
  sent_columns record ∪ defaults (current_timestamp E at_time) t.

(** The rows of a table after an [INSERT OR REPLACE] of [full]. *)
Definition upsert_rows (t : string) (rows : list row) (full : row) : list row :=
  (List.filter (fun r' => negb (conflicting t full r')) rows ++ [full])%list.

(** The record carries a primary key. *)
Definition has_id (record : row) : Prop := is_null (col record "id") = false.

(** What one table of the download ends up holding, given what the remote
    answered with. *)
Definition table_result (E : env) (w : world) (name : string) (clear : bool)
    (before after : list row) : Prop :=
  let act := active_rows (remote w) name in
  (act = [] -> after = before)
  /\ (act <> [] -> Forall has_id act ->
      after = fold_left (upsert_rows name) (map (image E (now w) name) act)
                (if clear then [] else before)).

(** The tables a download clears before it writes. *)
Definition replace_tables : list string := ["users"; "companies"; "roles"; "forms"].

(** The repository mutations that enqueue one outbox row per call. *)
Inductive mutation : Type :=
| CreateUser (username password : string) (isAdmin active : bool)
| DeleteUser (id : Z)
| AssignUserRole (userId roleId : Z)
| AssignUserCompany (userId companyId : Z)
| CreateCompany (name description : string)
| UpdateCompany (id : Z) (name description : string)
| DeleteCompany (id : Z)
| CreateRole (name : string)
| UpdateRole (id : Z) (name : string)
| DeleteRole (id : Z)
| StartVisit (userId companyId roleId : Z) (latitude longitude : value) (noGpsSignal : bool)
| EndVisit (seconds_since : value -> Z -> value) (visitId : Z)
    (endLatitude endLongitude : value) (noGpsSignalEnd : bool)
| CreateForm (name description : string) (fields : list field_input) (companyIds : list Z)
| CreateFormResponse (form_id visit_id user_id : Z) (fieldResponses : list (Z * string)).

(** A call whose returned id is not used. *)
Definition discard {A : Type} (m : M A) : M unit := bind m (fun _ => ret tt).

(** The repository call behind each mutation. *)
Definition perform (E : env) (m : mutation) : M unit :=
  match m with
  | CreateUser u p a b => discard (createUser E u p a b)
  | DeleteUser i => deleteUser E i
  | AssignUserRole u r => assignUserRole E u r
  | AssignUserCompany u c => assignUserCompany E u c
  | CreateCompany n d => discard (createCompany E n d)
  | UpdateCompany i n d => updateCompany E i n d
  | DeleteCompany i => deleteCompany E i
  | CreateRole n => discard (createRole E n)
  | UpdateRole i n => updateRole E i n
  | DeleteRole i => deleteRole E i
  | StartVisit u c r la lo g => discard (startVisit E u c r la lo g)
  | EndVisit s v la lo g => endVisit E s v la lo g
  | CreateForm n d fs cs => discard (Forms.createForm E n d fs cs)
  | CreateFormResponse f v u rs => discard (Forms.createFormResponse E f v u rs)
  end.







(** A row of [t] that refers to user [i] and carries no deletion mark. *)
Definition references_user (d : database) (t : string) (i : Z) : Prop :=
  exists r, In r (tbl d t)
            /\ sql_eq (col r "user_id") (VInt i) = true
            /\ is_null (col r "deleted_at") = true.

(** [v] is the id of a row of table [t] that carries no deletion mark. *)
Definition live_in (d : database) (t : string) (v : value) : Prop :=
  exists r, In r (tbl d t) /\ live r = true /\ col r "id" = v.

(** ** Reasoning about computations *)

(** [wp m Q X w]: run from [w], the computation [m] returns a value and a
    world in [Q], or throws a message in a world in [X]. *)
Definition wp {A : Type} (m : M A) (Q : A -> world -> Prop)
    (X : string -> world -> Prop) (w : world) : Prop :=
  match m w with
  | (Return a, w') => Q a w'
  | (Throw e, w') => X e w'
  end.

(** ** Sample data *)

(** An environment in which nothing fails, on a device. *)
Definition calm : env :=
  mkEnv false (fun _ => false) (fun _ => None)
    (fun _ => "2025-03-01T10:00:00.000Z") (fun _ => "2025-03-01 10:00:00").

(** The second request of the run is answered with an error. *)
Definition second_request_fails : env :=
  mkEnv false (fun _ => false) (fun n => if Nat.eqb n 1 then Some "fetch failed" else None)
    (fun _ => "2025-03-01T10:00:00.000Z") (fun _ => "2025-03-01 10:00:00").

(** The store refuses the second statement of the run and no other. *)
Definition second_statement_refused : env :=
  mkEnv false (fun n => Nat.eqb n 1) (fun _ => None)
    (fun _ => "2025-03-01T10:00:00.000Z") (fun _ => "2025-03-01 10:00:00").

(** The store before any row is written. *)
Definition empty_database : database := mkDatabase ∅ ∅ [] 0.

(** An idle, online device at instant [t] holding [d]. *)
Definition device (d : database) (t : Z) : world :=
  mkWorld d None ∅ [] ∅ false false false true t 0 0.

(** The same device in front of the remote tables [store]. *)
Definition with_remote (store : gmap string (list row)) (w : world) : world :=
  mkWorld (db w) (transaction w) store (sent w) (storage w) (syncInProgress w)
    (globalTransaction w) (syncTimeout w) (online w) (now w) (statements w) (requests w).

(** A users row as the store holds it. *)
Definition local_user (i : Z) (username : string) (admin : Z) (deleted : value) : row :=
  {[ "id" := VInt i; "username" := VText username; "password" := VText "secret";
     "is_admin" := VInt admin; "active" := VInt 1;
     "created_at" := VText "2025-01-01 00:00:00";
     "updated_at" := VText "2025-01-01 00:00:00";
     "deleted_at" := deleted ]}.

(** A users record as the remote answers with it. *)
Definition user_record (i : Z) (username : string) (admin : bool) (deleted : value) : row :=
  {[ "id" := VInt i; "username" := VText username; "password" := VText "secret";
     "is_admin" := VBool admin; "active" := VBool true;
     "created_at" := VText "2025-02-01T08:00:00+00:00";
     "updated_at" := VText "2025-02-01T08:00:00+00:00";
     "deleted_at" := deleted ]}.

(** A visits row of [user] at [company]. *)
Definition visit_row (i user company : Z) (ended deleted : value) : row :=
  {[ "id" := VInt i; "user_id" := VInt user; "company_id" := VInt company;
     "role_id" := VInt 1; "start_time" := VText "2025-02-20 09:00:00";
     "end_time" := ended; "deleted_at" := deleted ]}.

(** A forms row. *)
Definition form_row (i : Z) (name : string) (deleted : value) : row :=
  {[ "id" := VInt i; "name" := VText name; "description" := VText "";
     "created_at" := VText "2025-02-01 08:00:00";
     "updated_at" := VText "2025-02-01 08:00:00"; "deleted_at" := deleted ]}.

(** A form_fields row of form [form]. *)
Definition field_row (i form : Z) (name : string) (deleted : value) : row :=
  {[ "id" := VInt i; "form_id" := VInt form; "name" := VText name;
     "label" := VText name; "type" := VText "text"; "required" := VInt 1;
     "sort_order" := VInt i; "deleted_at" := deleted ]}.

(** An UPDATE of role [i] waiting in the outbox. *)
Definition queued (i : Z) (retries : Z) (at_time : Z) : change :=
  mkChange i "roles" (Text.of_Z i) UPDATE {[ "name" := VText "r" ]} false retries None at_time.

(** A device holding one user the remote no longer lists. *)
Definition stale_device : world :=
  device (store_rows "users" [local_user 9 "old" 0 VNull] empty_database) 1000.

(** The remote lists two active users and one deleted user. *)
Definition two_remote_users : gmap string (list row) :=
  {[ "users" := [user_record 1 "ana" true VNull; user_record 2 "luis" false VNull;
                 user_record 3 "gone" false (VText "2025-02-10T00:00:00+00:00")] ]}.

(** The remote lists two active users and one role. *)
Definition users_and_roles : gmap string (list row) :=
  <["roles" := [{[ "id" := VInt 1; "name" := VText "usuario" ]}]]> two_remote_users.

(** User 4 holds a role and has one visit on record. *)
Definition visited_device : world :=
  device (store_rows "visits" [visit_row 1 4 7 VNull VNull]
            (store_rows "user_roles" [{[ "user_id" := VInt 4; "role_id" := VInt 2 ]}]
               (store_rows "users" [local_user 4 "ana" 0 VNull] empty_database))) 1000.

(** A live form one of whose two fields carries a deletion mark. *)
Definition form_with_deleted_field : database :=
  store_rows "forms" [form_row 1 "survey" VNull]
    (store_rows "form_fields"
       [field_row 5 1 "kept" VNull;
        field_row 6 1 "dropped" (VText "2025-02-10 00:00:00")]
       empty_database).

(** An administrator without any role or company assignment, two roles of
    which one is deleted, and one company. *)
Definition admin_database : database :=
  store_rows "users" [local_user 1 "admin" 1 VNull; local_user 2 "luis" 0 VNull]
    (store_rows "roles" [{[ "id" := VInt 1; "name" := VText "usuario" ]};
                         {[ "id" := VInt 2; "name" := VText "controlador";
                            "deleted_at" := VText "2025-02-10 00:00:00" ]}]
       (store_rows "companies" [{[ "id" := VInt 7; "name" := VText "AWS" ]}]
          (store_rows "user_roles" [{[ "user_id" := VInt 2; "role_id" := VInt 1 ]}]
             empty_database))).


(** ** Vocabulary of the further properties *)

(** [m] moves the world along [R], whether it returns or throws. *)
Definition respects {A : Type} (R : world -> world -> Prop) (m : M A) : Prop :=
  forall w, R w (snd (m w)).

(** The connection is left as it was found: no transaction opened, closed
    or rolled back. *)
Definition same_transaction (w w' : world) : Prop :=
  transaction w' = transaction w.

(** A computation that runs inside the transaction it finds open and closes
    it with COMMIT: when it returns, no transaction is open; when it throws,
    the transaction is open as it was found, or has been committed. *)
Definition commits {A : Type} (m : M A) : Prop :=
  forall w, transaction w <> None ->
    match m w with
    | (Return _, w') => transaction w' = None
    | (Throw _, w') => transaction w' = transaction w \/ transaction w' = None
    end.

(** How a write that runs in a transaction of its own ends: no transaction
    is left open, and when it raises, the database is what it was before
    the call, unless the failure came after COMMIT; the error is then the
    one of the ROLLBACK of the catch block. *)
Definition all_or_nothing {A : Type} (m : M A) (w : world) : Prop :=
  transaction (snd (m w)) = None
  /\ match fst (m w) with
     | Return _ => True
     | Throw message =>
         db (snd (m w)) = db w
         \/ message = "cannot rollback - no transaction is active"
     end.



(** The store after user [id] was removed: the rows of users that carry the
    id bear a deletion mark, and no junction row refers to the user. *)
Definition user_removed (id : Z) (d' : database) : Prop :=
  (forall r, In r (tbl d' "users") -> id_is id r = true -> live r = false)
  /\ (forall r, In r (tbl d' "user_roles") -> sql_eq (col r "user_id") (VInt id) = false)
  /\ (forall r, In r (tbl d' "user_companies") ->
                sql_eq (col r "user_id") (VInt id) = false).

(** [d'] is [d] with one more row in table [t], the stored image of the
    column list [r], whose key is [id]; no row of [t] held one of its
    keys, and the other tables are as they were. *)
Definition row_added (ts t : string) (r : row) (id : Z) (d d' : database) : Prop :=
  let full := complete ts t r d in
  tbl d' t = (tbl d t ++ [full])%list
  /\ id = id_of full
  /\ existsb (conflicting t full) (tbl d t) = false
  /\ (forall t', t' <> t -> tbl d' t' = tbl d t').

(** The row addToSyncQueue writes for a change made at [at_time]. *)
Definition enqueued (d : database) (tableName : string) (recordId : record_key)
    (op : operation) (data : row) (at_time : Z) : change :=
  mkChange (next_queue_id d) tableName (key_toString recordId) op data false 0 None at_time.

(** The outbox table and its AUTOINCREMENT counter. *)
Definition outbox (d : database) : list change * Z := (sync_queue d, sync_queue_seq d).

(** [J] holds of the outbox of the store and, when a transaction is open,
    of the outbox of its snapshot, which a ROLLBACK would bring back. *)
Definition holds_for (J : list change * Z -> Prop) (w : world) : Prop :=
  J (outbox (db w)) /\ forall saved, transaction w = Some saved -> J (outbox saved).

(** From [w] to [w'] the property [J] of the outbox is kept. *)
Definition keeps (J : list change * Z -> Prop) (w w' : world) : Prop :=
  holds_for J w -> holds_for J w'.

(** A statement on the syncable tables: it leaves the outbox alone. *)
Definition table_statement {A : Type} (f : database -> outcome A * database) : Prop :=
  forall d, outbox (snd (f d)) = outbox d.

(** [J] is kept when addToSyncQueue inserts its row. *)
Definition closed_under_enqueue (J : list change * Z -> Prop) : Prop :=
  forall tableName recordId op data at_time d,
    J (outbox d) ->
    J (outbox (snd (insert_sync_queue tableName recordId op data at_time d))).

(** [J] is kept by the statements that rewrite or delete rows of the
    outbox: an UPDATE that leaves the id of a row as it is and does not
    lower its retry count, and the DELETE of the cleanup. *)
Definition closed_under_updates (J : list change * Z -> Prop) : Prop :=
  (forall p f d,
     (forall c, sq_id (f c) = sq_id c /\ sq_retry_count c <= sq_retry_count (f c)) ->
     J (outbox d) -> J (outbox (snd (update_queue p f d))))
  /\ (forall at_time d, J (outbox d) -> J (outbox (snd (purge_old at_time d)))).

(** The row with id [i] has used up its attempts: the id has been handed
    out, no id of the outbox is above the AUTOINCREMENT counter, and every
    row that carries [i] has a retry count of 3 or more. *)
Definition capped (i : Z) (q : list change * Z) : Prop :=
  i <= snd q
  /\ Forall (fun c => sq_id c <= snd q) (fst q)
  /\ Forall (fun c => sq_id c = i -> 3 <= sq_retry_count c) (fst q).

(** What happens on a device, one thing after the other: a repository
    write that enqueues one row (endVisit among them), updateUser, the
    createFormResponse of the database layer, the two uploads, the two
    downloads, initDatabase, time going by, connectivity changing. *)
Inductive event : Type :=
| Mutation (m : mutation)
| UpdateUser (id : Z) (username : string) (password : option string) (isAdmin : bool)
    (roleIds companyIds : list Z) (active : bool)
| CreateResponse (formId visitId userId : Z) (responses : list (Z * string))
| Upload
| UploadResponses
| Download
| DownloadForms
| Start
| Elapse (seconds : nat)
| Network (up : bool).

Definition with_now (t : Z) (w : world) : world :=
  mkWorld (db w) (transaction w) (remote w) (sent w) (storage w) (syncInProgress w)
    (globalTransaction w) (syncTimeout w) (online w) t (statements w) (requests w).

Definition with_online (up : bool) (w : world) : world :=
  mkWorld (db w) (transaction w) (remote w) (sent w) (storage w) (syncInProgress w)
    (globalTransaction w) (syncTimeout w) up (now w) (statements w) (requests w).

(** The world after an event; whether the call returned or raised is not
    looked at. *)
Definition occur (E : env) (e : event) (w : world) : world :=
  match e with
  | Mutation m => snd (perform E m w)
  | UpdateUser id username password isAdmin roleIds companyIds active =>
      snd (updateUser E id username password isAdmin roleIds companyIds active w)
  | CreateResponse formId visitId userId responses =>
      snd (DatabaseForms.createFormResponse E formId visitId userId responses w)
  | Upload => snd (processSyncQueue E w)
  | UploadResponses => snd (FormSync.uploadFormResponses E w)
  | Download => snd (downloadUpdates E w)
  | DownloadForms => snd (FormSync.downloadForms E w)
  | Start => snd (initDatabase E w)
  | Elapse seconds => with_now (now w + Z.of_nat seconds) w
  | Network up => with_online up w
  end.

Definition after_events (E : env) (events : list event) (w : world) : world :=
  fold_left (fun w e => occur E e w) events w.




(** From [w] to [w'] no syncable table, no AUTOINCREMENT counter of a table
    and no part of the connection or of the surroundings has changed; the
    outbox, the requests sent, the storage and the flags may have. *)
Definition tables_kept (w w' : world) : Prop :=
  tables (db w') = tables (db w) /\ sequences (db w') = sequences (db w)
  /\ transaction w' = transaction w /\ globalTransaction w' = globalTransaction w
  /\ remote w' = remote w /\ now w' = now w /\ online w' = online w.

(** What one attempt of the upload loop makes of the row it was made for:
    marked synced with its error cleared when the remote accepted the
    request, and with one more retry and the message of the error (or
    'Unknown error' for an empty one) when it answered with an error. *)
Definition settled (answer : option string) (c : change) : change :=
  match answer with
  | None =>
      mkChange (sq_id c) (sq_table_name c) (sq_record_id c) (sq_operation c)
        (sq_data c) true (sq_retry_count c) None (sq_created_at c)
  | Some e =>
      mkChange (sq_id c) (sq_table_name c) (sq_record_id c) (sq_operation c)
        (sq_data c) (sq_synced c) (sq_retry_count c + 1) (Some (error_message e))
        (sq_created_at c)
  end.

(** [Number.isSafeInteger(n)]: the integers a number holds exactly, and
    whose [toString()] is their decimal digits. *)
Definition isSafeInteger (n : Z) : bool := Z.abs n <=? 9007199254740991.

(** The record id under which createFormResponse of the database layer
    enqueues a field response: [`${responseId}_${response.field_id}`]. *)
Definition fieldResponseId (responseId : Z) (response : Z * string) : string :=
  Text.of_Z responseId ++ "_" ++ Text.of_Z (fst response).

(** The messages with which the store refuses an operation: a BEGIN inside
    a transaction, a statement the device cannot run, an INSERT on a key
    that is taken, and a ROLLBACK with no transaction to roll back. *)
Definition store_errors : list string :=
  [ "cannot start a transaction within a transaction"; "SQLITE_ERROR";
    "UNIQUE constraint failed"; "cannot rollback - no transaction is active" ].

(** The members of a list in the order of their first occurrence, each
    once: what [GROUP_CONCAT(DISTINCT ...)] keeps. *)
Fixpoint first_occurrences {A : Type} `{EqDecision A} (l : list A) : list A :=
  match l with
  | [] => []
  | x :: rest =>
      x :: List.filter (fun y => negb (bool_decide (x = y))) (first_occurrences rest)
  end.

(** [r.id || ',' || r.name] of a joined role. *)
Definition role_text (role : Z * string) : option string :=
  sql_concat [sql_text (VInt (fst role)); Some ","; sql_text (VText (snd role))].

(** [c.id || ',' || c.name || ',' || COALESCE(c.description, '')] of a
    joined company; the description may be NULL. *)
Definition company_text (company : Z * string * option string) : option string :=
  sql_concat [sql_text (VInt (fst (fst company))); Some ",";
              sql_text (VText (snd (fst company))); Some ",";
              Some (default "" (snd company))].

(** A company with [COALESCE(c.description, '')] for its description. *)
Definition coalesced (company : Z * string * option string) : Z * string * string :=
  (fst (fst company), snd (fst company), default "" (snd company)).

(** The objects that the [reduce] callbacks of getUsers and getUser build. *)
Definition role_object (role : Z * string) : row :=
  object [("id", Some (VInt (fst role))); ("name", Some (VText (snd role)))].

Definition company_object (company : Z * string * string) : row :=
  object [("id", Some (VInt (fst (fst company))));
          ("name", Some (VText (snd (fst company))));
          ("description", Some (VText (snd company)))].

(** The role and the company of a row of the join of getUsers, as the
    columns the two GROUP_CONCAT expressions read; all NULL where the LEFT
    JOIN found none. *)
Definition joined_role (j : user_join) : value * value :=
  (Sql.ocol (joined_r j) "id", Sql.ocol (joined_r j) "name").

Definition joined_company (j : user_join) : value * value * value :=
  (Sql.ocol (joined_c j) "id", Sql.ocol (joined_c j) "name",
   Sql.ocol (joined_c j) "description").

Definition role_values (role : option (Z * string)) : value * value :=
  match role with
  | Some (i, name) => (VInt i, VText name)
  | None => (VNull, VNull)
  end.

Definition company_values (company : option (Z * string * option string))
  : value * value * value :=
  match company with
  | Some (i, name, Some description) => (VInt i, VText name, VText description)
  | Some (i, name, None) => (VInt i, VText name, VNull)
  | None => (VNull, VNull, VNull)
  end.

(** The members of a list of options that are there. *)
Fixpoint present {A : Type} (l : list (option A)) : list A :=
  match l with
  | [] => []
  | Some a :: rest => a :: present rest
  | None :: rest => present rest
  end.

(** Every row of table [t] in [d] has a row of its id in [d'], and one
    without a deletion mark if it had none. *)
Definition ids_kept (t : string) (d d' : database) : Prop :=
  forall r, In r (tbl d t) ->
            exists r', In r' (tbl d' t) /\ col r' "id" = col r "id"
                       /\ (live r = true -> live r' = true).

(** What an outbox row is for: its table, record id and operation. *)
Definition entry_of (c : change) : string * string * operation :=
  (sq_table_name c, sq_record_id c, sq_operation c).

(** [gone] lists, in some order, the ids among [old] that are not among
    those [given]: the assignments an updateUser takes away.  The order is
    the one in which the engine answered the query for the current ids. *)
Definition taken_away (given : list Z) (old gone : list value) : Prop :=
  Permutation gone (List.filter (fun o => negb (includes (map VInt given) o)) old).

(** The outbox rows of one updateUser, in the order they are written: an
    INSERT for each given assignment that was not there, the UPDATE of the
    user when a property changed, and a DELETE for each assignment of
    [goneRoles], then of [goneCompanies]. *)
Definition updateUser_entries (id : Z) (oldRoles oldCompanies : list value)
    (roleIds companyIds : list Z) (changed : bool) (goneRoles goneCompanies : list value)
  : list (string * string * operation) :=
  (map (fun roleId => ("user_roles", (Text.of_Z id ++ "," ++ Text.of_Z roleId)%string, INSERT))
     (List.filter (fun roleId => negb (includes oldRoles (VInt roleId))) roleIds)
   ++ map (fun companyId =>
             ("user_companies", (Text.of_Z id ++ "," ++ Text.of_Z companyId)%string, INSERT))
        (List.filter (fun companyId => negb (includes oldCompanies (VInt companyId)))
           companyIds)
   ++ (if changed then [("users", Text.of_Z id, UPDATE)] else [])
   ++ map (fun old => ("user_roles", (Text.of_Z id ++ "," ++ template old)%string, DELETE))
        goneRoles
   ++ map (fun old => ("user_companies", (Text.of_Z id ++ "," ++ template old)%string, DELETE))
        goneCompanies)%list.

(** A property of the user differs from the stored row [current], or a
    password is given: the tests that fill [syncData] in updateUser. *)
Definition user_changed (current : row) (username : string) (password : option string)
    (isAdmin active : bool) : bool :=
  (negb (bool_decide (VText username = col current "username"))
   || match given_text password with Some _ => true | None => false end
   || negb (Bool.eqb isAdmin (truthy (col current "is_admin")))
   || negb (Bool.eqb active (truthy (col current "active"))))%bool.

(** ** Further sample data *)

(** An outbox of two rows, the first at the retry cap, with the counter at
    the last id handed out. *)
Definition capped_outbox : database :=
  mkDatabase ∅ ∅ [queued 1 3 0; queued 2 0 10] 2.

(** User 4 of company 7 holds role 1 and has one open visit; role 3 is
    there to be given. *)
Definition staffed_device : world :=
  device (store_rows "visits" [visit_row 1 4 7 VNull VNull]
            (store_rows "user_roles" [{[ "user_id" := VInt 4; "role_id" := VInt 1 ]}]
               (store_rows "roles" [{[ "id" := VInt 1; "name" := VText "usuario" ]};
                                    {[ "id" := VInt 3; "name" := VText "controlador" ]}]
                  (store_rows "companies" [{[ "id" := VInt 7; "name" := VText "AWS" ]}]
                     (store_rows "users" [local_user 4 "ana" 0 VNull] empty_database)))))
    1000.


(** A device holding form 5, which the remote lists as deleted, beside the
    live form 6. *)
Definition form_deleted_remotely : world :=
  with_remote {[ "forms" := [form_row 5 "old" (VText "2025-02-10T08:00:00+00:00");
                             form_row 6 "new" VNull] ]}
    (device (store_rows "forms" [form_row 5 "old" VNull] empty_database) 100).


(** * Properties *)

(** ** Text: splitting and the decimal round trip *)

Lemma split_on_no_sep (sep : ascii) (a : string) :
  Text.mem_char sep a = false -> Text.split_on sep a = [a].
Proof.
  induction a as [|c a IH]; simpl; [reflexivity|].
  intros H. apply orb_false_iff in H as [Hc Ha].
  rewrite Hc, (IH Ha). reflexivity.
Qed.

Lemma split_on_app (sep : ascii) (a b : string) :
  Text.mem_char sep a = false ->
  Text.split_on sep (a ++ String sep b) = a :: Text.split_on sep b.
Proof.
  induction a as [|c a IH]; simpl.
  - intros _. rewrite Ascii.eqb_refl. reflexivity.
  - intros H. apply orb_false_iff in H as [Hc Ha].
    rewrite Hc, (IH Ha). reflexivity.
Qed.

Lemma uint_digits_no_comma (d : uint) :
  Text.mem_char "," (NilEmpty.string_of_uint d) = false.
Proof. induction d; simpl; auto. Qed.

Lemma of_Z_no_comma (n : Z) : Text.mem_char "," (Text.of_Z n) = false.
Proof.
  unfold Text.of_Z, NilZero.string_of_int, NilZero.string_of_uint.
  destruct (Z.to_int n) as [d|d]; destruct d; simpl;
    try reflexivity; apply uint_digits_no_comma.
Qed.

(** [Number(String(n)) === n] *)
Lemma Number_of_Z (n : Z) : Number (Text.of_Z n) = NumInt n.
Proof.
  unfold Number, Text.of_Z.
  rewrite NilZero.isi.
  - now rewrite DecimalZ.of_to.
  - destruct n; simpl; try discriminate.
    intros [= H]. now apply DecimalPos.Unsigned.to_uint_nonnil in H.
  - destruct n; simpl; try discriminate.
    intros [= H]. now apply DecimalPos.Unsigned.to_uint_nonnil in H.
Qed.

(** The composite identity ["k1,k2"] decomposes to its two keys. *)
Lemma split_ids_pair (k1 k2 : Z) :
  split_ids (Text.of_Z k1 ++ "," ++ Text.of_Z k2)
  = (Num (NumInt k1), Num (NumInt k2)).
Proof.
  unfold split_ids.
  change ("," ++ Text.of_Z k2) with (String "," (Text.of_Z k2)).
  rewrite split_on_app by apply of_Z_no_comma.
  rewrite split_on_no_sep by apply of_Z_no_comma.
  simpl. now rewrite !Number_of_Z.
Qed.

(** ** Upload dispatch of junction deletions *)

(** For user_roles and user_companies the deletion is filtered on the
    table's own two key columns. *)
Lemma user_junction_delete_request (t iso : string) (k1 k2 i at_time : Z) (payload : row) :
  t = "user_roles" \/ t = "user_companies" ->
  request_of iso (junction_delete t k1 k2 i payload at_time)
  = DeleteEq t [(fst (key_columns t), Num (NumInt k1));
                (snd (key_columns t), Num (NumInt k2))].
Proof.
  intros [-> | ->]; unfold request_of, junction_delete; cbn [sq_table_name sq_operation sq_record_id];
    rewrite split_ids_pair; reflexivity.
Qed.

(** C4 (code as written): the deletion of a form_companies row ["k1,k2"] is
    filtered on [user_id = k1], a column that is not a key of
    form_companies, instead of [form_id = k1]. *)
Theorem form_companies_delete_filters_user_id (iso : string) (k1 k2 i at_time : Z) (payload : row) :
  request_of iso (junction_delete "form_companies" k1 k2 i payload at_time)
  = DeleteEq "form_companies" [("user_id", Num (NumInt k1)); ("company_id", Num (NumInt k2))]
  /\ key_columns "form_companies" = ("form_id", "company_id").
Proof.
  split; [|reflexivity].
  unfold request_of, junction_delete; cbn [sq_table_name sq_operation sq_record_id].
  rewrite split_ids_pair. reflexivity.
Qed.


(** ** The drain of the outbox *)

Section OrderBy.

Context {A : Type} (key : A -> Z).

Let le (a b : A) : bool := key a <=? key b.

Lemma insert_sorted_perm (x : A) (l : list A) :
  Permutation (insert_sorted le x l) (x :: l).
Proof.
  induction l as [|y l IH]; simpl; [reflexivity|].
  destruct (le x y); [reflexivity|].
  rewrite IH. apply perm_swap.
Qed.

Lemma order_by_perm (l : list A) : Permutation (order_by le l) l.
Proof.
  induction l as [|x l IH]; simpl; [reflexivity|].
  rewrite insert_sorted_perm. now constructor.
Qed.







End OrderBy.

Lemma update_by_id_keeps (i : Z) (f : change -> change) (q : list change) :
  (forall c, sq_id (f c) = sq_id c) ->
  same_rows_except i q (map (fun c => if sq_id c =? i then f c else c) q).
Proof.
  intros Hf c Hc. rewrite in_map_iff. split.
  - intros (c0 & Heq & Hin). destruct (Z.eqb_spec (sq_id c0) i) as [Hi|Hi].
    + exfalso. apply Hc. rewrite <- Heq, Hf. exact Hi.
    + now subst.
  - intros Hin. exists c. split; [|exact Hin].
    destruct (Z.eqb_spec (sq_id c) i); [contradiction|reflexivity].
Qed.

Ltac run_async :=
  unfold process_change, try_catch, bind, new_Date_toISOString, gets, send, throw,
    runAsync, AsyncStorage_setItem, modify, mark_synced, mark_failed, update_queue,
    getAllAsync, ret in *; cbn in *.

Section Upload.

Variable E : env.

(** One turn of the upload loop issues exactly one request, the one
    [request_of] computes, and rewrites at most the row it was given. *)
Lemma process_change_effect (c : change) (w : world) :
  let w' := snd (process_change E c w) in
  sent w' = (sent w ++ [request_of (toISOString E (now w)) c])%list
  /\ now w' = now w
  /\ tables (db w') = tables (db w)
  /\ transaction w' = transaction w
  /\ same_rows_except (sq_id c) (sync_queue (db w)) (sync_queue (db w')).
Proof.
  run_async.
  destruct (request_error E (requests w)) as [e|]; cbn;
    repeat match goal with
           | |- context [statement_fails E ?n] => destruct (statement_fails E n); cbn
           end;
    (split; [|split; [|split; [|split]]]); try reflexivity;
    first [ apply update_by_id_keeps; reflexivity | intros c0 _; reflexivity ].
Qed.

Lemma for_of_process_change (l : list change) (w : world) :
  let '(r, w') := for_of l (process_change E) w in
  (exists n, (n <= length l)%nat
     /\ (r = Return tt -> n = length l)
     /\ sent w' = (sent w ++ map (request_of (toISOString E (now w))) (firstn n l))%list)
  /\ now w' = now w
  /\ tables (db w') = tables (db w)
  /\ transaction w' = transaction w
  /\ (forall c0, ~ In (sq_id c0) (map sq_id l) ->
        (In c0 (sync_queue (db w')) <-> In c0 (sync_queue (db w)))).
Proof.
  revert w. induction l as [|c l IH]; intros w.
  - cbn. split; [|tauto].
    exists 0%nat. cbn. rewrite app_nil_r. auto.
  - cbn [for_of]. unfold bind at 1.
    pose proof (process_change_effect c w) as (Hs & Hn & Ht & Hx & Hq).
    destruct (process_change E c w) as [[[]|e] w1] eqn:Hc; cbn [snd] in *.
    + specialize (IH w1). destruct (for_of l (process_change E) w1) as [r w2].
      destruct IH as ((n & Hle & Hr & Hs2) & Hn2 & Ht2 & Hx2 & Hq2).
      split; [|split; [|split; [|split]]]; try congruence.
      * exists (S n). split; [cbn; lia|]. split; [intros H; cbn; f_equal; auto|].
        rewrite Hs2, Hs, Hn. cbn. now rewrite <- app_assoc.
      * intros c0 Hc0. cbn in Hc0.
        rewrite Hq2 by tauto. apply Hq. intros Heq. apply Hc0. now left.
    + split; [|split; [|split; [|split]]]; try congruence.
      * exists 1%nat. split; [cbn; lia|]. split; [discriminate|].
        cbn. rewrite firstn_O. exact Hs.
      * intros c0 Hc0. cbn in Hc0. apply Hq. intros Heq. apply Hc0. now left.
Qed.

End Upload.

Lemma processSyncQueue_skips (E : env) (w : world) :
  drain_guard E w = false -> processSyncQueue E w = (Return tt, w).
Proof.
  unfold drain_guard, processSyncQueue, bind, gets, isOnline, ret.
  destruct (web E); cbn; [now destruct (syncInProgress w)|].
  destruct (syncInProgress w); cbn; [reflexivity|].
  destruct (online w); cbn; [|reflexivity].
  destruct (globalTransaction w); cbn; [reflexivity|discriminate].
Qed.

Lemma processSyncQueue_runs (E : env) (w : world) :
  drain_guard E w = true ->
  processSyncQueue E w =
  try_finally
    (pending <- getAllAsync pendingChanges ;;
     for_of pending (process_change E) ;;
     at_time <- gets now ;;
     runAsync E (purge_old at_time))
    (modify (fun w => with_flags false (globalTransaction w) w))
    (with_flags true false w).
Proof.
  unfold drain_guard, processSyncQueue, bind, gets, isOnline, ret, modify.
  destruct (web E); cbn; [discriminate|].
  destruct (syncInProgress w); cbn; [discriminate|].
  destruct (online w); cbn; [|discriminate].
  destruct (globalTransaction w) eqn:Hgt; cbn; [discriminate|].
  intros _. now rewrite Hgt.
Qed.

(** What a run of the drain leaves behind: the requests of a prefix of the
    pending rows, in their order, and a queue in which every row outside
    the pending ones is either as it was or purged. *)
Lemma processSyncQueue_effect (E : env) (w : world) :
  drain_guard E w = true ->
  let pending := pendingChanges (db w) in
  let '(r, w') := processSyncQueue E w in
  (exists n, (n <= length pending)%nat
     /\ (r = Return tt -> n = length pending)
     /\ sent w' = (sent w ++ map (request_of (toISOString E (now w))) (firstn n pending))%list)
  /\ (forall c0, ~ In (sq_id c0) (map sq_id pending) ->
        (In c0 (sync_queue (db w')) -> In c0 (sync_queue (db w)))
        /\ (In c0 (sync_queue (db w)) -> purgeable (now w) c0 = false ->
            In c0 (sync_queue (db w')))
        /\ (r = Return tt -> In c0 (sync_queue (db w')) -> purgeable (now w) c0 = false)).
Proof.
  intros Hg pending. rewrite (processSyncQueue_runs E w Hg).
  unfold try_finally, bind at 1, getAllAsync, gets at 1. cbn [db with_flags].
  fold pending.
  set (w0 := with_flags true false w).
  pose proof (for_of_process_change E pending w0) as H.
  unfold bind at 1.
  destruct (for_of pending (process_change E) w0) as [[[]|e] w1].
  - destruct H as ((n & Hle & Hr & Hs) & Hn & Ht & Hx & Hq).
    unfold bind, gets, runAsync, purge_old, modify. cbn.
    destruct (statement_fails E (statements w1)); cbn.
    + split; [exists n; split; [exact Hle|split; [discriminate|exact Hs]]|].
      intros c0 Hc0. specialize (Hq c0 Hc0). cbn in Hq.
      split; [tauto|]. split; [tauto|discriminate].
    + split; [exists n; split; [exact Hle|split; [auto|exact Hs]]|].
      intros c0 Hc0. specialize (Hq c0 Hc0). cbn in Hq, Hn.
      rewrite filter_In, Hn, negb_true_iff. tauto.
  - destruct H as ((n & Hle & Hr & Hs) & Hn & Ht & Hx & Hq).
    unfold modify. cbn.
    split; [exists n; split; [exact Hle|split; [discriminate|exact Hs]]|].
    intros c0 Hc0. specialize (Hq c0 Hc0). cbn in Hq.
    split; [tauto|]. split; [tauto|discriminate].
Qed.

Lemma pendingChanges_perm (d : database) :
  Permutation (pendingChanges d) (List.filter is_pending (sync_queue d)).
Proof. apply (order_by_perm sq_created_at). Qed.

Lemma pendingChanges_In (d : database) (c : change) :
  In c (pendingChanges d) <->
  In c (sync_queue d) /\ sq_synced c = false /\ sq_retry_count c < 3.
Proof.
  pose proof (pendingChanges_perm d) as Hperm. split.
  - intros Hc. apply (Permutation_in _ Hperm) in Hc.
    apply filter_In in Hc as [Hin Hp]. unfold is_pending in Hp.
    apply andb_true_iff in Hp as [Hs Hr].
    apply negb_true_iff in Hs. apply Z.ltb_lt in Hr. auto.
  - intros (Hin & Hs & Hr). apply (Permutation_in _ (Permutation_sym Hperm)).
    apply filter_In. split; [exact Hin|].
    unfold is_pending. rewrite Hs. cbn. now apply Z.ltb_lt.
Qed.



(** ** Retry cap and quarantine *)

Lemma NoDup_ids_inj (q : list change) (c c' : change) :
  List.NoDup (map sq_id q) -> In c q -> In c' q -> sq_id c = sq_id c' -> c = c'.
Proof.
  induction q as [|x q IH]; cbn; [tauto|].
  intros Hnd Hc Hc' Heq. apply List.NoDup_cons_iff in Hnd as [Hx Hnd].
  destruct Hc as [->|Hc], Hc' as [->|Hc']; auto.
  - exfalso. apply Hx. rewrite Heq. now apply in_map.
  - exfalso. apply Hx. rewrite <- Heq. now apply in_map.
Qed.

(** A failed attempt adds exactly one to the row's retry_count. *)
Lemma failed_attempt_counts (E : env) (c : change) (w : world) (e : string) :
  request_error E (requests w) = Some e ->
  statement_fails E (statements w) = false ->
  sync_queue (db (snd (process_change E c w)))
  = map (fun c0 => if sq_id c0 =? sq_id c
                   then mkChange (sq_id c0) (sq_table_name c0) (sq_record_id c0)
                          (sq_operation c0) (sq_data c0) (sq_synced c0)
                          (sq_retry_count c0 + 1) (Some (error_message e))
                          (sq_created_at c0)
                   else c0) (sync_queue (db w)).
Proof.
  intros He Hs. run_async. rewrite He. cbn. rewrite Hs. reflexivity.
Qed.



(** ** What a pass of the upload makes of each pending row *)

Section Settling.

Variable E : env.
Hypothesis store_accepts : forall n, statement_fails E n = false.

Lemma settled_id (answer : option string) (c : change) :
  sq_id (settled answer c) = sq_id c.
Proof. now destruct answer. Qed.

Lemma process_change_settles (c : change) (w : world) :
  fst (process_change E c w) = Return tt
  /\ requests (snd (process_change E c w)) = S (requests w)
  /\ sync_queue (db (snd (process_change E c w)))
     = map (fun y => if sq_id y =? sq_id c
                     then settled (request_error E (requests w)) y else y)
         (sync_queue (db w)).
Proof.
  run_async. destruct (request_error E (requests w)) as [e|]; cbn;
    rewrite !store_accepts; cbn; auto.
Qed.

Lemma settled_rows (c : change) (answer : option string) (q : list change) (x : change) :
  sq_id x = sq_id c ->
  In x (map (fun y => if sq_id y =? sq_id c then settled answer y else y) q)
  <-> exists y, In y q /\ sq_id y = sq_id c /\ x = settled answer y.
Proof.
  intros Hx. rewrite in_map_iff. split.
  - intros (y & Hy & Hin). exists y.
    destruct (Z.eqb_spec (sq_id y) (sq_id c)) as [Hi|Hi]; [auto|].
    subst x. contradiction.
  - intros (y & Hin & Hi & ->). exists y.
    rewrite (proj2 (Z.eqb_eq _ _) Hi). auto.
Qed.

Lemma loop_settles (l : list change) (w : world) :
  List.NoDup (map sq_id l) ->
  fst (for_of l (process_change E) w) = Return tt
  /\ forall k c, nth_error l k = Some c ->
       forall x, sq_id x = sq_id c ->
         In x (sync_queue (db (snd (for_of l (process_change E) w))))
         <-> exists y, In y (sync_queue (db w)) /\ sq_id y = sq_id c
                       /\ x = settled (request_error E (requests w + k)%nat) y.
Proof.
  revert w. induction l as [|c0 l IH]; intros w Hnd.
  - split; [reflexivity|]. intros [|k] c; discriminate.
  - cbn [map] in Hnd. apply List.NoDup_cons_iff in Hnd as [Hc0 Hnd].
    cbn [for_of]. unfold bind at 1 2.
    pose proof (process_change_settles c0 w) as (Hr & Hn & Hq).
    pose proof (process_change_effect E c0 w) as (_ & _ & _ & _ & Hx).
    cbn zeta in Hx.
    destruct (process_change E c0 w) as [[[]|e] w1]; cbn [fst snd] in *;
      [|discriminate].
    specialize (IH w1 Hnd) as [IHr IH].
    pose proof (for_of_process_change E l w1) as Hloop.
    destruct (for_of l (process_change E) w1) as [r w2]; cbn [fst snd] in *.
    split; [exact IHr|].
    intros [|k] c Hk x Hi.
    + cbn in Hk. injection Hk as ->.
      destruct Hloop as (_ & _ & _ & _ & Hrest).
      rewrite (Hrest x) by (rewrite Hi; exact Hc0).
      rewrite Hq, Nat.add_0_r. now apply settled_rows.
    + cbn in Hk. rewrite (IH k c Hk x Hi), Hn.
      replace (requests w + S k)%nat with (S (requests w) + k)%nat by lia.
      assert (sq_id c <> sq_id c0) as Hne.
      { intros Heq. apply Hc0. rewrite <- Heq. apply in_map.
        eapply nth_error_In, Hk. }
      split; intros (y & Hy & Hyi & ->); exists y; (split; [|auto]);
        apply (Hx y); congruence.
Qed.

End Settling.

Lemma NoDup_filter_ids (p : change -> bool) (q : list change) :
  List.NoDup (map sq_id q) -> List.NoDup (map sq_id (List.filter p q)).
Proof.
  intros Hnd. induction q as [|c q IH]; cbn in *; [constructor|].
  apply List.NoDup_cons_iff in Hnd as [Hc Hnd].
  destruct (p c); cbn; [|auto].
  constructor; [|auto]. intros Hin. apply Hc.
  apply in_map_iff in Hin as (y & Hy & Hin). apply filter_In in Hin as [Hin _].
  rewrite <- Hy. now apply in_map.
Qed.

Lemma NoDup_pending_ids (d : database) :
  List.NoDup (map sq_id (sync_queue d)) -> List.NoDup (map sq_id (pendingChanges d)).
Proof.
  intros Hnd.
  apply (Permutation_NoDup (l := map sq_id (List.filter is_pending (sync_queue d)))).
  - apply Permutation_map, Permutation_sym, pendingChanges_perm.
  - now apply NoDup_filter_ids.
Qed.

(** While the store refuses no statement, a pass that passes its guards
    returns, sends the request of every pending row, and settles each row
    by the answer to its own request. *)
Lemma pass_settles (E : env) (w : world) :
  drain_guard E w = true ->
  (forall n, statement_fails E n = false) ->
  List.NoDup (map sq_id (sync_queue (db w))) ->
  let after := snd (processSyncQueue E w) in
  fst (processSyncQueue E w) = Return tt
  /\ sent after
     = (sent w ++ map (request_of (toISOString E (now w))) (pendingChanges (db w)))%list
  /\ forall k c, nth_error (pendingChanges (db w)) k = Some c ->
       let c' := settled (request_error E (requests w + k)%nat) c in
       (forall x, In x (sync_queue (db after)) -> sq_id x = sq_id c -> x = c')
       /\ (purgeable (now w) c' = false -> In c' (sync_queue (db after))).
Proof.
  intros Hg Hs Hnd after.
  pose proof (processSyncQueue_effect E w Hg) as Heff. cbn zeta in Heff.
  subst after. revert Heff.
  rewrite (processSyncQueue_runs E w Hg).
  set (w0 := with_flags true false w).
  pose proof (loop_settles E Hs (pendingChanges (db w)) w0 (NoDup_pending_ids _ Hnd))
    as [Hr Hrows].
  pose proof (for_of_process_change E (pendingChanges (db w)) w0) as Hloop.
  unfold try_finally, bind, getAllAsync, gets, runAsync, purge_old, modify.
  change (db w0) with (db w) in *.
  destruct (for_of (pendingChanges (db w)) (process_change E) w0) as [[[]|e] w1];
    cbn [fst snd] in *; [|discriminate].
  destruct Hloop as (_ & Hn & _).
  rewrite Hs. cbn [fst snd db with_db with_flags count_statement sync_queue store_queue].
  intros ((n & _ & Hlen & Hsent) & _).
  split; [reflexivity|]. split.
  - rewrite Hsent, (Hlen eq_refl), firstn_all. reflexivity.
  - intros k c Hk.
    assert (In c (sync_queue (db w))) as Hc.
    { apply nth_error_In in Hk. apply pendingChanges_In in Hk. tauto. }
    cbn in Hn. split.
    + intros x Hx Hi. apply filter_In in Hx as [Hx _].
      apply (Hrows k c Hk x Hi) in Hx as (y & Hy & Hyi & ->). cbn in Hy.
      now rewrite (NoDup_ids_inj _ y c Hnd Hy Hc Hyi).
    + intros Hp. apply filter_In. rewrite Hn, Hp. split; [|reflexivity].
      apply (Hrows k c Hk); [apply settled_id|]. exists c. cbn. auto.
Qed.

(** ** The ids of the outbox across a pass *)




(** ** Three failed attempts *)






(** ** Download: transaction, frame and contents *)

Section Download.

Variable E : env.

Lemma ambient_refl (w : world) : ambient w w.
Proof. repeat split. Qed.

Lemma ambient_trans (w1 w2 w3 : world) : ambient w1 w2 -> ambient w2 w3 -> ambient w1 w3.
Proof. unfold ambient. intros (-> & -> & ->) (-> & -> & ->). auto. Qed.

Lemma clean_between_refl (w : world) : clean_between E w w.
Proof. split; intros j Hj; lia. Qed.

Lemma clean_between_trans (w1 w2 w3 : world) :
  (statements w1 <= statements w2)%nat -> (requests w1 <= requests w2)%nat ->
  clean_between E w1 w2 -> clean_between E w2 w3 -> clean_between E w1 w3.
Proof.
  intros Hs Hr [A1 B1] [A2 B2]. split; intros j Hj.
  - destruct (Nat.lt_ge_cases j (statements w2)); [apply A1|apply A2]; lia.
  - destruct (Nat.lt_ge_cases j (requests w2)); [apply B1|apply B2]; lia.
Qed.

Lemma runAsync_effect {A : Type} (f : database -> outcome A * database) (w : world) :
  let '(r, w') := runAsync E f w in
  ambient w w'
  /\ statements w' = S (statements w) /\ requests w' = requests w
  /\ match r with
     | Return a => statement_fails E (statements w) = false /\ f (db w) = (Return a, db w')
     | Throw _ => db w' = db w
     end.
Proof.
  unfold runAsync, ambient.
  destruct (statement_fails E (statements w)); cbn; [auto 10|].
  destruct (f (db w)) as [[a|e] d']; cbn; auto 10.
Qed.


Lemma tables_store_rows_ne (t t' : string) (rows : list row) (d : database) :
  t' <> t -> tables (store_rows t rows d) !! t' = tables d !! t'.
Proof. intros H. cbn. now rewrite lookup_insert_ne. Qed.

Lemma tbl_store_rows (t : string) (rows : list row) (d : database) :
  tbl (store_rows t rows d) t = rows.
Proof. unfold tbl. cbn. now rewrite lookup_insert_eq. Qed.

Lemma tables_bump_sequence (t : string) (r : row) (d : database) :
  tables (bump_sequence t r d) = tables d /\ sync_queue (bump_sequence t r d) = sync_queue d.
Proof. unfold bump_sequence. now destruct (junction t). Qed.

Lemma tbl_bump_sequence (t t' : string) (r : row) (d : database) :
  tbl (bump_sequence t r d) t' = tbl d t'.
Proof. unfold tbl. now rewrite (proj1 (tables_bump_sequence t r d)). Qed.

Lemma insert_or_replace_effect (ts t : string) (cols : row) (d : database) :
  let '(r, d') := insert_or_replace ts t cols d in
  (forall t', t' <> t -> tables d' !! t' = tables d !! t')
  /\ sync_queue d' = sync_queue d
  /\ (forall a, r = Return a ->
        tbl d' t = upsert_rows t (tbl d t) (complete ts t cols d)).
Proof.
  unfold insert_or_replace. case_bool_decide; cbn.
  - repeat split; auto. discriminate.
  - repeat split.
    + intros t' Ht. rewrite lookup_insert_ne by congruence.
      now rewrite (proj1 (tables_bump_sequence _ _ _)).
    + apply tables_bump_sequence.
    + intros _ _. unfold tbl at 1. cbn. rewrite lookup_insert_eq. cbn.
      reflexivity.
Qed.

Lemma sent_columns_col (r : row) (c : string) :
  col (sent_columns r) c = bind_param (col r c).
Proof.
  unfold col, sent_columns. rewrite lookup_omap.
  destruct (r !! c) as [v|]; cbn; [|reflexivity].
  now destruct v.
Qed.

(** A stored record agrees with the remote one on every column the remote
    one has a value for. *)
Lemma image_col (at_time : Z) (t : string) (r : row) (c : string) :
  is_null (col r c) = false -> col (image E at_time t r) c = bind_param (col r c).
Proof.
  intros H. rewrite <- sent_columns_col.
  assert (Hs : is_null (col (sent_columns r) c) = false).
  { rewrite sent_columns_col. now destruct (col r c). }
  unfold col in *. unfold image. rewrite lookup_union.
  destruct (sent_columns r !! c) as [v|]; [|discriminate].
  now destruct (defaults _ t !! c).
Qed.

Lemma complete_has_id (ts t : string) (r : row) (d : database) :
  has_id r -> complete ts t (sent_columns r) d = sent_columns r ∪ defaults ts t.
Proof.
  unfold has_id, complete. intros H.
  assert (Hs : is_null (col (sent_columns r ∪ defaults ts t) "id") = false).
  { assert (Hc := sent_columns_col r "id"). unfold col in *.
    rewrite lookup_union.
    destruct (sent_columns r !! "id") as [v|]; cbn in *.
    - destruct (defaults ts t !! "id"); cbn; rewrite Hc; now destruct (default VNull (r !! "id")).
    - exfalso. destruct (default VNull (r !! "id")); cbn in *; discriminate. }
  rewrite Hs. now rewrite andb_false_r.
Qed.

Lemma records_loop (name : string) (data : list row) (w : world) :
  let '(r, w') := for_of data (download_record E name) w in
  ambient w w'
  /\ requests w' = requests w /\ (statements w <= statements w')%nat
  /\ (forall t, t <> name -> tables (db w') !! t = tables (db w) !! t)
  /\ sync_queue (db w') = sync_queue (db w)
  /\ (r = Return tt ->
      clean_between E w w'
      /\ (Forall has_id data ->
          tbl (db w') name
          = fold_left (upsert_rows name) (map (image E (now w) name) data)
              (tbl (db w) name))).
Proof.
  revert w. induction data as [|record data IH]; intros w.
  - cbn. repeat split; auto using ambient_refl; try (intros j Hj; lia).
  - cbn [for_of]. unfold bind at 1, download_record at 1, bind at 1, CURRENT_TIMESTAMP, gets.
    unfold bind at 1.
    pose proof (runAsync_effect
                  (insert_or_replace (current_timestamp E (now w)) name (sent_columns record)) w)
      as Hrun.
    destruct (runAsync E _ w) as [[a|e] w1]; cbn [ret].
    + destruct Hrun as (Ha & Hst & Hrq & Hok & Hins).
      pose proof (insert_or_replace_effect (current_timestamp E (now w)) name
                    (sent_columns record) (db w)) as Hio.
      rewrite Hins in Hio. destruct Hio as (Hfr & Hq & Hcont).
      specialize (IH w1). destruct (for_of data (download_record E name) w1) as [r w2].
      destruct IH as (Ha2 & Hrq2 & Hst2 & Hfr2 & Hq2 & Hret).
      split; [eapply ambient_trans; eauto|].
      split; [congruence|]. split; [lia|].
      split; [intros t Ht; rewrite Hfr2, Hfr; auto|].
      split; [congruence|].
      intros Hr. destruct (Hret Hr) as (Hcl & Htbl). split.
      * eapply clean_between_trans; [| |split|exact Hcl]; try lia.
        intros j Hj. replace j with (statements w) by lia. exact Hok.
      * intros Hall. inversion Hall as [|? ? Hid Hall']; subst.
        rewrite (Htbl Hall'). cbn [map fold_left].
        destruct Ha as (_ & _ & Hnow). rewrite Hnow.
        rewrite (Hcont a eq_refl). rewrite complete_has_id by exact Hid. reflexivity.
    + destruct Hrun as (Ha & Hst & Hrq & Hdb).
      split; [exact Ha|]. split; [exact Hrq|]. split; [lia|].
      rewrite Hdb. repeat split; auto; discriminate.
Qed.


Lemma filter_none {A : Type} (l : list A) : List.filter (fun _ => false) l = [].
Proof. induction l; auto. Qed.

Lemma download_table_effect (name : string) (clear : bool) (w : world) :
  let '(r, w') := download_table E (name, clear) w in
  ambient w w'
  /\ requests w' = S (requests w) /\ (statements w <= statements w')%nat
  /\ (forall t, t <> name -> tables (db w') !! t = tables (db w) !! t)
  /\ sync_queue (db w') = sync_queue (db w)
  /\ (r = Return tt ->
      clean_between E w w'
      /\ table_result E w name clear (tbl (db w) name) (tbl (db w') name)).
Proof.
  unfold download_table, bind at 1, select_active, table_result.
  destruct (request_error E (requests w)) as [e|] eqn:Hreq; cbn.
  { unfold ambient. cbn. repeat split; auto; discriminate. }
  remember (record_request (SelectActive name) w) as w0 eqn:Hw0.
  assert (H0 : ambient w w0 /\ requests w0 = S (requests w) /\ statements w0 = statements w
               /\ db w0 = db w) by (rewrite Hw0; unfold ambient; cbn; auto).
  clear Hw0.
  destruct H0 as (Ha0 & Hr0 & Hs0 & Hd0).
  assert (Hcl0 : clean_between E w w0).
  { split; intros j Hj; [lia|]. replace j with (requests w) by lia. exact Hreq. }
  destruct (active_rows (remote w) name) as [|record rest] eqn:Hact.
  { cbn. rewrite Hd0. repeat split; auto; try apply Ha0; try lia;
      try apply Hcl0. intros H1. now destruct H1. }
  unfold bind at 1.
  destruct clear.
  - pose proof (runAsync_effect (delete_where name (fun _ => true)) w0) as Hrun.
    destruct (runAsync E (delete_where name (fun _ => true)) w0) as [[[]|e] w1].
    + destruct Hrun as (Ha1 & Hs1 & Hr1 & Hok & Hdel).
      unfold delete_where in Hdel. injection Hdel as Hdel.
      pose proof (records_loop name (record :: rest) w1) as Hloop.
      destruct (for_of (record :: rest) (download_record E name) w1) as [r w2].
      destruct Hloop as (Ha2 & Hr2 & Hs2 & Hfr2 & Hq2 & Hret).
      split; [eapply ambient_trans; [exact Ha0|eapply ambient_trans; eauto]|].
      split; [lia|]. split; [lia|].
      split; [intros t Ht; rewrite Hfr2, <- Hdel by exact Ht;
              rewrite tables_store_rows_ne, Hd0 by exact Ht; reflexivity|].
      split; [rewrite Hq2, <- Hdel, Hd0; reflexivity|].
      intros Hr. destruct (Hret Hr) as (Hcl2 & Htbl). split.
      * eapply clean_between_trans; [| |exact Hcl0|]; try lia.
        eapply clean_between_trans; [| | |exact Hcl2]; try lia.
        split; intros j Hj; [|lia]. replace j with (statements w0) by lia. exact Hok.
      * split; [discriminate|]. intros _ Hall.
        rewrite (Htbl Hall), <- Hdel, tbl_store_rows, filter_none.
        destruct Ha1 as (_ & _ & ->). destruct Ha0 as (_ & _ & ->). reflexivity.
    + destruct Hrun as (Ha1 & Hs1 & Hr1 & Hdb).
      split; [eapply ambient_trans; eauto|].
      split; [lia|]. split; [lia|]. rewrite Hdb, Hd0.
      repeat split; auto; discriminate.
  - cbn [ret].
    pose proof (records_loop name (record :: rest) w0) as Hloop.
    destruct (for_of (record :: rest) (download_record E name) w0) as [r w2].
    destruct Hloop as (Ha2 & Hr2 & Hs2 & Hfr2 & Hq2 & Hret).
    split; [eapply ambient_trans; eauto|].
    split; [lia|]. split; [lia|].
    split; [intros t Ht; rewrite Hfr2, Hd0 by exact Ht; reflexivity|].
    split; [rewrite Hq2, Hd0; reflexivity|].
    intros Hr. destruct (Hret Hr) as (Hcl2 & Htbl). split.
    * eapply clean_between_trans; [| |exact Hcl0|exact Hcl2]; lia.
    * split; [discriminate|]. intros _ Hall.
      rewrite (Htbl Hall), Hd0. destruct Ha0 as (_ & _ & ->). reflexivity.
Qed.

Lemma tables_loop (ts : list (string * bool)) (w : world) :
  let '(r, w') := for_of ts (download_table E) w in
  ambient w w'
  /\ (requests w <= requests w' <= requests w + length ts)%nat
  /\ (statements w <= statements w')%nat
  /\ (forall t, ~ In t (map fst ts) -> tables (db w') !! t = tables (db w) !! t)
  /\ sync_queue (db w') = sync_queue (db w)
  /\ (r = Return tt ->
      requests w' = (requests w + length ts)%nat
      /\ clean_between E w w'
      /\ (List.NoDup (map fst ts) -> forall name clear, In (name, clear) ts ->
          table_result E w name clear (tbl (db w) name) (tbl (db w') name))).
Proof.
  revert w. induction ts as [|[name clear] ts IH]; intros w.
  - cbn. repeat split; auto using ambient_refl; try (intros j Hj; lia); try lia.
  - cbn [for_of]. unfold bind at 1.
    pose proof (download_table_effect name clear w) as Htab.
    destruct (download_table E (name, clear) w) as [[[]|e] w1].
    + destruct Htab as (Ha & Hr & Hs & Hfr & Hq & Hret).
      destruct (Hret eq_refl) as (Hcl & Hres).
      specialize (IH w1). destruct (for_of ts (download_table E) w1) as [r w2].
      destruct IH as (Ha2 & Hr2 & Hs2 & Hfr2 & Hq2 & Hret2).
      split; [eapply ambient_trans; eauto|].
      split; [cbn; lia|]. split; [lia|].
      split; [intros t Ht; cbn in Ht; rewrite Hfr2 by tauto;
              rewrite Hfr by (intros ->; tauto); reflexivity|].
      split; [congruence|].
      intros Hrr. destruct (Hret2 Hrr) as (Hreq2 & Hcl2 & Hres2).
      split; [cbn; lia|].
      split; [eapply clean_between_trans; [| |exact Hcl|exact Hcl2]; lia|].
      intros Hnd name' clear' Hin. cbn in Hnd.
      apply List.NoDup_cons_iff in Hnd as [Hnotin Hnd].
      destruct Hin as [Heq|Hin].
      * injection Heq as <- <-.
        assert (Hsame : tbl (db w2) name = tbl (db w1) name).
        { unfold tbl. now rewrite Hfr2. }
        rewrite Hsame. exact Hres.
      * assert (Hne : name' <> name).
        { intros ->. apply Hnotin. change name with (fst (name, clear')).
          now apply in_map. }
        specialize (Hres2 Hnd name' clear' Hin).
        unfold table_result in *.
        destruct Ha as (_ & Hrem & Hnow). rewrite Hrem, Hnow in Hres2.
        assert (Hsame : tbl (db w1) name' = tbl (db w) name').
        { unfold tbl. now rewrite Hfr. }
        now rewrite Hsame in Hres2.
    + destruct Htab as (Ha & Hr & Hs & Hfr & Hq & _).
      split; [exact Ha|]. split; [cbn; lia|]. split; [lia|].
      split; [intros t Ht; cbn in Ht; apply Hfr; intros ->; tauto|].
      split; [exact Hq|]. discriminate.
Qed.

End Download.

Lemma downloadUpdates_skips (E : env) (w : world) :
  download_guard E w = false -> downloadUpdates E w = (Return tt, w).
Proof.
  unfold download_guard, downloadUpdates, bind, gets, isOnline, ret.
  destruct (web E); cbn; [now destruct (syncInProgress w)|].
  destruct (syncInProgress w); cbn; [reflexivity|].
  destruct (online w); cbn; [discriminate|reflexivity].
Qed.

Lemma downloadUpdates_runs (E : env) (w : world) :
  download_guard E w = true ->
  downloadUpdates E w =
  try_finally
    (try_catch
       (BEGIN ;;
        for_of download_tables (download_table E) ;;
        COMMIT ;;
        getAllAsync (fun d => map (fun table => length (tbl d (fst table))) download_tables) ;;
        ret tt)
       (fun error =>
          try_catch ROLLBACK (fun _ => ret tt) ;;
          throw error))
    (modify (with_flags false false))
    (with_flags true true w).
Proof.
  unfold download_guard, downloadUpdates, bind at 1 2 3, gets, isOnline, ret, modify.
  destruct (web E); cbn; [discriminate|].
  destruct (syncInProgress w); cbn; [discriminate|].
  destruct (online w); cbn; [reflexivity|discriminate].
Qed.

Lemma download_tables_distinct : List.NoDup (map fst download_tables).
Proof.
  cbn. repeat constructor; cbn; intuition discriminate.
Qed.

(** The two ways a download that passed its guards can end. *)
Lemma downloadUpdates_outcome (E : env) (w : world) :
  download_guard E w = true -> transaction w = None ->
  let '(r, w') := downloadUpdates E w in
  transaction w' = None
  /\ syncInProgress w' = false /\ globalTransaction w' = false
  /\ sync_queue (db w') = sync_queue (db w)
  /\ match r with
     | Throw _ => db w' = db w
     | Return _ =>
         requests w' = (requests w + length download_tables)%nat
         /\ clean_between E w w'
         /\ (forall name clear, In (name, clear) download_tables ->
             table_result E w name clear (tbl (db w) name) (tbl (db w') name))
     end.
Proof.
  intros Hg Htx.
  rewrite (downloadUpdates_runs E w Hg).
  unfold try_finally, try_catch at 1, bind at 1, BEGIN.
  cbn [transaction with_flags]. rewrite Htx.
  remember (with_db (db (with_flags true true w)) (Some (db (with_flags true true w)))
              (with_flags true true w)) as w1 eqn:Hw1.
  assert (H1 : transaction w1 = Some (db w) /\ db w1 = db w /\ remote w1 = remote w
               /\ now w1 = now w /\ requests w1 = requests w
               /\ statements w1 = statements w) by (rewrite Hw1; cbn; auto 10).
  clear Hw1. destruct H1 as (Ht1 & Hd1 & Hrem1 & Hn1 & Hr1 & Hs1).
  pose proof (tables_loop E download_tables w1) as Hloop.
  unfold bind at 1.
  destruct (for_of download_tables (download_table E) w1) as [[[]|e] w2].
  - destruct Hloop as ((Ht2 & Hrem2 & Hn2) & Hr2 & Hs2 & Hfr2 & Hq2 & Hret).
    destruct (Hret eq_refl) as (Hreq & Hcl & Hres).
    unfold bind, COMMIT, getAllAsync, gets, ret, modify. rewrite Ht2, Ht1. cbn.
    split; [reflexivity|]. split; [reflexivity|]. split; [reflexivity|].
    split; [now rewrite Hq2, Hd1|].
    change (length download_tables) with 11%nat in *.
    split; [lia|]. split.
    + destruct Hcl as [A B]. split; intros j Hj; [apply A|apply B]; cbn in Hj; lia.
    + intros name clear Hin.
      specialize (Hres download_tables_distinct name clear Hin).
      unfold table_result in *. now rewrite Hrem1, Hn1, Hd1 in Hres.
  - destruct Hloop as ((Ht2 & Hrem2 & Hn2) & _).
    unfold bind, try_catch, ROLLBACK, throw, modify. rewrite Ht2, Ht1. cbn.
    repeat split; reflexivity.
Qed.

(** C3: a download during which the fetch of some table is answered with
    an error, or the store refuses a statement, ends by raising; the
    database (every table and the outbox) is then what it was when the
    download began, and no transaction is left open. *)
Theorem failed_download_rolls_back (E : env) (w : world) :
  download_guard E w = true -> transaction w = None ->
  (exists k, (k < length download_tables)%nat
             /\ request_error E (requests w + k)%nat <> None)
  \/ (exists j, (statements w <= j < statements (snd (downloadUpdates E w)))%nat
                /\ statement_fails E j = true) ->
  (exists message, fst (downloadUpdates E w) = Throw message)
  /\ db (snd (downloadUpdates E w)) = db w
  /\ transaction (snd (downloadUpdates E w)) = None.
Proof.
  intros Hg Htx Hfail.
  pose proof (downloadUpdates_outcome E w Hg Htx) as H.
  destruct (downloadUpdates E w) as [[[]|e] w']; cbn [fst snd] in *.
  - exfalso. destruct H as (_ & _ & _ & _ & Hreq & [A B] & _).
    destruct Hfail as [(k & Hk & Herr)|(j & Hj & Hf)].
    + apply Herr, B. lia.
    + rewrite A in Hf by exact Hj. discriminate.
  - destruct H as (Ht & _ & _ & _ & Hdb). eauto.
Qed.

Lemma failed_download_witness :
  (exists message,
     fst (downloadUpdates second_request_fails (with_remote two_remote_users stale_device))
     = Throw message)
  /\ db (snd (downloadUpdates second_request_fails (with_remote two_remote_users stale_device)))
     = db stale_device
  /\ transaction
       (snd (downloadUpdates second_request_fails (with_remote two_remote_users stale_device)))
     = None.
Proof.
  apply (failed_download_rolls_back second_request_fails
           (with_remote two_remote_users stale_device)).
  - reflexivity.
  - reflexivity.
  - left. exists 1%nat. split; [cbn; lia|]. cbn. discriminate.
Defined.

(** ** Download: what the replace tables hold afterwards *)

Lemma fold_upsert_distinct (t : string) (imgs acc : list row) :
  (forall a b, In a acc -> In b imgs -> conflicting t b a = false) ->
  ForallOrdPairs (fun a b => conflicting t b a = false) imgs ->
  fold_left (upsert_rows t) imgs acc = (acc ++ imgs)%list.
Proof.
  revert acc. induction imgs as [|b imgs IH]; intros acc Hacc Hpairs; cbn.
  - now rewrite app_nil_r.
  - inversion Hpairs as [|? ? Hb Hrest]; subst.
    assert (Hkeep : List.filter (fun r' => negb (conflicting t b r')) acc = acc).
    { clear -Hacc. induction acc as [|a acc IHa]; cbn; [reflexivity|].
      rewrite (Hacc a b) by (cbn; auto). cbn. f_equal.
      apply IHa. intros a' b' Ha' Hb'. apply Hacc; cbn; auto. }
    unfold upsert_rows at 2. rewrite Hkeep, IH.
    + now rewrite <- app_assoc.
    + intros a b' Ha Hb'. apply in_app_or in Ha as [Ha|[->|[]]].
      * apply Hacc; cbn; auto.
      * rewrite List.Forall_forall in Hb. now apply Hb.
    + exact Hrest.
Qed.

Lemma ForallOrdPairs_map {A B : Type} (f : A -> B) (R : B -> B -> Prop) (l : list A) :
  ForallOrdPairs (fun a b => R (f a) (f b)) l -> ForallOrdPairs R (map f l).
Proof.
  induction 1 as [|a l Ha Hl IH]; cbn; constructor; [|exact IH].
  rewrite List.Forall_forall in *. intros b Hb.
  apply in_map_iff in Hb as (x & <- & Hx). now apply Ha.
Qed.

(** C2 (as the code has it): after a successful download a replace table
    whose remote active set is not empty holds exactly the stored images of
    the remote active rows, in the order fetched; a replace table whose
    remote active set is empty is left as it was. *)
Theorem successful_download_replaces_nonempty_tables (E : env) (w : world) (t : string) :
  download_guard E w = true -> transaction w = None ->
  fst (downloadUpdates E w) = Return tt ->
  In t replace_tables ->
  (active_rows (remote w) t = [] ->
     tbl (db (snd (downloadUpdates E w))) t = tbl (db w) t)
  /\ (active_rows (remote w) t <> [] ->
      Forall has_id (active_rows (remote w) t) ->
      ForallOrdPairs (fun a b => conflicting t (image E (now w) t b) (image E (now w) t a) = false)
        (active_rows (remote w) t) ->
      tbl (db (snd (downloadUpdates E w))) t = map (image E (now w) t) (active_rows (remote w) t))
  /\ (forall r c, In r (active_rows (remote w) t) -> is_null (col r c) = false ->
        col (image E (now w) t r) c = bind_param (col r c)).
Proof.
  intros Hg Htx Hret Ht.
  pose proof (downloadUpdates_outcome E w Hg Htx) as H.
  destruct (downloadUpdates E w) as [r w']; cbn [fst snd] in *. subst r.
  destruct H as (_ & _ & _ & _ & _ & _ & Hres).
  assert (Hin : In (t, true) download_tables).
  { cbn in Ht. cbn. intuition (subst; auto 12). }
  destruct (Hres t true Hin) as (Hempty & Hfull).
  split; [exact Hempty|]. split.
  - intros Hne Hids Hpairs. rewrite (Hfull Hne Hids).
    rewrite fold_upsert_distinct; [reflexivity|intros a b []|].
    now apply ForallOrdPairs_map.
  - intros r c _. apply image_col.
Qed.

Lemma successful_download_witness :
  tbl (db (snd (downloadUpdates calm (with_remote two_remote_users stale_device)))) "users"
  = map (image calm 1000 "users") [user_record 1 "ana" true VNull; user_record 2 "luis" false VNull].
Proof.
  destruct (successful_download_replaces_nonempty_tables calm
              (with_remote two_remote_users stale_device) "users")
    as (_ & H & _).
  - reflexivity.
  - reflexivity.
  - vm_compute. reflexivity.
  - cbn. auto.
  - apply H.
    + vm_compute. discriminate.
    + repeat constructor.
    + repeat constructor.
Defined.

(** C2 (counterexample): the remote lists no active user, the download
    succeeds, and the local users table still holds its stale row. *)
Lemma stale_rows_survive_empty_fetch :
  fst (downloadUpdates calm stale_device) = Return tt
  /\ active_rows (remote stale_device) "users" = []
  /\ tbl (db (snd (downloadUpdates calm stale_device))) "users"
     <> map (image calm 1000 "users") (active_rows (remote stale_device) "users").
Proof.
  split; [vm_compute; reflexivity|]. split; [reflexivity|].
  vm_compute. discriminate.
Qed.


(** ** Outbox: local write and enqueue *)



Section Outbox.

Variable E : env.
Hypothesis device_platform : web E = false.












End Outbox.





(** ** Business rule: a referenced user is not deleted *)

Lemma count_live_positive (d : database) (t : string) (i : Z) :
  references_user d t i -> (0 <? count_live_of_user t i d) = true.
Proof.
  intros (r & Hin & Hu & Hl). unfold count_live_of_user.
  apply Z.ltb_lt.
  assert (H : In r (List.filter
              (fun r => (sql_eq (col r "user_id") (VInt i) && live r)%bool) (tbl d t))).
  { apply filter_In. split; [exact Hin|]. unfold live. now rewrite Hu, Hl. }
  destruct (List.filter _ (tbl d t)); [destruct H|]. cbn. lia.
Qed.

(** C9: deleteUser on a user referenced by a live visit or a live form
    response raises before any statement is issued and leaves the whole
    world, the store and its outbox included, exactly as it was. *)
Theorem deleteUser_refused_when_referenced (E : env) (w : world) (id : Z) :
  transaction w = None ->
  references_user (db w) "visits" id \/ references_user (db w) "form_responses" id ->
  deleteUser E id w =
  (Throw "Cannot delete user with associated visits or form responses. Consider deactivating the user instead.",
   w).
Proof.
  intros Htx Href.
  assert (Hc : ((0 <? count_live_of_user "visits" id (db w))
                || (0 <? count_live_of_user "form_responses" id (db w)))%bool = true).
  { destruct Href as [H|H]; apply count_live_positive in H; rewrite H;
      [reflexivity|apply orb_true_r]. }
  unfold deleteUser, try_catch, bind, BEGIN, getAllAsync, gets, throw, ROLLBACK.
  rewrite Htx. cbn. rewrite Hc. cbn.
  destruct w; cbn in *. now subst.
Qed.

Lemma deleteUser_refused_witness :
  deleteUser calm 4 visited_device =
  (Throw "Cannot delete user with associated visits or form responses. Consider deactivating the user instead.",
   visited_device).
Proof.
  apply deleteUser_refused_when_referenced.
  - reflexivity.
  - left. exists (visit_row 1 4 7 VNull VNull).
    split; [vm_compute; left; reflexivity|]. split; reflexivity.
Defined.


(** ** Reads and the deletion mark *)

Lemma insert_sorted_In {A : Type} (le : A -> A -> bool) (x y : A) (l : list A) :
  In y (insert_sorted le x l) <-> y = x \/ In y l.
Proof.
  induction l as [|z l IH]; cbn; [intuition|].
  destruct (le x z); cbn; [intuition|]. rewrite IH. intuition.
Qed.

Lemma order_by_In {A : Type} (le : A -> A -> bool) (y : A) (l : list A) :
  In y (order_by le l) <-> In y l.
Proof.
  induction l as [|x l IH]; cbn; [tauto|].
  rewrite insert_sorted_In, IH. intuition.
Qed.

Lemma left_join_In {A : Type} (l : list A) (rows : list row) (on : A -> row -> bool)
    (a : A) (o : option row) :
  In (a, o) (Sql.left_join l rows on) -> In a l.
Proof.
  unfold Sql.left_join. rewrite in_flat_map. intros (x & Hx & Hin).
  destruct (List.filter (on x) rows) as [|m ms].
  - destruct Hin as [[= <- _]|[]]. exact Hx.
  - apply in_map_iff in Hin as (m' & [= <- _] & _). exact Hx.
Qed.

Lemma inner_join_In {A : Type} (l : list A) (rows : list row) (on : A -> row -> bool)
    (a : A) (m : row) :
  In (a, m) (Sql.inner_join l rows on) -> In a l /\ In m rows.
Proof.
  unfold Sql.inner_join. rewrite in_flat_map. intros (x & Hx & Hin).
  apply in_map_iff in Hin as (m' & [= <- <-] & Hm).
  apply filter_In in Hm. tauto.
Qed.

Lemma add_to_groups_In {A : Type} (key : A -> value) (a : A) (groups : list (A * list A))
    (g : A * list A) (x : A) :
  In g (Sql.add_to_groups key a groups) -> In x (Sql.members g) ->
  x = a \/ exists g', In g' groups /\ In x (Sql.members g').
Proof.
  induction groups as [|[b bs] rest IH]; cbn.
  - intros [<-|[]]. cbn. intuition.
  - case_bool_decide.
    + intros [<-|Hg] Hx.
      * cbn in Hx. destruct Hx as [<-|Hx].
        -- right. exists (b, bs). cbn. auto.
        -- apply in_app_or in Hx as [Hx|[<-|[]]]; [|now left].
           right. exists (b, bs). cbn. auto.
      * right. exists g. auto.
    + intros [<-|Hg] Hx.
      * right. exists (b, bs). auto.
      * destruct (IH Hg Hx) as [->|(g' & Hg' & Hx')]; [now left|].
        right. exists g'. auto.
Qed.

(** Every row of a group is a row that was grouped. *)
Lemma group_by_In {A : Type} (key : A -> value) (l : list A) (g : A * list A) (x : A) :
  In g (Sql.group_by key l) -> In x (Sql.members g) -> In x l.
Proof.
  unfold Sql.group_by.
  assert (H : forall groups : list (A * list A),
             In g (fold_left (fun groups a => Sql.add_to_groups key a groups) l groups) ->
             In x (Sql.members g) ->
             In x l \/ exists g', In g' groups /\ In x (Sql.members g')).
  { induction l as [|a l IH]; cbn; intros groups Hg Hx.
    - right. exists g. auto.
    - destruct (IH _ Hg Hx) as [H|(g' & Hg' & Hx')]; [auto|].
      destruct (add_to_groups_In key a groups g' x Hg' Hx') as [->|H]; auto. }
  intros Hg Hx. destruct (H [] Hg Hx) as [H'|(g' & [] & _)]. exact H'.
Qed.

Lemma group_by_first {A : Type} (key : A -> value) (l : list A) (g : A * list A) :
  In g (Sql.group_by key l) -> In (fst g) l.
Proof. intros Hg. apply (group_by_In key l g); [exact Hg|now left]. Qed.

Lemma col_insert_ne (r : row) (k c : string) (v : value) :
  k <> c -> col (<[k := v]> r) c = col r c.
Proof. intros H. unfold col. now rewrite lookup_insert_ne. Qed.

Section Reads.

Variable d : database.

Lemma users_joined_In (j : user_join) :
  In j (users_joined d) -> In (joined_u j) (tbl d "users").
Proof.
  destruct j as [[[[u ur] r] uc] c]. unfold users_joined, joined_u. cbn.
  intros H. repeat (apply left_join_In in H). exact H.
Qed.

Lemma users_query_In (where_ : row -> bool) (user : row) :
  In user (users_query d where_) ->
  exists u, In u (tbl d "users") /\ where_ u = true
            /\ forall c, c <> "roles" -> c <> "companies" -> col user c = col u c.
Proof.
  unfold users_query. rewrite in_map_iff. intros (g & <- & Hg).
  apply group_by_first in Hg. apply filter_In in Hg as [Hj Hw].
  exists (joined_u (fst g)). split; [now apply users_joined_In|]. split; [exact Hw|].
  intros c H1 H2. unfold user_result.
  rewrite !col_insert_ne by congruence. reflexivity.
Qed.

Lemma getUsers_live (u : User) :
  In u (getUsers d) -> live_in d "users" (user_id u).
Proof.
  unfold getUsers. rewrite in_map_iff. intros (user & <- & Hin).
  apply order_by_In, users_query_In in Hin as (r & Hr & Hl & Hc).
  exists r. split; [exact Hr|]. split; [exact Hl|].
  cbn. symmetry. apply Hc; discriminate.
Qed.

Lemma getUser_live (username password : string) (u : User) :
  getUser username password d = Some u -> live_in d "users" (user_id u).
Proof.
  unfold getUser.
  destruct (users_query d _) as [|user rest] eqn:Hq; [discriminate|].
  assert (Hin : In user (users_query d
            (fun u => (sql_eq (col u "username") (VText username)
                       && sql_eq (col u "password") (VText password) && live u)%bool)))
    by (rewrite Hq; now left).
  apply users_query_In in Hin as (r & Hr & Hl & Hc).
  apply andb_true_iff in Hl as [_ Hl].
  intros H. exists r. split; [exact Hr|]. split; [exact Hl|].
  rewrite <- Hc by discriminate.
  destruct (truthy (col user "is_admin")); injection H as <-; reflexivity.
Qed.

Lemma getCompanies_live (c : row) :
  In c (getCompanies d) <-> In c (tbl d "companies") /\ live c = true.
Proof. unfold getCompanies. now rewrite order_by_In, filter_In. Qed.

Lemma getRoles_live (r : row) :
  In r (getRoles d) <-> In r (tbl d "roles") /\ live r = true.
Proof. unfold getRoles. now rewrite order_by_In, filter_In. Qed.

Lemma forms_with_fields_In (j : row * option row) :
  In j (forms_with_fields d) -> In (fst j) (tbl d "forms").
Proof. destruct j as [f ff]. apply left_join_In. Qed.

(** The forms of a selection of live joined rows are live forms. *)
Lemma selected_forms_live (selected : list (row * option row)) (f : Form) :
  (forall j, In j selected -> In (fst j) (tbl d "forms") /\ live (fst j) = true) ->
  In f (map form_of_row
          (by_name (map form_result (Sql.group_by (fun j => col (fst j) "id") selected)))) ->
  live_in d "forms" (form_id f).
Proof.
  intros Hsel. rewrite in_map_iff. intros (form & <- & Hin).
  unfold by_name in Hin. apply order_by_In, in_map_iff in Hin as (g & <- & Hg).
  apply group_by_first, Hsel in Hg as [Hf Hl].
  exists (fst (fst g)). split; [exact Hf|]. split; [exact Hl|].
  cbn. unfold form_result. rewrite col_insert_ne by discriminate. reflexivity.
Qed.

Lemma Forms_getForms_live (userId : option Z) (f : Form) :
  In f (Forms.getForms userId d) -> live_in d "forms" (form_id f).
Proof.
  unfold Forms.getForms. apply selected_forms_live.
  destruct (given userId) as [u|]; intros j Hj.
  - apply in_map_iff in Hj as ([[j0 fc] uc] & <- & Hj). cbn.
    apply filter_In in Hj as [Hj Hw]. cbn in Hw.
    apply andb_true_iff in Hw as [_ Hl].
    apply inner_join_In in Hj as [Hj _]. apply inner_join_In in Hj as [Hj _].
    split; [now apply forms_with_fields_In|exact Hl].
  - apply filter_In in Hj as [Hj Hl]. split; [now apply forms_with_fields_In|exact Hl].
Qed.

Lemma Forms_getFormById_live (formId : Z) (f : Form) :
  Forms.getFormById formId d = Some f -> live_in d "forms" (form_id f).
Proof.
  unfold Forms.getFormById. intros H. apply find_some in H as [H _].
  now apply Forms_getForms_live in H.
Qed.

Lemma DatabaseForms_getForms_live (userId companyId : option Z) (f : Form) :
  In f (DatabaseForms.getForms userId companyId d) -> live_in d "forms" (form_id f).
Proof.
  unfold DatabaseForms.getForms. apply selected_forms_live.
  intros j Hj. apply in_map_iff in Hj as ([j0 fc] & <- & Hj). cbn.
  apply filter_In in Hj as [Hj Hw]. cbn in Hw.
  apply andb_true_iff in Hw as [Hl _].
  apply inner_join_In in Hj as [Hj _].
  split; [now apply forms_with_fields_In|exact Hl].
Qed.

Lemma DatabaseForms_getFormById_live (formId : Z) (f : Form) :
  DatabaseForms.getFormById formId d = Some f -> live_in d "forms" (form_id f).
Proof.
  unfold DatabaseForms.getFormById.
  destruct (map form_result _) as [|form rest] eqn:Hq; [discriminate|].
  intros [= <-].
  assert (Hin : In form (form :: rest)) by now left.
  rewrite <- Hq in Hin. apply in_map_iff in Hin as (g & <- & Hg).
  apply group_by_first, filter_In in Hg as [Hj Hw].
  apply andb_true_iff in Hw as [_ Hl].
  exists (fst (fst g)). split; [now apply forms_with_fields_In|]. split; [exact Hl|].
  cbn. unfold form_result. rewrite col_insert_ne by discriminate. reflexivity.
Qed.

Lemma Forms_getFormResponses_live (form_id visit_id user_id : option Z)
    (x : Forms.FormResponse) :
  In x (Forms.getFormResponses form_id visit_id user_id d) ->
  live_in d "form_responses" (Forms.response_id x).
Proof.
  unfold Forms.getFormResponses. rewrite in_map_iff. intros (response & <- & Hin).
  apply order_by_In, in_map_iff in Hin as (g & <- & Hg).
  apply group_by_first, filter_In in Hg as [Hj Hw].
  destruct g as [[[[[fr f] u] ffr] ff] rest]. cbn in *.
  repeat (apply andb_true_iff in Hw as [Hw _]).
  unfold Forms.responses_joined in Hj.
  repeat (apply inner_join_In in Hj as [Hj _]).
  exists fr. split; [exact Hj|]. split; [exact Hw|].
  rewrite !col_insert_ne by discriminate. reflexivity.
Qed.

Lemma DatabaseForms_getFormResponses_live (formId visitId userId : option Z)
    (x : DatabaseForms.FormResponse) :
  In x (DatabaseForms.getFormResponses formId visitId userId d) ->
  live_in d "form_responses" (DatabaseForms.response_id x).
Proof.
  unfold DatabaseForms.getFormResponses.
  destruct (negb _); [intros []|].
  intros Hin. apply order_by_In, in_map_iff in Hin as (g & <- & Hg).
  apply group_by_first, filter_In in Hg as [Hj Hw].
  destruct g as [[[[[fr f] u] ffr] ff] rest]. cbn in *.
  repeat (apply andb_true_iff in Hw as [Hw _]).
  unfold DatabaseForms.responses_joined in Hj.
  repeat (apply left_join_In in Hj). repeat (apply inner_join_In in Hj as [Hj _]).
  exists fr. split; [exact Hj|]. split; [exact Hw|]. reflexivity.
Qed.

Lemma getActiveVisit_live (userId : Z) (v : row) :
  getActiveVisit userId d = Some v -> live_in d "visits" (col v "id").
Proof.
  unfold getActiveVisit.
  destruct (List.filter _ _) as [|[v0 c] rest] eqn:Hq; [discriminate|].
  intros [= <-].
  assert (Hin : In (v0, c) ((v0, c) :: rest)) by now left.
  rewrite <- Hq in Hin. apply filter_In in Hin as [Hj Hw]. cbn in Hw.
  apply andb_true_iff in Hw as [_ Hl]. apply left_join_In in Hj.
  exists v0. split; [exact Hj|]. split; [exact Hl|].
  symmetry. apply col_insert_ne. discriminate.
Qed.

Lemma visitDetails_live (companyId : option Z) (startDate endDate : string)
    (userId : option Z) (j : row * row * row) :
  In j (visitDetails companyId startDate endDate userId d) ->
  In (fst (fst j)) (tbl d "visits") /\ live (fst (fst j)) = true.
Proof.
  unfold visitDetails. intros H. apply filter_In in H as [Hj Hw].
  apply andb_true_iff in Hw as [_ Hl].
  destruct j as [[v u] c]. repeat (apply inner_join_In in Hj as [Hj _]). auto.
Qed.

End Reads.

(** C8 (as the code has it): every record a read returns stems from a row of
    the table the read selects from that carries no deletion mark. *)
Theorem reads_select_live_rows (d : database) :
  (forall u, In u (getUsers d) -> live_in d "users" (user_id u))
  /\ (forall username password u,
        getUser username password d = Some u -> live_in d "users" (user_id u))
  /\ (forall c, In c (getCompanies d) <-> In c (tbl d "companies") /\ live c = true)
  /\ (forall userId f, In f (Forms.getForms userId d) -> live_in d "forms" (form_id f))
  /\ (forall userId companyId f,
        In f (DatabaseForms.getForms userId companyId d) -> live_in d "forms" (form_id f))
  /\ (forall formId f, Forms.getFormById formId d = Some f -> live_in d "forms" (form_id f))
  /\ (forall formId f,
        DatabaseForms.getFormById formId d = Some f -> live_in d "forms" (form_id f))
  /\ (forall form_id visit_id user_id x,
        In x (Forms.getFormResponses form_id visit_id user_id d) ->
        live_in d "form_responses" (Forms.response_id x))
  /\ (forall formId visitId userId x,
        In x (DatabaseForms.getFormResponses formId visitId userId d) ->
        live_in d "form_responses" (DatabaseForms.response_id x))
  /\ (forall userId v, getActiveVisit userId d = Some v -> live_in d "visits" (col v "id"))
  /\ (forall companyId startDate endDate userId j,
        In j (visitDetails companyId startDate endDate userId d) ->
        In (fst (fst j)) (tbl d "visits") /\ live (fst (fst j)) = true).
Proof.
  split; [apply getUsers_live|].
  split; [apply getUser_live|].
  split; [apply getCompanies_live|].
  split; [apply Forms_getForms_live|].
  split; [apply DatabaseForms_getForms_live|].
  split; [apply Forms_getFormById_live|].
  split; [apply DatabaseForms_getFormById_live|].
  split; [apply Forms_getFormResponses_live|].
  split; [apply DatabaseForms_getFormResponses_live|].
  split; [apply getActiveVisit_live|].
  apply visitDetails_live.
Qed.

(** C8 (counterexample): among the fields of a live form, getForms
    returns the field whose row of form_fields carries a deletion mark. *)
Lemma deleted_field_is_returned :
  exists (f : Form) (field r : row),
    In f (Forms.getForms None form_with_deleted_field)
    /\ In field (form_fields f)
    /\ In r (tbl form_with_deleted_field "form_fields")
    /\ col field "id" = col r "id"
    /\ live r = false.
Proof.
  assert (H : existsb (fun f => existsb (fun field => bool_decide (col field "id" = VInt 6))
                                (form_fields f))
                (Forms.getForms None form_with_deleted_field) = true)
    by (vm_compute; reflexivity).
  apply existsb_exists in H as (f & Hf & H).
  apply existsb_exists in H as (field & Hfield & H).
  apply bool_decide_eq_true in H.
  assert (H' : existsb (fun r => (bool_decide (col r "id" = VInt 6) && negb (live r))%bool)
                 (tbl form_with_deleted_field "form_fields") = true)
    by (vm_compute; reflexivity).
  apply existsb_exists in H' as (r & Hr & H').
  apply andb_true_iff in H' as [Hid Hdel].
  apply bool_decide_eq_true in Hid. apply negb_true_iff in Hdel.
  exists f, field, r. repeat split; congruence.
Qed.

(** ** The administrator's roles and companies *)

Lemma left_join_keeps {A : Type} (l : list A) (rows : list row) (on : A -> row -> bool)
    (a : A) :
  In a l -> exists o, In (a, o) (Sql.left_join l rows on).
Proof.
  intros Ha. unfold Sql.left_join.
  destruct (List.filter (on a) rows) as [|m ms] eqn:Hf.
  - exists None. apply in_flat_map. exists a. split; [exact Ha|]. rewrite Hf. now left.
  - exists (Some m). apply in_flat_map. exists a. split; [exact Ha|]. rewrite Hf. now left.
Qed.

Lemma users_joined_keeps (d : database) (u : row) :
  In u (tbl d "users") -> exists j, In j (users_joined d) /\ joined_u j = u.
Proof.
  intros Hu. unfold users_joined.
  destruct (left_join_keeps _ (tbl d "user_roles")
              (fun u ur => sql_eq (col u "id") (col ur "user_id")) u Hu) as (o1 & H1).
  destruct (left_join_keeps _ (tbl d "roles")
              (fun j r => sql_eq (Sql.ocol (snd j) "role_id") (col r "id")) _ H1) as (o2 & H2).
  destruct (left_join_keeps _ (tbl d "user_companies")
              (fun j uc => sql_eq (col (fst (fst j)) "id") (col uc "user_id")) _ H2)
    as (o3 & H3).
  destruct (left_join_keeps _ (tbl d "companies")
              (fun j c => sql_eq (Sql.ocol (snd j) "company_id") (col c "id")) _ H3)
    as (o4 & H4).
  exists (u, o1, o2, o3, o4). split; [exact H4|reflexivity].
Qed.

Lemma add_to_groups_nonempty {A : Type} (key : A -> value) (a : A)
    (groups : list (A * list A)) :
  Sql.add_to_groups key a groups <> [].
Proof.
  destruct groups as [|[b bs] rest]; cbn; [discriminate|].
  case_bool_decide; discriminate.
Qed.

Lemma group_by_nonempty {A : Type} (key : A -> value) (l : list A) :
  l <> [] -> Sql.group_by key l <> [].
Proof.
  unfold Sql.group_by.
  assert (H : forall (l0 : list A) (groups : list (A * list A)), groups <> [] ->
             fold_left (fun groups a => Sql.add_to_groups key a groups) l0 groups <> []).
  { induction l0 as [|a l0 IH]; cbn; intros groups Hg; [exact Hg|].
    apply IH, add_to_groups_nonempty. }
  destruct l as [|a l]; [congruence|]. intros _. cbn.
  apply H. discriminate.
Qed.

Lemma sql_eq_text (v : value) (s : string) : sql_eq v (VText s) = true -> v = VText s.
Proof.
  destruct v; cbn; try discriminate. intros H. apply String.eqb_eq in H. now subst.
Qed.

(** C10: for a user the login query finds (credentials match, no deletion
    mark, the username being the unique key it is) whose is_admin flag is
    set, getUser returns every live role and every live company, whatever
    user_roles and user_companies hold. *)
Theorem admin_gets_all_roles_and_companies (d : database) (username password : string)
    (u : row) :
  In u (tbl d "users") ->
  col u "username" = VText username ->
  col u "password" = VText password ->
  live u = true ->
  truthy (col u "is_admin") = true ->
  (forall u', In u' (tbl d "users") -> col u' "username" = VText username -> u' = u) ->
  exists result,
    getUser username password d = Some result
    /\ user_isAdmin result = true
    /\ user_id result = col u "id"
    /\ user_roles result = getRoles d
    /\ user_companies result = getCompanies d
    /\ (forall r, In r (user_roles result) <-> In r (tbl d "roles") /\ live r = true)
    /\ (forall c, In c (user_companies result) <-> In c (tbl d "companies") /\ live c = true).
Proof.
  intros Hu Hname Hpass Hlive Hadmin Huniq. unfold getUser.
  set (where_ := fun u0 : row =>
         (sql_eq (col u0 "username") (VText username)
          && sql_eq (col u0 "password") (VText password) && live u0)%bool).
  assert (Hw : where_ u = true).
  { unfold where_. rewrite Hname, Hpass, Hlive. cbn. now rewrite !String.eqb_refl. }
  destruct (users_query d where_) as [|user rest] eqn:Hq.
  - exfalso. unfold users_query in Hq. apply map_eq_nil in Hq.
    revert Hq. apply group_by_nonempty.
    destruct (users_joined_keeps d u Hu) as (j & Hj & Hju).
    assert (Hin : In j (List.filter (fun j => where_ (joined_u j)) (users_joined d))).
    { apply filter_In. split; [exact Hj|]. now rewrite Hju. }
    intros Hnil. rewrite Hnil in Hin. destruct Hin.
  - assert (Hin : In user (users_query d where_)) by (rewrite Hq; now left).
    apply users_query_In in Hin as (r & Hr & Hwr & Hc).
    assert (r = u).
    { apply Huniq; [exact Hr|]. unfold where_ in Hwr.
      apply andb_true_iff in Hwr as [Hwr _]. apply andb_true_iff in Hwr as [Hwr _].
      now apply sql_eq_text. }
    subst r. rewrite (Hc "is_admin") by discriminate. rewrite Hadmin.
    eexists. split; [reflexivity|]. cbn.
    split; [reflexivity|]. split; [apply Hc; discriminate|].
    split; [reflexivity|]. split; [reflexivity|].
    split; [apply getRoles_live|apply getCompanies_live].
Qed.

Lemma admin_gets_all_witness :
  exists result,
    getUser "admin" "secret" admin_database = Some result
    /\ user_roles result = [{[ "id" := VInt 1; "name" := VText "usuario" ]}]
    /\ user_companies result = [{[ "id" := VInt 7; "name" := VText "AWS" ]}].
Proof.
  destruct (admin_gets_all_roles_and_companies admin_database "admin" "secret"
              (local_user 1 "admin" 1 VNull))
    as (result & Hget & _ & _ & Hroles & Hcompanies & _).
  - vm_compute. left. reflexivity.
  - reflexivity.
  - reflexivity.
  - reflexivity.
  - reflexivity.
  - intros u' Hin Hname. vm_compute in Hin.
    destruct Hin as [<-|[<-|[]]]; [reflexivity|]. vm_compute in Hname. discriminate.
  - exists result. split; [exact Hget|]. split.
    + rewrite Hroles. vm_compute. reflexivity.
    + rewrite Hcompanies. vm_compute. reflexivity.
Defined.


(** ** Two overlapping downloads *)

(** Run alone, the step machine is downloadUpdates. *)
Lemma run_alone_is_downloadUpdates (E : env) (w : world) :
  let '(r, w') := downloadUpdates E w in
  Interleave.run E 17 Interleave.Entry w = (Interleave.Done r, w').
Proof.
  destruct (download_guard E w) eqn:Hg.
  - rewrite (downloadUpdates_runs E w Hg).
    unfold download_guard in Hg.
    destruct (web E) eqn:Hweb; [discriminate|].
    destruct (syncInProgress w) eqn:Hsip; [discriminate|].
    cbn [negb andb] in Hg.
    cbn [Interleave.run Interleave.step orb]. rewrite Hweb, Hsip.
    cbn [Interleave.run Interleave.step orb].
    unfold isOnline. rewrite Hweb. unfold gets at 1. rewrite Hg.
    unfold try_finally, try_catch at 1, bind at 1.
    destruct (BEGIN (with_flags true true w)) as [[[]|e] w0]; cbn [Interleave.after].
    2:{ cbn [Interleave.run Interleave.step]. unfold bind, try_catch, throw, modify, ret.
        destruct (ROLLBACK w0) as [[[]|e'] w1]; reflexivity. }
    cbn [download_tables for_of].
    cbn [Interleave.run Interleave.step nth_error download_tables].
    unfold bind.
    repeat (match goal with
            | |- context [download_table E ?t ?x] =>
                destruct (download_table E t x) as [[[]|?e] ?w];
                cbn [Interleave.run Interleave.step Interleave.after nth_error
                       download_tables]
            end;
            [|
              unfold bind, try_catch, throw, modify, ret;
              match goal with
              | |- context [ROLLBACK ?x] => destruct (ROLLBACK x) as [[[]|?e] ?w]
              end; reflexivity]).
    cbn [Interleave.run Interleave.step Interleave.after nth_error download_tables].
    unfold bind, getAllAsync, gets, ret, throw, try_catch, modify.
    match goal with |- context [COMMIT ?x] => destruct (COMMIT x) as [[[]|?e] ?w] end;
      cbn [Interleave.after Interleave.run Interleave.step]; [reflexivity|].
    unfold try_catch, ret.
    match goal with |- context [ROLLBACK ?x] => destruct (ROLLBACK x) as [[[]|?e] ?w] end;
      reflexivity.
  - rewrite (downloadUpdates_skips E w Hg). unfold download_guard in Hg.
    cbn [Interleave.run Interleave.step fst snd].
    destruct (web E) eqn:Hweb; cbn [orb]; [reflexivity|].
    destruct (syncInProgress w) eqn:Hsip; [reflexivity|].
    cbn [Interleave.run Interleave.step negb andb] in *.
    unfold isOnline. rewrite Hweb. unfold gets. rewrite Hg. reflexivity.
Qed.

(** While neither invocation has returned from its connectivity probe, the
    busy flag is still clear: the second invocation passes the guard too. *)
Lemma both_pass_the_guard (E : env) (w : world) :
  web E = false -> syncInProgress w = false ->
  Interleave.interleave E [true; false] Interleave.Entry Interleave.Entry w
  = (Interleave.Probing, Interleave.Probing, w).
Proof.
  intros Hweb Hsip. cbn [Interleave.interleave Interleave.step].
  rewrite Hweb, Hsip. cbn [orb Interleave.interleave Interleave.step].
  rewrite ?Hweb, ?Hsip. reflexivity.
Qed.

(** C7 (code as written): a second invocation that arrives while the first
    awaits its connectivity probe is not dropped.  Its BEGIN fails inside
    the first one's transaction, its ROLLBACK undoes the first one's users
    write, and the first one goes on writing outside any transaction: both
    raise, and the roles written by the first stay in the store. *)
Theorem overlapping_downloads_both_run :
  let w0 := with_remote users_and_roles stale_device in
  Interleave.interleave calm [true; false] Interleave.Entry Interleave.Entry w0
  = (Interleave.Probing, Interleave.Probing, w0)
  /\ let '(p1, p2, w) :=
       Interleave.interleave calm Interleave.overlapping
         Interleave.Entry Interleave.Entry w0 in
     p1 = Interleave.Done (Throw "cannot commit - no transaction is active")
     /\ p2 = Interleave.Done (Throw "cannot start a transaction within a transaction")
     /\ tbl (db w) "users" = tbl (db w0) "users"
     /\ tbl (db w0) "roles" = []
     /\ map (fun r => col r "id") (tbl (db w) "roles") = [VInt 1].
Proof. vm_compute. repeat split; reflexivity. Qed.


(** * Further properties of the data layer *)

(** ** Rules for computations *)

Section Rules.

Context {A : Type}.
Variable Q : A -> world -> Prop.
Variable X : string -> world -> Prop.

Lemma wp_ret (a : A) (w : world) : Q a w -> wp (ret a) Q X w.
Proof. exact (fun H => H). Qed.

Lemma wp_throw (e : string) (w : world) : X e w -> wp (throw e) Q X w.
Proof. exact (fun H => H). Qed.

Lemma wp_bind {B : Type} (m : M B) (k : B -> M A) (w : world) :
  wp m (fun b w' => wp (k b) Q X w') X w -> wp (bind m k) Q X w.
Proof. unfold wp, bind. destruct (m w) as [[b|e] w']; auto. Qed.

Lemma wp_gets (f : world -> A) (w : world) : Q (f w) w -> wp (gets f) Q X w.
Proof. exact (fun H => H). Qed.

Lemma wp_getAllAsync (query : database -> A) (w : world) :
  Q (query (db w)) w -> wp (getAllAsync query) Q X w.
Proof. exact (fun H => H). Qed.

Lemma wp_try_catch (body : M A) (handler : string -> M A) (w : world) :
  wp body Q (fun e w' => wp (handler e) Q X w') w -> wp (try_catch body handler) Q X w.
Proof. unfold wp, try_catch. destruct (body w) as [[a|e] w']; auto. Qed.

Lemma wp_try_finally (body : M A) (cleanup : M unit) (w : world) :
  wp body (fun a w' => wp cleanup (fun _ => Q a) X w')
          (fun e w' => wp cleanup (fun _ => X e) X w') w ->
  wp (try_finally body cleanup) Q X w.
Proof.
  unfold wp, try_finally. destruct (body w) as [[a|e] w'];
    destruct (cleanup w') as [[[]|e'] w'']; auto.
Qed.

Lemma wp_conseq (Q' : A -> world -> Prop) (X' : string -> world -> Prop)
    (m : M A) (w : world) :
  wp m Q' X' w ->
  (forall a w', Q' a w' -> Q a w') -> (forall e w', X' e w' -> X e w') ->
  wp m Q X w.
Proof. unfold wp. destruct (m w) as [[a|e] w']; auto. Qed.

Lemma wp_runAsync (E : env) (statement : database -> outcome A * database) (w : world) :
  (statement_fails E (statements w) = true -> X "SQLITE_ERROR" (count_statement w)) ->
  (statement_fails E (statements w) = false ->
   forall a d', statement (db w) = (Return a, d') ->
                Q a (with_db d' (transaction w) (count_statement w))) ->
  (statement_fails E (statements w) = false ->
   forall e d', statement (db w) = (Throw e, d') -> X e (count_statement w)) ->
  wp (runAsync E statement) Q X w.
Proof.
  unfold wp, runAsync. intros H1 H2 H3.
  destruct (statement_fails E (statements w)); [auto|].
  destruct (statement (db w)) as [[a|e] d'] eqn:Hs; eauto.
Qed.

End Rules.

Section UnitRules.

Variable Q : unit -> world -> Prop.
Variable X : string -> world -> Prop.

Lemma wp_modify (f : world -> world) (w : world) : Q tt (f w) -> wp (modify f) Q X w.
Proof. exact (fun H => H). Qed.

(** A loop is run with an invariant of the worlds between its turns. *)
Lemma wp_for_of {B : Type} (I : world -> Prop) (xs : list B) (body : B -> M unit)
    (w : world) :
  I w ->
  (forall x w0, In x xs -> I w0 -> wp (body x) (fun _ => I) X w0) ->
  (forall w', I w' -> Q tt w') ->
  wp (for_of xs body) Q X w.
Proof.
  intros Hw Hbody Hq. revert w Hw.
  induction xs as [|x xs IH]; intros w Hw; [now apply Hq|].
  cbn [for_of]. apply wp_bind.
  eapply wp_conseq; [apply (Hbody x w); [now left|exact Hw]| |auto].
  intros [] w' Hw'. apply IH; [|exact Hw'].
  intros y w0 Hy. apply Hbody. now right.
Qed.

Lemma wp_BEGIN (w : world) :
  (transaction w = None -> Q tt (with_db (db w) (Some (db w)) w)) ->
  (forall saved, transaction w = Some saved ->
                 X "cannot start a transaction within a transaction" w) ->
  wp BEGIN Q X w.
Proof. unfold wp, BEGIN. destruct (transaction w); eauto. Qed.

Lemma wp_COMMIT (w : world) :
  (forall saved, transaction w = Some saved -> Q tt (with_db (db w) None w)) ->
  (transaction w = None -> X "cannot commit - no transaction is active" w) ->
  wp COMMIT Q X w.
Proof. unfold wp, COMMIT. destruct (transaction w); eauto. Qed.

Lemma wp_ROLLBACK (w : world) :
  (forall saved, transaction w = Some saved -> Q tt (with_db saved None w)) ->
  (transaction w = None -> X "cannot rollback - no transaction is active" w) ->
  wp ROLLBACK Q X w.
Proof. unfold wp, ROLLBACK. destruct (transaction w); eauto. Qed.

(** addToSyncQueue on a device: one statement, and on its success the
    timer of the next upload when the device is online and idle. *)
Lemma wp_addToSyncQueue (E : env) (tableName : string) (recordId : record_key)
    (op : operation) (data : row) (w : world) :
  web E = false ->
  (statement_fails E (statements w) = true -> X "SQLITE_ERROR" (count_statement w)) ->
  (statement_fails E (statements w) = false ->
   forall w1,
     w1 = with_db (snd (insert_sync_queue tableName (key_toString recordId) op data
                          (now w) (db w)))
            (transaction w) (count_statement w) ->
     Q tt (if (online w && negb (syncInProgress w))%bool
           then with_syncTimeout true w1 else w1)) ->
  wp (addToSyncQueue E tableName recordId op data) Q X w.
Proof.
  intros Hweb H1 H2. unfold wp, addToSyncQueue. rewrite Hweb.
  unfold bind, gets, runAsync, isOnline, insert_sync_queue, modify, ret. rewrite Hweb.
  destruct (statement_fails E (statements w)); [auto|]. cbn.
  specialize (H2 eq_refl _ eq_refl). cbn in H2.
  destruct (online w), (syncInProgress w); exact H2.
Qed.

End UnitRules.

(** What a computation proved with [wp] says about its result. *)
Lemma wp_result {A : Type} (m : M A) (Q : A -> world -> Prop)
    (X : string -> world -> Prop) (w : world) :
  wp m Q X w ->
  match fst (m w) with
  | Return a => Q a (snd (m w))
  | Throw e => X e (snd (m w))
  end.
Proof. unfold wp. destruct (m w) as [[a|e] w']; auto. Qed.

(** ** Computations that respect a relation between worlds *)

Section Respects.

Variable R : world -> world -> Prop.
Hypothesis R_refl : forall w, R w w.
Hypothesis R_trans : forall w1 w2 w3, R w1 w2 -> R w2 w3 -> R w1 w3.

Lemma respects_ret {A : Type} (a : A) : respects R (ret a).
Proof. intros w. apply R_refl. Qed.

Lemma respects_throw {A : Type} (e : string) : respects R (@throw A e).
Proof. intros w. apply R_refl. Qed.

Lemma respects_gets {A : Type} (f : world -> A) : respects R (gets f).
Proof. intros w. apply R_refl. Qed.

Lemma respects_getAllAsync {A : Type} (query : database -> A) :
  respects R (getAllAsync query).
Proof. intros w. apply R_refl. Qed.

Lemma respects_CURRENT_TIMESTAMP (E : env) : respects R (CURRENT_TIMESTAMP E).
Proof. intros w. apply R_refl. Qed.

Lemma respects_new_Date (E : env) : respects R (new_Date_toISOString E).
Proof. intros w. apply R_refl. Qed.

Lemma respects_bind {A B : Type} (m : M A) (k : A -> M B) :
  respects R m -> (forall a, respects R (k a)) -> respects R (bind m k).
Proof.
  intros Hm Hk w. unfold bind. specialize (Hm w).
  destruct (m w) as [[a|e] w1]; cbn [snd] in *; [|exact Hm].
  eapply R_trans; [exact Hm|apply Hk].
Qed.

Lemma respects_try_catch {A : Type} (body : M A) (handler : string -> M A) :
  respects R body -> (forall e, respects R (handler e)) ->
  respects R (try_catch body handler).
Proof.
  intros Hm Hk w. unfold try_catch. specialize (Hm w).
  destruct (body w) as [[a|e] w1]; cbn [snd] in *; [exact Hm|].
  eapply R_trans; [exact Hm|apply Hk].
Qed.

Lemma respects_for_of {A : Type} (xs : list A) (body : A -> M unit) :
  (forall x, respects R (body x)) -> respects R (for_of xs body).
Proof.
  intros Hb. induction xs as [|x xs IH]; cbn [for_of].
  - apply respects_ret.
  - apply respects_bind; auto.
Qed.

Lemma respects_try_finally {A : Type} (body : M A) (cleanup : M unit) :
  respects R body -> respects R cleanup -> respects R (try_finally body cleanup).
Proof.
  intros Hb Hc w. unfold try_finally. specialize (Hb w).
  destruct (body w) as [r w1]. cbn [snd] in Hb. specialize (Hc w1).
  destruct (cleanup w1) as [[[]|e] w2]; cbn [snd] in *; eapply R_trans; eauto.
Qed.

Lemma respects_modify (f : world -> world) :
  (forall w, R w (f w)) -> respects R (modify f).
Proof. intros H w. apply H. Qed.

End Respects.

Create HintDb respects.

(** Breaks a computation down to the statements it is made of; these are
    left to the lemmas of the relation at hand. *)
Ltac respects_with refl trans :=
  repeat lazymatch goal with
    | |- respects _ (bind _ _) => apply (respects_bind _ trans); [|intros ?]
    | |- respects _ (try_catch _ _) => apply (respects_try_catch _ trans); [|intros ?]
    | |- respects _ (try_finally _ _) => apply (respects_try_finally _ trans)
    | |- respects _ (for_of _ _) => apply (respects_for_of _ refl trans); intros ?
    | |- respects _ (ret _) => apply (respects_ret _ refl)
    | |- respects _ (throw _) => apply (respects_throw _ refl)
    | |- respects _ (gets _) => apply (respects_gets _ refl)
    | |- respects _ (getAllAsync _) => apply (respects_getAllAsync _ refl)
    | |- respects _ (CURRENT_TIMESTAMP _) => apply (respects_CURRENT_TIMESTAMP _ refl)
    | |- respects _ (new_Date_toISOString _) => apply (respects_new_Date _ refl)
    | |- respects _ (if ?b then _ else _) => destruct b
    | |- respects _ (match ?x with _ => _ end) => destruct x
    | |- respects _ (let x := _ in _) => cbv zeta
    | |- respects _ _ => solve [auto with respects]
    end.

(** *** The transaction of the connection *)

Lemma same_transaction_refl (w : world) : same_transaction w w.
Proof. reflexivity. Qed.

Lemma same_transaction_trans (w1 w2 w3 : world) :
  same_transaction w1 w2 -> same_transaction w2 w3 -> same_transaction w1 w3.
Proof. unfold same_transaction. congruence. Qed.

Lemma runAsync_same_transaction {A : Type} (E : env)
    (statement : database -> outcome A * database) :
  respects same_transaction (runAsync E statement).
Proof.
  intros w. unfold runAsync, same_transaction.
  destruct (statement_fails E (statements w)); [reflexivity|].
  destruct (statement (db w)) as [[a|e] d']; reflexivity.
Qed.

Lemma send_same_transaction (E : env) (r : request) :
  respects same_transaction (send E r).
Proof. intros w. reflexivity. Qed.

Lemma select_active_same_transaction (E : env) (t : string) :
  respects same_transaction (select_active E t).
Proof.
  intros w. unfold select_active, same_transaction.
  destruct (request_error E (requests w)); reflexivity.
Qed.

Lemma setItem_same_transaction (key v : string) :
  respects same_transaction (AsyncStorage_setItem key v).
Proof. intros w. reflexivity. Qed.

Lemma isOnline_same_transaction (E : env) : respects same_transaction (isOnline E).
Proof. intros w. unfold isOnline. destruct (web E); reflexivity. Qed.

Lemma addToSyncQueue_same_transaction (E : env) (tableName : string)
    (recordId : record_key) (op : operation) (data : row) :
  respects same_transaction (addToSyncQueue E tableName recordId op data).
Proof.
  intros w. unfold addToSyncQueue, same_transaction.
  destruct (web E) eqn:Hweb; [reflexivity|].
  unfold bind, gets, runAsync, isOnline, insert_sync_queue, modify, ret. rewrite Hweb.
  destruct (statement_fails E (statements w)); [reflexivity|]. cbn.
  destruct (online w), (syncInProgress w); reflexivity.
Qed.

#[global] Hint Resolve runAsync_same_transaction send_same_transaction
  select_active_same_transaction setItem_same_transaction isOnline_same_transaction
  addToSyncQueue_same_transaction : respects.

Ltac neutral := respects_with same_transaction_refl same_transaction_trans.

(** *** Writes in a transaction of their own *)

Lemma commits_throw {A : Type} (e : string) : commits (@throw A e).
Proof. intros w _. now left. Qed.

Lemma commits_bind {A B : Type} (m : M A) (k : A -> M B) :
  respects same_transaction m -> (forall a, commits (k a)) -> commits (bind m k).
Proof.
  intros Hm Hk w Hw. unfold bind. specialize (Hm w). unfold same_transaction in Hm.
  destruct (m w) as [[a|e] w1]; cbn [snd] in *; [|left; exact Hm].
  specialize (Hk a w1). rewrite Hm in Hk. specialize (Hk Hw).
  destruct (k a w1) as [[b|e] w2]; exact Hk.
Qed.

Lemma commits_COMMIT {A : Type} (post : M A) :
  respects same_transaction post -> commits (COMMIT ;; post).
Proof.
  intros Hp w Hw. unfold bind, COMMIT.
  destruct (transaction w) as [saved|] eqn:Htx; [|contradiction].
  specialize (Hp (with_db (db w) None w)). unfold same_transaction in Hp. cbn in Hp.
  destruct (post (with_db (db w) None w)) as [[a|e] w2]; cbn [snd] in *; auto.
Qed.

Ltac commits_step :=
  lazymatch goal with
  | |- commits (bind COMMIT _) => apply commits_COMMIT; neutral
  | |- commits (bind _ _) => apply commits_bind; [neutral | intros ?]
  | |- commits (throw _) => apply commits_throw
  | |- commits (if ?b then _ else _) => destruct b
  | |- commits (match ?x with _ => _ end) => destruct x
  | |- commits (let x := _ in _) => cbv zeta
  end.

(** A write of the shape [try { BEGIN; ...; COMMIT; ... } catch (error)
    { ROLLBACK; throw error }] that is called with no transaction open. *)
Lemma own_transaction {A : Type} (rest : M A) (w : world) :
  commits rest -> transaction w = None ->
  all_or_nothing (try_catch (BEGIN ;; rest) (fun error => ROLLBACK ;; throw error)) w.
Proof.
  intros Hc Htx. unfold all_or_nothing.
  remember (try_catch (BEGIN ;; rest) (fun error => ROLLBACK ;; throw error) w)
    as result eqn:Hres.
  unfold try_catch, bind, BEGIN, ROLLBACK, throw in Hres. rewrite Htx in Hres.
  specialize (Hc (with_db (db w) (Some (db w)) w)). cbn in Hc.
  destruct (rest (with_db (db w) (Some (db w)) w)) as [[a|e] w1].
  - subst result. split; [apply Hc; discriminate|exact I].
  - destruct Hc as [Hc|Hc]; [discriminate| |]; rewrite Hc in Hres; subst result; cbn; auto.
Qed.

(** ** Stepping through a computation *)

Lemma wp_any {A : Type} (m : M A) (Q : A -> world -> Prop) (w : world) :
  (forall a w', Q a w') -> wp m Q (fun _ _ => True) w.
Proof. intros H. unfold wp. destruct (m w) as [[a|e] w']; auto. Qed.

(** The catch block [ROLLBACK; throw error] never returns. *)
Lemma wp_rollback_throw {A : Type} (e : string) (Q : A -> world -> Prop) (w : world) :
  wp (ROLLBACK ;; throw e) Q (fun _ _ => True) w.
Proof. unfold wp, bind, ROLLBACK, throw. now destruct (transaction w). Qed.

Ltac wp_step :=
  lazymatch goal with
  | |- wp (bind ROLLBACK (fun _ => throw _)) _ (fun _ _ => True) _ =>
      apply wp_rollback_throw
  | |- wp (bind _ _) _ _ _ => apply wp_bind
  | |- wp (ret _) _ _ _ => apply wp_ret
  | |- wp (throw _) _ _ _ => apply wp_throw
  | |- wp (gets _) _ _ _ => apply wp_gets
  | |- wp (getAllAsync _) _ _ _ => apply wp_getAllAsync
  | |- wp (CURRENT_TIMESTAMP _) _ _ _ => apply wp_gets
  | |- wp (new_Date_toISOString _) _ _ _ => apply wp_gets
  | |- wp (modify _) _ _ _ => apply wp_modify
  | |- wp (try_catch _ _) _ _ _ => apply wp_try_catch
  | |- wp (let x := _ in _) _ _ _ => cbv zeta
  end; cbv beta.

Ltac wp_steps := repeat wp_step.

(** *** What a statement leaves in a table *)

Lemma tbl_store_rows_ne (t t' : string) (rows : list row) (d : database) :
  t' <> t -> tbl (store_rows t rows d) t' = tbl d t'.
Proof. intros H. unfold tbl. now rewrite tables_store_rows_ne. Qed.

Lemma insert_row_inv (ts t : string) (r : row) (d d' : database) (a : Z) :
  insert_row ts t r d = (Return a, d') ->
  existsb (conflicting t (complete ts t r d)) (tbl d t) = false
  /\ a = id_of (complete ts t r d)
  /\ d' = store_rows t (tbl d t ++ [complete ts t r d])
            (bump_sequence t (complete ts t r d) d).
Proof.
  unfold insert_row. destruct (existsb _ _); [discriminate|].
  intros [= <- <-]. auto.
Qed.

Lemma insert_row_refused (ts t : string) (r r' : row) (d : database) :
  In r' (tbl d t) -> conflicting t (complete ts t r d) r' = true ->
  insert_row ts t r d = (Throw "UNIQUE constraint failed", d).
Proof.
  intros Hin Hc. unfold insert_row.
  replace (existsb _ _) with true; [reflexivity|].
  symmetry. apply existsb_exists. eauto.
Qed.

Lemma tbl_insert_row (ts t t' : string) (r : row) (d d' : database) (a : Z) :
  insert_row ts t r d = (Return a, d') ->
  tbl d' t' = if String.eqb t' t then (tbl d t ++ [complete ts t r d])%list else tbl d t'.
Proof.
  intros H. apply insert_row_inv in H as (_ & _ & ->).
  destruct (String.eqb_spec t' t) as [->|Hne].
  - apply tbl_store_rows.
  - rewrite tbl_store_rows_ne by exact Hne. apply tbl_bump_sequence.
Qed.

Lemma tbl_update_where (t t' : string) (p : row -> bool) (f : row -> row) (d : database) :
  tbl (snd (update_where t p f d)) t'
  = if String.eqb t' t then map (fun r => if p r then f r else r) (tbl d t) else tbl d t'.
Proof.
  unfold update_where. cbn [snd].
  destruct (String.eqb_spec t' t) as [->|Hne].
  - apply tbl_store_rows.
  - now apply tbl_store_rows_ne.
Qed.

Lemma tbl_delete_where (t t' : string) (p : row -> bool) (d : database) :
  tbl (snd (delete_where t p d)) t'
  = if String.eqb t' t then List.filter (fun r => negb (p r)) (tbl d t) else tbl d t'.
Proof.
  unfold delete_where. cbn [snd].
  destruct (String.eqb_spec t' t) as [->|Hne].
  - apply tbl_store_rows.
  - now apply tbl_store_rows_ne.
Qed.

Lemma tbl_insert_sync_queue (tableName recordId : string) (op : operation) (data : row)
    (at_time : Z) (d : database) (t : string) :
  tbl (snd (insert_sync_queue tableName recordId op data at_time d)) t = tbl d t.
Proof. reflexivity. Qed.

Lemma wp_returns {A : Type} (m : M A) (Q : A -> world -> Prop)
    (X : string -> world -> Prop) (w : world) (a : A) :
  wp m Q X w -> fst (m w) = Return a -> Q a (snd (m w)).
Proof. unfold wp. destruct (m w) as [[a'|e] w']; cbn; [now intros H [= <-]|discriminate]. Qed.

Lemma wp_addToSyncQueue_web (E : env) (tableName : string) (recordId : record_key)
    (op : operation) (data : row) (Q : unit -> world -> Prop)
    (X : string -> world -> Prop) (w : world) :
  web E = true -> Q tt w -> wp (addToSyncQueue E tableName recordId op data) Q X w.
Proof. intros Hweb H. unfold wp, addToSyncQueue. now rewrite Hweb. Qed.

(** The enqueue writes to no table, on any platform. *)
Lemma wp_addToSyncQueue_tables (E : env) (tableName : string) (recordId : record_key)
    (op : operation) (data : row) (Q : unit -> world -> Prop) (w : world) :
  (forall w', tables (db w') = tables (db w) -> transaction w' = transaction w ->
              now w' = now w -> Q tt w') ->
  wp (addToSyncQueue E tableName recordId op data) Q (fun _ _ => True) w.
Proof.
  intros H. destruct (web E) eqn:Hweb.
  - apply wp_addToSyncQueue_web; auto.
  - apply wp_addToSyncQueue; [exact Hweb|auto|].
    intros _ w1 ->. destruct (online w && negb (syncInProgress w))%bool; apply H; reflexivity.
Qed.

(** *** A write that inserts one row *)

(** The shape of createUser, createCompany, createRole and startVisit:
    one INSERT between BEGIN and COMMIT, then an enqueue that writes to no
    table. *)
Lemma wp_single_insert (E : env) (t : string) (r : string -> row) (post : Z -> M Z)
    (handler : string -> M Z) (w : world) :
  (forall id w0, wp (post id) (fun a w' => a = id /\ tables (db w') = tables (db w0))
                   (fun _ _ => True) w0) ->
  (forall e w0 Q, wp (handler e) Q (fun _ _ => True) w0) ->
  wp (try_catch
        (BEGIN ;;
         ts <- CURRENT_TIMESTAMP E ;;
         id <- runAsync E (insert_row ts t (r ts)) ;;
         COMMIT ;;
         post id)
        handler)
     (fun id w' => row_added (current_timestamp E (now w)) t
                     (r (current_timestamp E (now w))) id (db w) (db w'))
     (fun _ _ => True) w.
Proof.
  intros Hpost Hhandler. wp_steps.
  apply wp_BEGIN; [intros Htx|intros; apply Hhandler].
  wp_steps. cbn [db with_db now].
  apply wp_runAsync; [intros; apply Hhandler| |intros; apply Hhandler].
  intros _ id d1 Hins. wp_steps. cbn [db with_db transaction count_statement] in *.
  apply wp_COMMIT; [intros saved _|intros; apply Hhandler].
  wp_steps. eapply wp_conseq; [apply Hpost| |intros; apply Hhandler].
  cbn [db with_db]. intros a w' [-> Ht]. unfold row_added.
  pose proof (insert_row_inv _ _ _ _ _ _ Hins) as (Hc & Hid & _).
  split; [|split; [exact Hid|split; [exact Hc|]]].
  - unfold tbl at 1. rewrite Ht. fold (tbl d1 t).
    rewrite (tbl_insert_row _ _ t _ _ _ _ Hins). now rewrite String.eqb_refl.
  - intros t' Hne. unfold tbl at 1. rewrite Ht. fold (tbl d1 t').
    rewrite (tbl_insert_row _ _ t' _ _ _ _ Hins).
    now destruct (String.eqb_spec t' t).
Qed.

(** What follows the COMMIT of such a write: the enqueue, and the id. *)
Ltac after_commit :=
  intros; wp_steps;
  try lazymatch goal with
      | |- wp (if ?b then _ else _) _ _ _ => destruct b; wp_steps
      end;
  try (apply wp_addToSyncQueue_tables; intros; wp_steps);
  auto.

(** ** Properties of the outbox that a computation keeps *)

Section Keeps.

Variable J : list change * Z -> Prop.

Lemma keeps_refl (w : world) : keeps J w w.
Proof. exact (fun H => H). Qed.

Lemma keeps_trans (w1 w2 w3 : world) : keeps J w1 w2 -> keeps J w2 w3 -> keeps J w1 w3.
Proof. unfold keeps. auto. Qed.

(** What neither writes to the store nor touches the transaction. *)
Lemma keeps_idle {A : Type} (m : M A) :
  (forall w, db (snd (m w)) = db w /\ transaction (snd (m w)) = transaction w) ->
  respects (keeps J) m.
Proof.
  intros H w [H1 H2]. destruct (H w) as [Hd Ht]. split.
  - now rewrite Hd.
  - intros saved Hs. apply H2. congruence.
Qed.

Lemma BEGIN_keeps : respects (keeps J) BEGIN.
Proof.
  intros w [H1 H2]. unfold BEGIN. destruct (transaction w) eqn:Htx; cbn.
  - split; [exact H1|]. intros saved Hs. apply H2. congruence.
  - split; [exact H1|]. now intros saved [= <-].
Qed.

Lemma COMMIT_keeps : respects (keeps J) COMMIT.
Proof.
  intros w [H1 H2]. unfold COMMIT. destruct (transaction w) eqn:Htx; cbn.
  - split; [exact H1|]. discriminate.
  - split; [exact H1|]. intros saved Hs. apply H2. congruence.
Qed.

Lemma ROLLBACK_keeps : respects (keeps J) ROLLBACK.
Proof.
  intros w [H1 H2]. unfold ROLLBACK. destruct (transaction w) eqn:Htx; cbn.
  - split; [now apply H2|]. discriminate.
  - split; [exact H1|]. intros saved Hs. apply H2. congruence.
Qed.

Lemma runAsync_keeps_by {A : Type} (E : env) (f : database -> outcome A * database) :
  (forall d, J (outbox d) -> J (outbox (snd (f d)))) -> respects (keeps J) (runAsync E f).
Proof.
  intros Hf w [H1 H2]. unfold runAsync.
  destruct (statement_fails E (statements w)); [split; assumption|].
  specialize (Hf (db w) H1). destruct (f (db w)) as [[a|e] d']; cbn [snd] in *.
  - split; cbn [db with_db transaction count_statement]; assumption.
  - split; assumption.
Qed.

Lemma runAsync_keeps {A : Type} (E : env) (f : database -> outcome A * database) :
  table_statement f -> respects (keeps J) (runAsync E f).
Proof. intros Hf. apply runAsync_keeps_by. intros d. now rewrite Hf. Qed.

Lemma mark_synced_keeps (E : env) (i : Z) :
  closed_under_updates J -> respects (keeps J) (runAsync E (mark_synced i)).
Proof.
  intros [HJ _]. apply runAsync_keeps_by. intros d. apply HJ.
  intros c. cbn. split; [reflexivity|lia].
Qed.

Lemma mark_failed_keeps (E : env) (message : string) (i : Z) :
  closed_under_updates J -> respects (keeps J) (runAsync E (mark_failed message i)).
Proof.
  intros [HJ _]. apply runAsync_keeps_by. intros d. apply HJ.
  intros c. cbn. split; [reflexivity|lia].
Qed.

Lemma mark_synced_like_keeps (E : env) (names : list string) (start : string) :
  closed_under_updates J ->
  respects (keeps J) (runAsync E (DatabaseForms.mark_synced_like names start)).
Proof.
  intros [HJ _]. apply runAsync_keeps_by. intros d. apply HJ.
  intros c. cbn. split; [reflexivity|lia].
Qed.

Lemma purge_old_keeps (E : env) (at_time : Z) :
  closed_under_updates J -> respects (keeps J) (runAsync E (purge_old at_time)).
Proof. intros [_ HJ]. apply runAsync_keeps_by. intros d. apply HJ. Qed.

Lemma addToSyncQueue_keeps (E : env) (tableName : string) (recordId : record_key)
    (op : operation) (data : row) :
  closed_under_enqueue J ->
  respects (keeps J) (addToSyncQueue E tableName recordId op data).
Proof.
  intros HJ w [H1 H2].
  destruct (web E) eqn:Hweb; [unfold addToSyncQueue; rewrite Hweb; now split|].
  pose proof (wp_addToSyncQueue (fun _ w' => holds_for J w') (fun _ w' => holds_for J w')
                E tableName recordId op data w Hweb) as Hwp.
  unfold wp in Hwp.
  destruct (addToSyncQueue E tableName recordId op data w) as [[[]|e] w']; cbn [snd];
    apply Hwp.
  - intros _. now split.
  - intros _ w1 ->.
    assert (H := HJ tableName (key_toString recordId) op data (now w) (db w) H1).
    destruct (online w && negb (syncInProgress w))%bool; split; assumption.
  - intros _. now split.
  - intros _ w1 ->.
    assert (H := HJ tableName (key_toString recordId) op data (now w) (db w) H1).
    destruct (online w && negb (syncInProgress w))%bool; split; assumption.
Qed.

Lemma send_keeps (E : env) (r : request) : respects (keeps J) (send E r).
Proof. apply keeps_idle. intros w. split; reflexivity. Qed.

Lemma select_active_keeps (E : env) (t : string) : respects (keeps J) (select_active E t).
Proof.
  apply keeps_idle. intros w. unfold select_active.
  destruct (request_error E (requests w)); split; reflexivity.
Qed.

Lemma setItem_keeps (key v : string) : respects (keeps J) (AsyncStorage_setItem key v).
Proof. apply keeps_idle. intros w. split; reflexivity. Qed.

Lemma isOnline_keeps (E : env) : respects (keeps J) (isOnline E).
Proof. apply keeps_idle. intros w. unfold isOnline. destruct (web E); split; reflexivity. Qed.

Lemma with_flags_keeps (sip gt : world -> bool) :
  respects (keeps J) (modify (fun w => with_flags (sip w) (gt w) w)).
Proof. apply keeps_idle. intros w. split; reflexivity. Qed.

Lemma with_flags_const_keeps (sip gt : bool) :
  respects (keeps J) (modify (with_flags sip gt)).
Proof. apply keeps_idle. intros w. split; reflexivity. Qed.

End Keeps.

Lemma insert_row_table_statement (ts t : string) (r : row) :
  table_statement (insert_row ts t r).
Proof.
  intros d. unfold insert_row. destruct (existsb _ _); [reflexivity|].
  unfold outbox, bump_sequence. cbn. now destruct (junction t).
Qed.

Lemma insert_or_replace_table_statement (ts t : string) (r : row) :
  table_statement (insert_or_replace ts t r).
Proof.
  intros d. unfold insert_or_replace. case_bool_decide; [reflexivity|].
  unfold outbox, bump_sequence. cbn. now destruct (junction t).
Qed.

Lemma update_where_table_statement (t : string) (p : row -> bool) (f : row -> row) :
  table_statement (update_where t p f).
Proof. intros d. reflexivity. Qed.

Lemma delete_where_table_statement (t : string) (p : row -> bool) :
  table_statement (delete_where t p).
Proof. intros d. reflexivity. Qed.

#[global] Hint Resolve BEGIN_keeps COMMIT_keeps ROLLBACK_keeps runAsync_keeps
  mark_synced_keeps mark_failed_keeps mark_synced_like_keeps purge_old_keeps
  addToSyncQueue_keeps send_keeps select_active_keeps setItem_keeps isOnline_keeps
  with_flags_keeps with_flags_const_keeps
  insert_row_table_statement insert_or_replace_table_statement
  update_where_table_statement delete_where_table_statement : respects.

Ltac keeping J := respects_with (keeps_refl J) (keeps_trans J).

(** What a computation that keeps [J] says about a call made with no
    transaction open. *)
Lemma kept_outside_transaction {A : Type} (J : list change * Z -> Prop) (m : M A)
    (w : world) :
  respects (keeps J) m -> transaction w = None -> J (outbox (db w)) ->
  J (outbox (db (snd (m w)))).
Proof.
  intros Hm Htx HJ. refine (proj1 (Hm w _)).
  split; [exact HJ|]. intros saved. congruence.
Qed.


(** ** Repository writes and the transaction of the connection *)

(** X1: a repository write that is called while a transaction is open on
    the connection writes nothing of its own: its BEGIN is refused, and its
    catch block rolls back the transaction that was open, so that the store
    is back at the snapshot of that transaction and no transaction is open
    any more.  createUser reports its fixed message, the others the error
    of BEGIN. *)
Theorem write_in_open_transaction_aborts_it (E : env) (w : world) (saved : database) :
  transaction w = Some saved ->
  (forall m,
     perform E m w
     = (Throw (match m with
               | CreateUser _ _ _ _ => "Failed to create user. Username might already exist."
               | _ => "cannot start a transaction within a transaction"
               end),
        with_db saved None w))
  /\ (forall id username password isAdmin roleIds companyIds active,
        updateUser E id username password isAdmin roleIds companyIds active w
        = (Throw "cannot start a transaction within a transaction", with_db saved None w))
  /\ (forall seconds_since visitId endLatitude endLongitude noGpsSignalEnd,
        endVisit E seconds_since visitId endLatitude endLongitude noGpsSignalEnd w
        = (Throw "cannot start a transaction within a transaction", with_db saved None w))
  /\ (forall formId visitId userId responses,
        DatabaseForms.createFormResponse E formId visitId userId responses w
        = (Throw "cannot start a transaction within a transaction", with_db saved None w)).
Proof.
  intros Htx.
  assert (Hb : forall (A : Type) (rest : M A) (handler : string -> M A),
             try_catch (BEGIN ;; rest) handler w
             = handler "cannot start a transaction within a transaction" w).
  { intros A rest handler. unfold try_catch, bind, BEGIN. now rewrite Htx. }
  assert (Hr : forall (A : Type) (e : string),
             (ROLLBACK ;; @throw A e) w = (Throw e, with_db saved None w)).
  { intros A e. unfold bind, ROLLBACK, throw. now rewrite Htx. }
  split; [|split; [|split]].
  - intros m.
    destruct m; cbn [perform];
      lazymatch goal with
      | |- discard _ _ = _ => unfold discard; unfold bind at 1
      | _ => idtac
      end;
      unfold createUser, deleteUser, assignUserRole,
        assignUserCompany, createCompany, updateCompany, deleteCompany, createRole,
        updateRole, deleteRole, startVisit, endVisit, Forms.createForm,
        Forms.createFormResponse;
      rewrite Hb, Hr; reflexivity.
  - intros. unfold updateUser. now rewrite Hb, Hr.
  - intros. unfold endVisit. now rewrite Hb, Hr.
  - intros. unfold DatabaseForms.createFormResponse. now rewrite Hb, Hr.
Qed.

Lemma write_in_open_transaction_witness :
  perform calm (CreateRole "auditor")
    (with_db (store_queue [queued 1 0 5] empty_database) (Some empty_database)
       (device empty_database 10))
  = (Throw "cannot start a transaction within a transaction",
     with_db empty_database None
       (with_db (store_queue [queued 1 0 5] empty_database) (Some empty_database)
          (device empty_database 10))).
Proof.
  exact (proj1 (write_in_open_transaction_aborts_it calm
                  (with_db (store_queue [queued 1 0 5] empty_database) (Some empty_database)
                     (device empty_database 10))
                  empty_database eq_refl)
               (CreateRole "auditor")).
Defined.

(** X2: updateUser, endVisit and the createFormResponse of the database layer,
    called with no transaction open, leave no transaction open, and are all
    or nothing up to their COMMIT: when one of them raises, the database
    (every table and the outbox, also the junction rows that updateUser had
    enqueued inside its transaction) is what it was before the call, unless
    the failure came after COMMIT, in which case the error raised is the
    one of the ROLLBACK in the catch block. *)
Theorem writes_are_all_or_nothing (E : env) (w : world) :
  transaction w = None ->
  (forall id username password isAdmin roleIds companyIds active,
     all_or_nothing
       (updateUser E id username password isAdmin roleIds companyIds active) w)
  /\ (forall seconds_since visitId endLatitude endLongitude noGpsSignalEnd,
        all_or_nothing
          (endVisit E seconds_since visitId endLatitude endLongitude noGpsSignalEnd) w)
  /\ (forall formId visitId userId responses,
        all_or_nothing (DatabaseForms.createFormResponse E formId visitId userId responses) w).
Proof.
  intros Htx. split; [|split]; intros.
  - apply own_transaction; [|exact Htx]. repeat commits_step.
  - apply own_transaction; [|exact Htx]. repeat commits_step.
  - apply own_transaction; [|exact Htx]. repeat commits_step.
Qed.

Lemma writes_are_all_or_nothing_witness :
  all_or_nothing
    (updateUser second_statement_refused 4 "ana" None false [2] [] true) visited_device.
Proof.
  exact (proj1 (writes_are_all_or_nothing second_statement_refused visited_device eq_refl)
               4 "ana" None false [2] [] true).
Defined.


(** ** Visits: the end of a visit *)

Lemma filter_nothing {A : Type} (p : A -> bool) (l : list A) :
  Forall (fun x => p x = false) l -> List.filter p l = [].
Proof.
  induction 1 as [|x l Hx _ IH]; cbn; [reflexivity|]. now rewrite Hx.
Qed.

Lemma closed_world (w : world) :
  transaction w = None -> with_db (db w) None (with_db (db w) (Some (db w)) w) = w.
Proof. destruct w; cbn. now intros ->. Qed.

(** X3: endVisit of an id that no row of visits carries raises "Visit not
    found" and leaves the world as it was: nothing is written, nothing is
    enqueued and no transaction stays open. *)
Theorem endVisit_of_unknown_visit (E : env) (seconds_since : value -> Z -> value)
    (visitId : Z) (endLatitude endLongitude : value) (noGpsSignalEnd : bool) (w : world) :
  transaction w = None ->
  Forall (fun r => id_is visitId r = false) (tbl (db w) "visits") ->
  endVisit E seconds_since visitId endLatitude endLongitude noGpsSignalEnd w
  = (Throw "Visit not found", w).
Proof.
  intros Htx Hno.
  unfold endVisit, try_catch, bind, BEGIN, getAllAsync, gets, throw, ROLLBACK.
  rewrite Htx. cbn [db with_db transaction].
  rewrite (filter_nothing _ _ Hno). cbn [transaction with_db].
  now rewrite closed_world.
Qed.

Lemma endVisit_of_unknown_visit_witness :
  endVisit calm (fun _ _ => VNull) 2 VNull VNull true visited_device
  = (Throw "Visit not found", visited_device).
Proof.
  apply endVisit_of_unknown_visit; [reflexivity|].
  change (tbl (db visited_device) "visits") with [visit_row 1 4 7 VNull VNull].
  constructor; [reflexivity|constructor].
Defined.




(** ** Users *)

(** X5: createUser with a username that a row of users already carries,
    be it the row of a deleted user, is refused; the store is left as it
    was and the caller is told "Failed to create user. Username might
    already exist.". *)
Theorem createUser_refuses_taken_username (E : env) (username password : string)
    (isAdmin active : bool) (w : world) (r : row) :
  transaction w = None ->
  In r (tbl (db w) "users") -> col r "username" = VText username ->
  fst (createUser E username password isAdmin active w)
  = Throw "Failed to create user. Username might already exist."
  /\ db (snd (createUser E username password isAdmin active w)) = db w
  /\ transaction (snd (createUser E username password isAdmin active w)) = None.
Proof.
  intros Htx Hin Hname.
  assert (Hc : forall ts,
             insert_row ts "users"
               {[ "username" := VText username; "password" := VText password;
                  "is_admin" := flag isAdmin; "active" := flag active ]} (db w)
             = (Throw "UNIQUE constraint failed", db w)).
  { intros ts. apply (insert_row_refused _ _ _ r); [exact Hin|].
    unfold conflicting, unique_keys. cbn [String.eqb Ascii.eqb Bool.eqb existsb].
    apply orb_true_iff. right. apply orb_true_iff. left.
    unfold same_on. cbn [forallb]. rewrite Hname.
    replace (col (complete ts "users" _ (db w)) "username") with (VText username)
      by reflexivity.
    cbn. now rewrite String.eqb_refl. }
  unfold createUser, try_catch, bind, BEGIN, CURRENT_TIMESTAMP, gets, runAsync, ROLLBACK, throw.
  rewrite Htx. cbn [db with_db transaction statements now].
  rewrite Hc. destruct (statement_fails E (statements w)); cbn; auto.
Qed.

Lemma createUser_refuses_taken_username_witness :
  fst (createUser calm "ana" "pw" false true visited_device)
  = Throw "Failed to create user. Username might already exist.".
Proof.
  refine (proj1 (createUser_refuses_taken_username calm "ana" "pw" false true visited_device
                   (local_user 4 "ana" 0 VNull) eq_refl _ eq_refl)).
  change (tbl (db visited_device) "users") with [local_user 4 "ana" 0 VNull].
  now left.
Defined.

Lemma removed_rows (p : row -> bool) (rows : list row) (r : row) :
  In r (List.filter (fun r => negb (p r)) rows) -> p r = false.
Proof. intros H. apply filter_In in H as [_ H]. now apply negb_true_iff. Qed.

Lemma deleteUser_removes (E : env) (id : Z) (w : world) :
  wp (deleteUser E id) (fun _ w' => user_removed id (db w')) (fun _ _ => True) w.
Proof.
  unfold deleteUser. wp_steps.
  apply wp_BEGIN; [intros Htx|intros; apply wp_rollback_throw].
  wp_steps. cbn [db with_db].
  destruct ((0 <? _) || (0 <? _))%bool; wp_steps.
  apply wp_runAsync; [intros; apply wp_rollback_throw| |discriminate].
  intros _ a1 d1 [= _ <-]. wp_steps.
  apply wp_runAsync; [intros; apply wp_rollback_throw| |discriminate].
  intros _ a2 d2 [= _ <-]. wp_steps.
  apply wp_runAsync; [intros; apply wp_rollback_throw| |discriminate].
  intros _ a3 d3 [= _ <-]. wp_steps.
  apply wp_COMMIT; [intros saved _|intros; apply wp_rollback_throw].
  wp_steps. eapply wp_conseq;
    [apply wp_addToSyncQueue_tables| |intros; apply wp_rollback_throw].
  2: { intros a' w' Hq. exact Hq. }
  cbn [db with_db transaction now count_statement].
  intros w' Ht _ _. unfold user_removed, tbl. rewrite Ht. cbn [tables store_rows].
  rewrite lookup_insert_eq.
  rewrite !(lookup_insert_ne _ "users") by discriminate.
  rewrite lookup_insert_eq.
  rewrite (lookup_insert_ne _ "user_companies" "user_roles") by discriminate.
  rewrite lookup_insert_eq. cbn [default].
  split; [|split].
  - intros r Hr Hid. apply in_map_iff in Hr as (r0 & <- & _).
    destruct (id_is id r0) eqn:H0; [|congruence].
    unfold live, col. now rewrite lookup_insert_eq.
  - intros r Hr. now apply removed_rows in Hr.
  - intros r Hr. now apply removed_rows in Hr.
Qed.

(** X6: when deleteUser returns, the rows of users that carry the id bear
    a deletion mark and no row of user_roles or user_companies refers to
    the user; neither getUsers nor getUser (the login) answers with that
    user any more. *)
Theorem deleted_user_is_gone (E : env) (id : Z) (w : world) :
  fst (deleteUser E id w) = Return tt ->
  let d' := db (snd (deleteUser E id w)) in
  user_removed id d'
  /\ (forall u, In u (getUsers d') -> user_id u <> VInt id)
  /\ (forall username password u, getUser username password d' = Some u ->
                                  user_id u <> VInt id).
Proof.
  intros Hret d'.
  apply (wp_returns _ _ _ _ _ (deleteUser_removes E id w)) in Hret. fold d' in Hret.
  clearbody d'. split; [exact Hret|].
  assert (H : forall v, live_in d' "users" v -> v <> VInt id).
  { intros v (r & Hr & Hl & Hv) ->.
    destruct Hret as (Hu & _). rewrite (Hu r Hr) in Hl; [discriminate|].
    unfold id_is. rewrite Hv. cbn. apply Z.eqb_refl. }
  split.
  - intros u Hu. exact (H _ (getUsers_live d' u Hu)).
  - intros username password u Hu. exact (H _ (getUser_live d' username password u Hu)).
Qed.

Lemma deleted_user_is_gone_witness :
  user_removed 9 (db (snd (deleteUser calm 9 stale_device))).
Proof. exact (proj1 (deleted_user_is_gone calm 9 stale_device eq_refl)). Defined.

(** ** A row that was created is found again *)

Lemma createCompany_adds (E : env) (name description : string) (w : world) :
  wp (createCompany E name description)
     (fun id w' => row_added (current_timestamp E (now w)) "companies"
                     {[ "name" := VText name; "description" := VText description ]}
                     id (db w) (db w'))
     (fun _ _ => True) w.
Proof.
  unfold createCompany.
  apply (wp_single_insert E "companies"
           (fun _ => {[ "name" := VText name; "description" := VText description ]})).
  - after_commit.
  - intros. wp_steps.
Qed.

Lemma createRole_adds (E : env) (name : string) (w : world) :
  wp (createRole E name)
     (fun id w' => row_added (current_timestamp E (now w)) "roles"
                     {[ "name" := VText name ]} id (db w) (db w'))
     (fun _ _ => True) w.
Proof.
  unfold createRole.
  apply (wp_single_insert E "roles" (fun _ => {[ "name" := VText name ]})).
  - after_commit.
  - intros. wp_steps.
Qed.

(** X7: a company that createCompany returned the id of is listed by
    getCompanies with that id, name and description, and a role that
    createRole returned the id of is listed by getRoles with that id and
    name. *)
Theorem created_rows_are_listed (E : env) (w : world) :
  (forall name description id,
     fst (createCompany E name description w) = Return id ->
     exists c, In c (getCompanies (db (snd (createCompany E name description w))))
               /\ col c "id" = VInt id /\ col c "name" = VText name
               /\ col c "description" = VText description)
  /\ (forall name id,
        fst (createRole E name w) = Return id ->
        exists r, In r (getRoles (db (snd (createRole E name w))))
                  /\ col r "id" = VInt id /\ col r "name" = VText name).
Proof.
  split.
  - intros name description id Hret.
    apply (wp_returns _ _ _ _ _ (createCompany_adds E name description w)) in Hret.
    destruct Hret as (Ht & Hid & _).
    eexists. split; [apply getCompanies_live; split|].
    + rewrite Ht. apply in_or_app. right. now left.
    + reflexivity.
    + rewrite Hid. repeat split; reflexivity.
  - intros name id Hret.
    apply (wp_returns _ _ _ _ _ (createRole_adds E name w)) in Hret.
    destruct Hret as (Ht & Hid & _).
    eexists. split; [apply getRoles_live; split|].
    + rewrite Ht. apply in_or_app. right. now left.
    + reflexivity.
    + rewrite Hid. repeat split; reflexivity.
Qed.

Lemma created_rows_witness :
  exists c, In c (getCompanies (db (snd (createCompany calm "Acme" "Tools"
                                           (device empty_database 0)))))
            /\ col c "id" = VInt 1 /\ col c "name" = VText "Acme"
            /\ col c "description" = VText "Tools".
Proof.
  exact (proj1 (created_rows_are_listed calm (device empty_database 0))
               "Acme" "Tools" 1 eq_refl).
Defined.

Lemma createUser_adds (E : env) (username password : string) (isAdmin active : bool)
    (w : world) :
  wp (createUser E username password isAdmin active)
     (fun id w' => row_added (current_timestamp E (now w)) "users"
                     {[ "username" := VText username; "password" := VText password;
                        "is_admin" := flag isAdmin; "active" := flag active ]}
                     id (db w) (db w'))
     (fun _ _ => True) w.
Proof.
  unfold createUser.
  apply (wp_single_insert E "users"
           (fun _ => {[ "username" := VText username; "password" := VText password;
                        "is_admin" := flag isAdmin; "active" := flag active ]})).
  - after_commit.
  - intros. wp_steps.
Qed.

(** The login query finds the one live row with these credentials. *)
Lemma getUser_finds (d : database) (username password : string) (u : row) :
  In u (tbl d "users") ->
  col u "username" = VText username ->
  col u "password" = VText password ->
  live u = true ->
  (forall u', In u' (tbl d "users") -> col u' "username" = VText username -> u' = u) ->
  exists result,
    getUser username password d = Some result
    /\ user_id result = col u "id"
    /\ user_isAdmin result = truthy (col u "is_admin")
    /\ user_active result = truthy (col u "active").
Proof.
  intros Hu Hname Hpass Hlive Huniq. unfold getUser.
  set (where_ := fun u0 : row =>
         (sql_eq (col u0 "username") (VText username)
          && sql_eq (col u0 "password") (VText password) && live u0)%bool).
  assert (Hw : where_ u = true).
  { unfold where_. rewrite Hname, Hpass, Hlive. cbn. now rewrite !String.eqb_refl. }
  destruct (users_query d where_) as [|user rest] eqn:Hq.
  - exfalso. unfold users_query in Hq. apply map_eq_nil in Hq.
    revert Hq. apply group_by_nonempty.
    destruct (users_joined_keeps d u Hu) as (j & Hj & Hju).
    assert (Hin : In j (List.filter (fun j => where_ (joined_u j)) (users_joined d))).
    { apply filter_In. split; [exact Hj|]. now rewrite Hju. }
    intros Hnil. rewrite Hnil in Hin. destruct Hin.
  - assert (Hin : In user (users_query d where_)) by (rewrite Hq; now left).
    apply users_query_In in Hin as (r & Hr & Hwr & Hc).
    assert (r = u).
    { apply Huniq; [exact Hr|]. unfold where_ in Hwr.
      apply andb_true_iff in Hwr as [Hwr _]. apply andb_true_iff in Hwr as [Hwr _].
      now apply sql_eq_text. }
    subst r.
    destruct (truthy (col user "is_admin")) eqn:Hadmin; eexists; (split; [reflexivity|]);
      cbn; rewrite <- ?(Hc "is_admin"), ?Hadmin, !Hc by discriminate; auto.
Qed.

(** X8: a user that createUser returned the id of can log in: getUser with
    the username and the password of the call answers with a user of that
    id, with the flags of the call. *)
Theorem created_user_can_log_in (E : env) (username password : string)
    (isAdmin active : bool) (w : world) (id : Z) :
  fst (createUser E username password isAdmin active w) = Return id ->
  exists u,
    getUser username password (db (snd (createUser E username password isAdmin active w)))
    = Some u
    /\ user_id u = VInt id /\ user_isAdmin u = isAdmin /\ user_active u = active.
Proof.
  intros Hret.
  apply (wp_returns _ _ _ _ _ (createUser_adds E username password isAdmin active w))
    in Hret.
  remember (db (snd (createUser E username password isAdmin active w))) as d' eqn:Hd.
  clear Hd. destruct Hret as (Ht & Hid & Hfree & _).
  remember (complete (current_timestamp E (now w)) "users"
              {[ "username" := VText username; "password" := VText password;
                 "is_admin" := flag isAdmin; "active" := flag active ]} (db w))
    as full eqn:Hfull.
  assert (Hcols : col full "username" = VText username
                  /\ col full "password" = VText password
                  /\ live full = true
                  /\ col full "id" = VInt (id_of full)
                  /\ truthy (col full "is_admin") = isAdmin
                  /\ truthy (col full "active") = active).
  { subst full. repeat split; try reflexivity; [now destruct isAdmin|now destruct active]. }
  destruct Hcols as (Hn & Hp & Hl & Hi & Ha & Hac).
  destruct (getUser_finds d' username password full) as (u & Hu & H1 & H2 & H3);
    try assumption.
  - rewrite Ht. apply in_or_app. right. now left.
  - intros u' Hu' Hname. rewrite Ht in Hu'. apply in_app_or in Hu' as [Hu'|[<-|[]]];
      [|reflexivity].
    exfalso. assert (Hno := Hfree). 
    assert (Hex : existsb (conflicting "users" full) (tbl (db w) "users") = true).
    { apply existsb_exists. exists u'. split; [exact Hu'|].
      unfold conflicting, unique_keys. cbn [String.eqb Ascii.eqb Bool.eqb existsb].
      apply orb_true_iff. right. apply orb_true_iff. left.
      unfold same_on. cbn [forallb]. rewrite Hn, Hname. cbn.
      now rewrite String.eqb_refl. }
    congruence.
  - exists u. rewrite H1, H2, H3, Hi, Ha, Hac, Hid. auto.
Qed.

Lemma created_user_witness :
  exists u,
    getUser "eva" "pw" (db (snd (createUser calm "eva" "pw" false true visited_device)))
    = Some u
    /\ user_id u = VInt 5 /\ user_isAdmin u = false /\ user_active u = true.
Proof. exact (created_user_can_log_in calm "eva" "pw" false true visited_device 5 eq_refl). Defined.


(** ** Reads: the companies of a user, the open visit *)

Lemma inner_join_iff {A : Type} (l : list A) (rows : list row) (on : A -> row -> bool)
    (a : A) (m : row) :
  In (a, m) (Sql.inner_join l rows on) <-> In a l /\ In m rows /\ on a m = true.
Proof.
  unfold Sql.inner_join. rewrite in_flat_map. split.
  - intros (x & Hx & Hin). apply in_map_iff in Hin as (m' & [= <- <-] & Hm).
    apply filter_In in Hm. tauto.
  - intros (Ha & Hm & Hon). exists a. split; [exact Ha|].
    apply in_map. apply filter_In. auto.
Qed.

(** X9: getUserCompanies answers with exactly the rows of companies that
    bear no deletion mark and that a row of user_companies assigns to the
    user; each of them is also listed by getCompanies.  The deletion mark
    of the assignment row itself is not looked at. *)
Theorem getUserCompanies_are_the_assigned_live_companies (d : database) (userId : Z)
    (c : row) :
  (In c (getUserCompanies userId d) <->
   In c (tbl d "companies") /\ live c = true
   /\ exists uc, In uc (tbl d "user_companies")
                 /\ sql_eq (col c "id") (col uc "company_id") = true
                 /\ sql_eq (col uc "user_id") (VInt userId) = true)
  /\ (In c (getUserCompanies userId d) -> In c (getCompanies d)).
Proof.
  assert (H : In c (getUserCompanies userId d) <->
              In c (tbl d "companies") /\ live c = true
              /\ exists uc, In uc (tbl d "user_companies")
                            /\ sql_eq (col c "id") (col uc "company_id") = true
                            /\ sql_eq (col uc "user_id") (VInt userId) = true).
  { unfold getUserCompanies. rewrite order_by_In, in_map_iff. split.
    - intros ([c0 uc] & <- & Hin). apply filter_In in Hin as [Hj Hw].
      apply inner_join_iff in Hj as (Hc & Huc & Hon). cbn [fst snd] in *.
      apply andb_true_iff in Hw as [Hu Hl]. eauto 10.
    - intros (Hc & Hl & uc & Huc & Hon & Hu). exists (c, uc). split; [reflexivity|].
      apply filter_In. split; [now apply inner_join_iff|].
      cbn [fst snd]. now rewrite Hu, Hl. }
  split; [exact H|].
  intros Hin. apply H in Hin as (Hc & Hl & _). now apply getCompanies_live.
Qed.


(** ** The outbox: record ids and their way back *)

Lemma digits_step (acc : option Z) (c : ascii) (s : string) :
  Text.is_digit c = true ->
  Text.digits_prefix acc (String c s)
  = Text.digits_prefix (Some (10 * default 0 acc + Text.digit_val c)) s.
Proof. intros H. cbn [Text.digits_prefix]. now rewrite H. Qed.

Lemma append_cons (c : ascii) (s rest : string) :
  String c s ++ rest = String c (s ++ rest).
Proof. reflexivity. Qed.

(** Reading the digits of a number, up to the end of the text or to an
    underscore. *)
Lemma digits_prefix_acc (d : uint) (rest : string) (p : positive) :
  rest = "" \/ (exists s, rest = String "_" s) ->
  Text.digits_prefix (Some (Z.pos p)) (NilEmpty.string_of_uint d ++ rest)
  = Some (Z.pos (Pos.of_uint_acc d p)).
Proof.
  intros Hrest. revert p.
  induction d as [|d IH|d IH|d IH|d IH|d IH|d IH|d IH|d IH|d IH|d IH]; intros p;
    cbn [NilEmpty.string_of_uint Pos.of_uint_acc].
  1: destruct Hrest as [->|(s & ->)]; reflexivity.
  all: rewrite append_cons, digits_step by reflexivity; cbn [default]; cbv [Text.digit_val];
    rewrite <- IH; do 2 f_equal;
    match goal with
    | |- context [Z.of_nat (nat_of_ascii ?c)] =>
        let v := eval vm_compute in (Z.of_nat (nat_of_ascii c)) in
        change (Z.of_nat (nat_of_ascii c)) with v
    end; unfold id; lia.
Qed.

Lemma digits_prefix_uint (d : uint) (rest : string) :
  rest = "" \/ (exists s, rest = String "_" s) ->
  Text.digits_prefix (Some 0) (NilEmpty.string_of_uint d ++ rest)
  = Some (Z.of_N (Pos.of_uint d)).
Proof.
  intros Hrest.
  induction d as [|d IH|d IH|d IH|d IH|d IH|d IH|d IH|d IH|d IH|d IH];
    cbn [NilEmpty.string_of_uint Pos.of_uint Z.of_N].
  1: destruct Hrest as [->|(s & ->)]; reflexivity.
  1: rewrite append_cons, digits_step by reflexivity; exact IH.
  all: rewrite append_cons, digits_step by reflexivity; cbn [default]; cbv [Text.digit_val];
    rewrite <- (digits_prefix_acc d rest _ Hrest); do 2 f_equal.
Qed.

Lemma parseInt_of_Z_then (n : Z) (rest : string) :
  rest = "" \/ (exists s, rest = String "_" s) ->
  parseInt (Text.of_Z n ++ rest) = Some n.
Proof.
  intros Hrest.
  assert (Hu : forall d, d <> Nil ->
             unsigned_auto (NilEmpty.string_of_uint d ++ rest)
             = Some (Z.of_N (Pos.of_uint d))
             /\ Text.skip_spaces (NilEmpty.string_of_uint d ++ rest)
                = NilEmpty.string_of_uint d ++ rest
             /\ exists c s, NilEmpty.string_of_uint d ++ rest = String c s
                            /\ Text.is_digit c = true).
  { intros d Hd.
    assert (H0 := digits_prefix_uint d rest Hrest).
    destruct d as [|d|d|d|d|d|d|d|d|d|d]; [contradiction|..];
      (split; [|split; [reflexivity|eexists; eexists; split; reflexivity]]);
      try exact H0.
    destruct d as [|d|d|d|d|d|d|d|d|d|d]; try exact H0.
    destruct Hrest as [->|(s & ->)]; reflexivity. }
  unfold Text.of_Z, NilZero.string_of_int, NilZero.string_of_uint.
  destruct n as [|p|p]; cbn [Z.to_int].
  - destruct Hrest as [->|(s & ->)]; reflexivity.
  - assert (Hd : Pos.to_uint p <> Nil) by apply DecimalPos.Unsigned.to_uint_nonnil.
    destruct (Hu _ Hd) as (H1 & H2 & c & s & Hs & Hc).
    replace (match Pos.to_uint p with Nil => "0" | _ => NilEmpty.string_of_uint (Pos.to_uint p) end)
      with (NilEmpty.string_of_uint (Pos.to_uint p)) by (now destruct (Pos.to_uint p)).
    unfold parseInt. rewrite H2. rewrite Hs in *.
    assert (Hsign : c <> "-"%char /\ c <> "+"%char).
    { split; intros ->; discriminate. }
    destruct Hsign as [Hm Hp].
    replace (match String c s with
             | String "-" r => option_map Z.opp (unsigned_auto r)
             | String "+" r => unsigned_auto r
             | t => unsigned_auto t
             end) with (unsigned_auto (String c s)).
    + rewrite H1, DecimalPos.Unsigned.of_to. reflexivity.
    + destruct c as [[] [] [] [] [] [] [] []]; try reflexivity; congruence.
  - assert (Hd : Pos.to_uint p <> Nil) by apply DecimalPos.Unsigned.to_uint_nonnil.
    destruct (Hu _ Hd) as (H1 & _).
    replace (match Pos.to_uint p with Nil => "0" | _ => NilEmpty.string_of_uint (Pos.to_uint p) end)
      with (NilEmpty.string_of_uint (Pos.to_uint p)) by (now destruct (Pos.to_uint p)).
    rewrite append_cons. unfold parseInt. cbn [Text.skip_spaces].
    change (Text.is_space "-") with false. cbv iota.
    rewrite H1, DecimalPos.Unsigned.of_to. reflexivity.
Qed.

Lemma append_empty (s : string) : s ++ "" = s.
Proof.
  induction s as [|c s IH]; [reflexivity|]. rewrite append_cons. now rewrite IH.
Qed.

Lemma parseInt_of_Z (n : Z) : parseInt (Text.of_Z n) = Some n.
Proof. rewrite <- (parseInt_of_Z_then n "") by auto. now rewrite append_empty. Qed.

Lemma next_queue_id_fresh (d : database) (c : change) :
  In c (sync_queue d) -> sq_id c < next_queue_id d.
Proof.
  unfold next_queue_id. induction (sync_queue d) as [|x q IH]; cbn; [tauto|].
  intros [->|H]; [lia|]. specialize (IH H). lia.
Qed.

(** X10: addToSyncQueue on a device runs one statement.  When the store
    takes it, the outbox has one more row, at its end: the table, the text
    of the record id, the operation and the data of the call, not synced,
    never retried, stamped with the current time, under an id above every
    id in the outbox and above the AUTOINCREMENT counter; no table is
    touched, and the upload timer is set exactly when the device is online
    and no sync is running.  When the store refuses it, the call raises and
    the database is as before.  On the web platform the call does
    nothing. *)
Theorem addToSyncQueue_appends_one_row (E : env) (tableName : string)
    (recordId : record_key) (op : operation) (data : row) (w : world) :
  let result := addToSyncQueue E tableName recordId op data w in
  if web E then result = (Return tt, w) else
  if statement_fails E (statements w)
  then fst result = Throw "SQLITE_ERROR" /\ db (snd result) = db w
  else fst result = Return tt
       /\ sync_queue (db (snd result))
          = (sync_queue (db w)
             ++ [enqueued (db w) tableName recordId op data (now w)])%list
       /\ (forall c, In c (sync_queue (db w)) ->
                     sq_id c < sq_id (enqueued (db w) tableName recordId op data (now w)))
       /\ sync_queue_seq (db w) < sq_id (enqueued (db w) tableName recordId op data (now w))
       /\ tables (db (snd result)) = tables (db w)
       /\ syncTimeout (snd result)
          = (online w && negb (syncInProgress w) || syncTimeout w)%bool.
Proof.
  intros result. subst result. unfold addToSyncQueue.
  destruct (web E) eqn:Hweb; [reflexivity|].
  unfold bind, gets, runAsync, isOnline, insert_sync_queue, modify, ret. rewrite Hweb.
  unfold gets.
  destruct (statement_fails E (statements w)); [split; reflexivity|].
  cbn [fst snd db with_db count_statement transaction online syncInProgress now].
  assert (Hseq : sync_queue_seq (db w) < next_queue_id (db w))
    by (unfold next_queue_id; lia).
  unfold enqueued. cbn [sq_id].
  destruct (online w && negb (syncInProgress w))%bool;
    (split; [reflexivity|split; [reflexivity|split; [apply next_queue_id_fresh|]]]);
    (split; [exact Hseq|split; reflexivity]).
Qed.

(** X11: the id under which a repository enqueues a row of a table with a
    single key is the id the upload sends, for every id that a number holds
    exactly: [recordId.toString()] read back by [parseInt] is the number it
    was.  The row enqueued for such an id [n] is uploaded as an upsert of
    the data with [id = n], or, for a DELETE, as an update of [deleted_at]
    filtered on [id = n]. *)
Theorem queued_id_reaches_the_remote (tableName : string) (n : Z) (op : operation)
    (data : row) (d : database) (at_time : Z) (iso : string) :
  isSafeInteger n = true ->
  junction tableName = false ->
  request_of iso (enqueued d tableName (KeyNum n) op data at_time)
  = match op with
    | DELETE => UpdateEq tableName {[ "deleted_at" := VText iso ]} [("id", Num (NumInt n))]
    | _ => Upsert tableName (<["id" := VInt n]> data)
    end.
Proof.
  intros _ Hj. unfold request_of, enqueued.
  cbn [sq_table_name sq_record_id sq_operation sq_data key_toString]. rewrite Hj.
  unfold parsed_id. rewrite parseInt_of_Z. now destruct op.
Qed.

Lemma queued_id_witness :
  request_of "2025-03-01T10:00:00.000Z"
    (enqueued empty_database "visits" (KeyNum 12) UPDATE {[ "duration" := VInt 60 ]} 5)
  = Upsert "visits" (<["id" := VInt 12]> {[ "duration" := VInt 60 ]}).
Proof.
  exact (queued_id_reaches_the_remote "visits" 12 UPDATE {[ "duration" := VInt 60 ]}
           empty_database 5 "2025-03-01T10:00:00.000Z" eq_refl eq_refl).
Defined.


(** ** The outbox under downloads and seeding *)

Section Kept.

Variable J : list change * Z -> Prop.
Variable E : env.

Lemma downloadUpdates_keeps : respects (keeps J) (downloadUpdates E).
Proof.
  unfold downloadUpdates. keeping J.
  unfold download_table. keeping J.
  unfold download_record. keeping J.
Qed.

Lemma downloadForms_keeps : respects (keeps J) (FormSync.downloadForms E).
Proof.
  unfold FormSync.downloadForms, FormSync.downloadForms_operation. keeping J.
  all: unfold FormSync.raise_if, FormSync.store_all; keeping J.
Qed.

Lemma initDatabase_keeps : respects (keeps J) (initDatabase E).
Proof. unfold initDatabase. keeping J. Qed.

End Kept.

(** X12: a download (downloadUpdates, downloadForms) and the seeding of
    initDatabase, called with no transaction open, leave the outbox as it
    was, row for row and with its AUTOINCREMENT counter, whether they
    return or raise: no pending change is lost to a download, and the rows
    that initDatabase seeds are never enqueued for upload. *)
Theorem downloads_and_seeding_leave_the_outbox (E : env) (w : world) :
  transaction w = None ->
  outbox (db (snd (downloadUpdates E w))) = outbox (db w)
  /\ outbox (db (snd (FormSync.downloadForms E w))) = outbox (db w)
  /\ outbox (db (snd (initDatabase E w))) = outbox (db w).
Proof.
  intros Htx. split; [|split].
  - apply (kept_outside_transaction (fun q => q = outbox (db w)));
      [apply downloadUpdates_keeps|exact Htx|reflexivity].
  - apply (kept_outside_transaction (fun q => q = outbox (db w)));
      [apply downloadForms_keeps|exact Htx|reflexivity].
  - apply (kept_outside_transaction (fun q => q = outbox (db w)));
      [apply initDatabase_keeps|exact Htx|reflexivity].
Qed.

Lemma downloads_leave_the_outbox_witness :
  outbox (db (snd (downloadUpdates calm
                     (with_remote two_remote_users
                        (device (store_queue [queued 1 0 5] empty_database) 10)))))
  = ([queued 1 0 5], 0).
Proof.
  exact (proj1 (downloads_and_seeding_leave_the_outbox calm
                  (with_remote two_remote_users
                     (device (store_queue [queued 1 0 5] empty_database) 10))
                  eq_refl)).
Defined.


(** ** The outbox over a history of events *)

Section Invariant.

Variable J : list change * Z -> Prop.
Hypothesis J_enqueue : closed_under_enqueue J.
Hypothesis J_updates : closed_under_updates J.
Variable E : env.

Lemma perform_keeps (m : mutation) : respects (keeps J) (perform E m).
Proof.
  destruct m; unfold perform, discard, createUser, deleteUser, assignUserRole,
    assignUserCompany, createCompany, updateCompany, deleteCompany, createRole,
    updateRole, deleteRole, startVisit, endVisit, Forms.createForm,
    Forms.createFormResponse;
    keeping J.
Qed.

Lemma updateUser_keeps (id : Z) (username : string) (password : option string)
    (isAdmin : bool) (roleIds companyIds : list Z) (active : bool) :
  respects (keeps J) (updateUser E id username password isAdmin roleIds companyIds active).
Proof. unfold updateUser. keeping J. Qed.

Lemma createFormResponse_keeps (formId visitId userId : Z) (responses : list (Z * string)) :
  respects (keeps J) (DatabaseForms.createFormResponse E formId visitId userId responses).
Proof. unfold DatabaseForms.createFormResponse. keeping J. Qed.

Lemma processSyncQueue_keeps : respects (keeps J) (processSyncQueue E).
Proof.
  unfold processSyncQueue. keeping J.
  unfold process_change. keeping J.
Qed.

Lemma uploadFormResponses_keeps : respects (keeps J) (FormSync.uploadFormResponses E).
Proof.
  unfold FormSync.uploadFormResponses, FormSync.uploadFormResponses_operation. keeping J.
  unfold FormSync.upload_response. keeping J.
  all: unfold FormSync.upsert_response; keeping J.
  all: unfold FormSync.raise_if; keeping J.
Qed.

(** Whatever happens, a property of the outbox that the enqueue, the
    updates and the cleanup keep is kept. *)
Lemma occur_keeps (e : event) (w : world) : holds_for J w -> holds_for J (occur E e w).
Proof.
  destruct e; cbn [occur].
  - apply perform_keeps.
  - apply updateUser_keeps.
  - apply createFormResponse_keeps.
  - apply processSyncQueue_keeps.
  - apply uploadFormResponses_keeps.
  - apply downloadUpdates_keeps.
  - apply downloadForms_keeps.
  - apply initDatabase_keeps.
  - exact (fun H => H).
  - exact (fun H => H).
Qed.

Lemma after_events_keeps (events : list event) (w : world) :
  holds_for J w -> holds_for J (after_events E events w).
Proof.
  revert w. induction events as [|e events IH]; intros w H; [exact H|].
  cbn. apply IH. now apply occur_keeps.
Qed.

End Invariant.

Lemma capped_enqueue (i : Z) : closed_under_enqueue (capped i).
Proof.
  intros tableName recordId op data at_time d (Hi & Hb & Hc).
  unfold capped, outbox, insert_sync_queue in *. cbn [fst snd sync_queue sync_queue_seq] in *.
  assert (Hseq : sync_queue_seq d < next_queue_id d) by (unfold next_queue_id; lia).
  split; [lia|]. split.
  - apply Forall_app. split; [|repeat constructor; cbn; lia].
    revert Hb. apply List.Forall_impl. intros; lia.
  - apply Forall_app. split; [exact Hc|]. repeat constructor. cbn. lia.
Qed.

Lemma capped_updates (i : Z) : closed_under_updates (capped i).
Proof.
  split.
  - intros p f d Hf (Hi & Hb & Hc).
    unfold capped, outbox, update_queue in *. cbn [fst snd sync_queue sync_queue_seq store_queue] in *.
    split; [exact Hi|]. rewrite !List.Forall_forall in *. split.
    + intros c Hin. apply in_map_iff in Hin as (c0 & <- & Hin).
      specialize (Hb c0 Hin). destruct (p c0); [|exact Hb]. now rewrite (proj1 (Hf c0)).
    + intros c Hin. apply in_map_iff in Hin as (c0 & <- & Hin).
      specialize (Hc c0 Hin). destruct (p c0); [|exact Hc].
      destruct (Hf c0) as [-> Hr]. lia.
  - intros at_time d (Hi & Hb & Hc).
    unfold capped, outbox, purge_old in *. cbn [fst snd sync_queue sync_queue_seq store_queue] in *.
    split; [exact Hi|]. rewrite !List.Forall_forall in *.
    split; intros c Hin; apply filter_In in Hin as [Hin _]; auto.
Qed.

Lemma pendingResponses_In (d : database) (c : change) :
  In c (FormSync.pendingResponses d) -> In c (sync_queue d) /\ sq_retry_count c < 3.
Proof.
  unfold FormSync.pendingResponses. rewrite order_by_In, filter_In.
  intros [Hin Hp]. split; [exact Hin|].
  apply andb_true_iff in Hp as [_ Hp]. unfold is_pending in Hp.
  apply andb_true_iff in Hp as [_ Hp]. now apply Z.ltb_lt.
Qed.

(** X13: a row of the outbox whose retry count has reached 3 is out of the
    upload for good.  Whatever happens on the device afterwards, in any
    order and whether the calls return or raise (repository writes, upload
    passes of processSyncQueue and of uploadFormResponses, downloads,
    initDatabase, time going by, connectivity changing), no row with its id
    is selected by either drain: no statement lowers a retry count, and no
    id of the outbox is handed out twice. *)
Theorem capped_row_is_never_drained_again (E : env) (w : world) (c : change) :
  transaction w = None ->
  In c (sync_queue (db w)) ->
  3 <= sq_retry_count c ->
  List.NoDup (map sq_id (sync_queue (db w))) ->
  Forall (fun c' => sq_id c' <= sync_queue_seq (db w)) (sync_queue (db w)) ->
  forall events,
    let w' := after_events E events w in
    ~ In (sq_id c) (map sq_id (pendingChanges (db w')))
    /\ ~ In (sq_id c) (map sq_id (FormSync.pendingResponses (db w')))
    /\ (forall c', In c' (sync_queue (db w')) -> sq_id c' = sq_id c ->
                   3 <= sq_retry_count c').
Proof.
  intros Htx Hin Hr Hnd Hb events w'.
  assert (H0 : holds_for (capped (sq_id c)) w).
  { split; [|intros saved; congruence].
    unfold capped, outbox. cbn [fst snd].
    split; [|split; [exact Hb|]].
    - rewrite List.Forall_forall in Hb. now apply Hb.
    - apply List.Forall_forall. intros c' Hc' Heq.
      now rewrite (NoDup_ids_inj _ c' c Hnd Hc' Hin Heq). }
  pose proof (after_events_keeps _ (capped_enqueue _) (capped_updates _) E events w H0)
    as [(_ & _ & H) _].
  fold w' in H. clearbody w'. unfold outbox in H. cbn [fst] in H.
  rewrite List.Forall_forall in H.
  split; [|split].
  - intros Hp. apply in_map_iff in Hp as (c' & Heq & Hp).
    apply pendingChanges_In in Hp as (Hc' & _ & Hlt). specialize (H c' Hc' Heq). lia.
  - intros Hp. apply in_map_iff in Hp as (c' & Heq & Hp).
    apply pendingResponses_In in Hp as (Hc' & Hlt). specialize (H c' Hc' Heq). lia.
  - exact H.
Qed.

Lemma capped_row_witness :
  ~ In 1 (map sq_id (pendingChanges (db (after_events calm
            [Mutation (CreateRole "auditor"); Elapse 60; Upload; Download]
            (device capped_outbox 50)))))
  /\ ~ In 1 (map sq_id (FormSync.pendingResponses (db (after_events calm
            [Mutation (CreateRole "auditor"); Elapse 60; Upload; Download]
            (device capped_outbox 50)))))
  /\ (forall c', In c' (sync_queue (db (after_events calm
            [Mutation (CreateRole "auditor"); Elapse 60; Upload; Download]
            (device capped_outbox 50)))) -> sq_id c' = 1 -> 3 <= sq_retry_count c').
Proof.
  refine (capped_row_is_never_drained_again calm (device capped_outbox 50) (queued 1 3 0)
            eq_refl _ _ _ _
            [Mutation (CreateRole "auditor"); Elapse 60; Upload; Download]).
  - now left.
  - cbn. lia.
  - repeat constructor; cbn; intuition discriminate.
  - repeat constructor; cbn; lia.
Defined.


(** ** The upload pass and the tables *)

Lemma tables_kept_refl (w : world) : tables_kept w w.
Proof. unfold tables_kept. auto 10. Qed.

Lemma tables_kept_trans (w1 w2 w3 : world) :
  tables_kept w1 w2 -> tables_kept w2 w3 -> tables_kept w1 w3.
Proof. unfold tables_kept. intuition congruence. Qed.

Lemma runAsync_tables_kept {A : Type} (E : env) (f : database -> outcome A * database) :
  (forall d, tables (snd (f d)) = tables d /\ sequences (snd (f d)) = sequences d) ->
  respects tables_kept (runAsync E f).
Proof.
  intros Hf w. unfold runAsync.
  destruct (statement_fails E (statements w));
    [unfold tables_kept; cbn; auto 10|].
  specialize (Hf (db w)). destruct (f (db w)) as [[a|e] d']; cbn [snd] in *;
    unfold tables_kept; cbn; intuition.
Qed.

Lemma process_change_tables_kept (E : env) (c : change) :
  respects tables_kept (process_change E c).
Proof.
  unfold process_change. respects_with tables_kept_refl tables_kept_trans.
  - intros w. unfold send, tables_kept. cbn. auto 10.
  - apply runAsync_tables_kept. intros d. split; reflexivity.
  - intros w. unfold AsyncStorage_setItem, modify, tables_kept. cbn. auto 10.
  - apply runAsync_tables_kept. intros d. split; reflexivity.
Qed.

Lemma upload_body_tables_kept (E : env) :
  respects tables_kept
    (pending <- getAllAsync pendingChanges ;;
     for_of pending (process_change E) ;;
     at_time <- gets now ;;
     runAsync E (purge_old at_time)).
Proof.
  respects_with tables_kept_refl tables_kept_trans.
  - apply process_change_tables_kept.
  - apply runAsync_tables_kept. intros d. split; reflexivity.
Qed.

(** X14: an upload pass (processSyncQueue) writes to no syncable table and
    to no counter of one, opens and closes no transaction, and leaves the
    globalTransaction flag as it found it, whatever the remote answers and
    whatever the store refuses; and when it was entered with syncInProgress
    clear, syncInProgress is clear again when it ends, by return or by
    raise: a failed pass does not lock out the next one. *)
Theorem upload_writes_no_table_and_releases_the_lock (E : env) (w : world) :
  tables_kept w (snd (processSyncQueue E w))
  /\ (syncInProgress w = false -> syncInProgress (snd (processSyncQueue E w)) = false).
Proof.
  destruct (drain_guard E w) eqn:Hg.
  - rewrite (processSyncQueue_runs E w Hg).
    pose proof (upload_body_tables_kept E (with_flags true false w)) as H.
    unfold try_finally, modify.
    destruct ((pending <- getAllAsync pendingChanges ;; _) (with_flags true false w))
      as [r w1].
    cbn [snd] in *. split; [|reflexivity].
    unfold drain_guard in Hg. apply andb_true_iff in Hg as [_ Hgt].
    apply negb_true_iff in Hgt.
    unfold tables_kept in *. cbn in *. rewrite Hgt in *. intuition.
  - rewrite (processSyncQueue_skips E w Hg). split; [apply tables_kept_refl|auto].
Qed.


(** ** The upload, row by row *)

(** X15: while the store refuses no statement, a pass of processSyncQueue
    that passes its guards returns, sends the request of every pending row
    in selection order, and settles each of them by the answer to its own
    request: the [k]-th pending row is marked synced with its error cleared
    when the [k]-th request of the pass was accepted, and gets one more
    retry and the error's message when it was answered with an error. An
    error for one row stops neither the pass nor the rows after it. The
    settled row is the only row of its id left in the table, and it is
    there unless the closing cleanup statement purged it. *)
Theorem upload_settles_every_pending_row (E : env) (w : world) :
  drain_guard E w = true ->
  (forall n, statement_fails E n = false) ->
  List.NoDup (map sq_id (sync_queue (db w))) ->
  let after := snd (processSyncQueue E w) in
  fst (processSyncQueue E w) = Return tt
  /\ sent after
     = (sent w ++ map (request_of (toISOString E (now w))) (pendingChanges (db w)))%list
  /\ forall k c, nth_error (pendingChanges (db w)) k = Some c ->
       let c' := settled (request_error E (requests w + k)%nat) c in
       (forall x, In x (sync_queue (db after)) -> sq_id x = sq_id c -> x = c')
       /\ (purgeable (now w) c' = false -> In c' (sync_queue (db after))).
Proof. exact (pass_settles E w). Qed.

Lemma upload_settles_witness :
  In (settled (Some "fetch failed") (queued 1 0 30))
    (sync_queue (db (snd (processSyncQueue second_request_fails
       (device (store_queue [queued 1 0 30; queued 2 0 10] empty_database) 100)))))
  /\ In (settled None (queued 2 0 10))
       (sync_queue (db (snd (processSyncQueue second_request_fails
          (device (store_queue [queued 1 0 30; queued 2 0 10] empty_database) 100))))).
Proof.
  destruct (upload_settles_every_pending_row second_request_fails
              (device (store_queue [queued 1 0 30; queued 2 0 10] empty_database) 100))
    as (_ & _ & H).
  - reflexivity.
  - intros n. reflexivity.
  - cbn. repeat constructor; cbn; intuition discriminate.
  - split.
    + apply (H 1%nat (queued 1 0 30)); reflexivity.
    + apply (H 0%nat (queued 2 0 10)); reflexivity.
Defined.


(** ** A form response and its immediate upload *)

Lemma max_id_bound (rows : list row) (r : row) : In r rows -> id_of r <= max_id rows.
Proof.
  unfold max_id. induction rows as [|x rows IH]; cbn [In fold_right]; [tauto|].
  intros [->|H]; [lia|]. specialize (IH H). lia.
Qed.

(** An INSERT that names no id into a table whose only key is its id takes
    the next AUTOINCREMENT key and is never refused for a key. *)
Lemma insert_row_fresh (ts t : string) (r : row) (d : database) :
  junction t = false -> unique_keys t = [["id"]] -> col (r ∪ defaults ts t) "id" = VNull ->
  insert_row ts t r d
  = (Return (next_id d t),
     store_rows t (tbl d t ++ [complete ts t r d]) (bump_sequence t (complete ts t r d) d)).
Proof.
  intros Hj Hu Hcol. unfold insert_row.
  assert (Hfull : complete ts t r d = <["id" := VInt (next_id d t)]> (r ∪ defaults ts t)).
  { unfold complete. cbv zeta. now rewrite Hj, Hcol. }
  assert (Hid : col (complete ts t r d) "id" = VInt (next_id d t)).
  { rewrite Hfull. unfold col. now rewrite lookup_insert_eq. }
  replace (existsb (conflicting t (complete ts t r d)) (tbl d t)) with false.
  - unfold id_of. now rewrite Hid.
  - symmetry. apply not_true_is_false. intros H.
    apply existsb_exists in H as (r' & Hin & Hc).
    unfold conflicting in Hc. rewrite Hu in Hc. cbn in Hc. rewrite Hid in Hc.
    pose proof (max_id_bound _ _ Hin) as Hb. unfold id_of in Hb.
    destruct (col r' "id") as [|n| | |]; cbn in Hc; try discriminate.
    rewrite orb_false_r, andb_true_r in Hc. apply Z.eqb_eq in Hc.
    unfold next_id in Hc. lia.
Qed.

Lemma prefix_append (s t : string) : String.prefix s (s ++ t) = true.
Proof.
  induction s as [|a s IH]; [now destruct t|].
  rewrite append_cons. cbn. destruct (Ascii.ascii_dec a a); [exact IH|contradiction].
Qed.

Lemma prefix_self (s : string) : String.prefix s s = true.
Proof. rewrite <- (append_empty s) at 2. apply prefix_append. Qed.

Section Immediate.

Variable E : env.
Hypothesis on_device : web E = false.
Hypothesis store_accepts : forall n, statement_fails E n = false.

Lemma wp_insert_fresh (ts t : string) (r : row) (Q : Z -> world -> Prop)
    (X : string -> world -> Prop) (w : world) :
  junction t = false -> unique_keys t = [["id"]] -> col (r ∪ defaults ts t) "id" = VNull ->
  (forall w1, sync_queue (db w1) = sync_queue (db w) -> requests w1 = requests w ->
              transaction w1 = transaction w -> now w1 = now w ->
              Q (next_id (db w) t) w1) ->
  wp (runAsync E (insert_row ts t r)) Q X w.
Proof.
  intros Hj Hu Hcol H. unfold wp, runAsync.
  rewrite store_accepts, (insert_row_fresh ts t r (db w) Hj Hu Hcol).
  apply H; try reflexivity. cbn. unfold bump_sequence. now rewrite Hj.
Qed.

Lemma wp_enqueue (t : string) (k : record_key) (op : operation) (data : row)
    (Q : unit -> world -> Prop) (X : string -> world -> Prop) (w : world) :
  (forall w1,
     sync_queue (db w1)
     = (sync_queue (db w) ++ [enqueued (db w) t k op data (now w)])%list ->
     requests w1 = requests w -> transaction w1 = transaction w -> now w1 = now w ->
     Q tt w1) ->
  wp (addToSyncQueue E t k op data) Q X w.
Proof.
  intros H. apply wp_addToSyncQueue; [exact on_device| |].
  - rewrite store_accepts. discriminate.
  - intros _ w1 ->. destruct (online w && negb (syncInProgress w))%bool;
      apply H; reflexivity.
Qed.

Lemma wp_send (request : request) (Q : option string -> world -> Prop)
    (X : string -> world -> Prop) (w : world) :
  Q (request_error E (requests w)) (record_request request w) -> wp (send E request) Q X w.
Proof. exact (fun H => H). Qed.

Lemma wp_enqueue_fields (r : Z) (data : Z * string -> row) (responses : list (Z * string))
    (Q : unit -> world -> Prop) (X : string -> world -> Prop) (w : world) :
  (forall w1 news,
     sync_queue (db w1) = (sync_queue (db w) ++ news)%list ->
     map sq_record_id news = map (fieldResponseId r) responses ->
     Forall (fun c => sq_table_name c = "form_field_responses" /\ is_pending c = true) news ->
     requests w1 = requests w -> transaction w1 = transaction w -> now w1 = now w ->
     Q tt w1) ->
  wp (for_of responses (fun response =>
        addToSyncQueue E "form_field_responses"
          (KeyText (Text.of_Z r ++ "_" ++ Text.of_Z (fst response))) INSERT (data response)))
     Q X w.
Proof.
  revert Q w. induction responses as [|x responses IH]; intros Q w H.
  - apply (H w []); auto. now rewrite app_nil_r.
  - cbn [for_of]. apply wp_bind, wp_enqueue. intros w1 Hq Hr Ht Hn.
    apply IH. intros w2 news Hq2 Hids Hnews Hr2 Ht2 Hn2.
    apply (H w2 (enqueued (db w) "form_field_responses"
                   (KeyText (Text.of_Z r ++ "_" ++ Text.of_Z (fst x))) INSERT (data x)
                   (now w) :: news)); try congruence.
    + rewrite Hq2, Hq, <- app_assoc. reflexivity.
    + cbn [map]. now rewrite Hids.
    + constructor; [split; reflexivity|exact Hnews].
Qed.

Lemma wp_send_fields (request : Z * string -> request) (responses : list (Z * string))
    (Q : unit -> world -> Prop) (X : string -> world -> Prop) (w : world) :
  (forall w1, db w1 = db w -> transaction w1 = transaction w ->
              requests w1 = (requests w + length responses)%nat -> Q tt w1) ->
  wp (for_of responses (fun response => send E (request response) ;; ret tt)) Q X w.
Proof.
  revert Q w. induction responses as [|x responses IH]; intros Q w H.
  - apply (H w); auto.
  - cbn [for_of]. apply wp_bind, wp_bind, wp_send, wp_ret.
    apply IH. intros w1 Hd Ht Hr. apply H; [exact Hd|exact Ht|].
    rewrite Hr. cbn. lia.
Qed.

(** What the call leaves in the outbox and what it sent. *)
Lemma createFormResponse_run (formId visitId userId : Z) (responses : list (Z * string))
    (w : world) :
  transaction w = None ->
  wp (DatabaseForms.createFormResponse E formId visitId userId responses)
     (fun a w' =>
        let r := next_id (db w) "form_responses" in
        let new_rows := skipn (length (sync_queue (db w))) (sync_queue (db w')) in
        a = r
        /\ map sq_record_id new_rows = Text.of_Z r :: map (fieldResponseId r) responses
        /\ match request_error E (requests w) with
           | None => requests w' = (requests w + 1 + length responses)%nat
                     /\ Forall (fun c => sq_synced c = true) new_rows
           | Some _ => requests w' = (requests w + 1)%nat
                       /\ Forall (fun c => is_pending c = true) new_rows
           end)
     (fun _ _ => False) w.
Proof.
  intros Htx. unfold DatabaseForms.createFormResponse.
  match goal with |- wp _ ?post _ _ => remember post as Q eqn:HQ end.
  apply wp_try_catch, wp_bind, wp_BEGIN; [intros _|intros s Hs; congruence].
  apply wp_bind, wp_gets. cbv beta.
  apply wp_bind, wp_insert_fresh; [reflexivity|reflexivity|reflexivity|].
  intros w1 Hq1 Hr1 Ht1 Hn1. cbn [db with_db requests transaction now] in *.
  set (r := next_id (db w) "form_responses") in *.
  apply wp_bind.
  apply (wp_for_of _ _ (fun w0 => sync_queue (db w0) = sync_queue (db w)
                                  /\ requests w0 = requests w
                                  /\ transaction w0 = Some (db w) /\ now w0 = now w));
    [auto| |].
  { intros x w0 _ (Hq0 & Hr0 & Ht0 & Hn0).
    apply wp_bind, wp_insert_fresh; [reflexivity|reflexivity|reflexivity|].
    intros w0' Hq0' Hr0' Ht0' Hn0'. apply wp_ret. repeat split; congruence. }
  intros w2 (Hq2 & Hr2 & Ht2 & Hn2).
  apply wp_bind, wp_COMMIT; [intros saved _|intros; congruence].
  rewrite on_device. apply wp_bind.
  apply wp_bind, wp_gets. cbv beta.
  apply wp_bind, wp_enqueue. intros w4 Hq4 Hr4 Ht4 Hn4.
  apply wp_bind, wp_enqueue_fields. intros w5 news Hq5 Hids Hnews Hr5 Ht5 Hn5.
  apply wp_try_catch, wp_bind, wp_send.
  cbn [db with_db requests transaction now] in *.
  assert (Hreq : requests w5 = requests w) by congruence.
  assert (Hqueue : sync_queue (db w5)
                   = (sync_queue (db w)
                      ++ enqueued (db w2) "form_responses" (KeyNum r) INSERT
                           {[ "form_id" := VInt formId; "visit_id" := VInt visitId;
                              "user_id" := VInt userId;
                              "created_at" := VText (toISOString E (now w2));
                              "updated_at" := VText (toISOString E (now w2)) ]} (now w2)
                         :: news)%list).
  { rewrite Hq5, Hq4, <- app_assoc. cbn [db with_db]. now rewrite Hq2. }
  clear Hq5 Hq4 Hr5 Hr4.
  rewrite Hreq. destruct (request_error E (requests w)) as [e|] eqn:Hans.
  - apply wp_ret, wp_ret. subst Q. cbv beta zeta iota.
    split; [reflexivity|]. cbn [db record_request requests].
    rewrite Hqueue, drop_app_length. cbn [map]. rewrite Hids.
    split; [reflexivity|]. split; [lia|].
    constructor; [reflexivity|]. eapply Forall_impl; [exact Hnews|]. now intros c [_ Hc].
  - apply wp_bind, wp_send_fields. intros w6 Hd6 Ht6 Hr6.
    unfold wp at 1, runAsync. rewrite store_accepts.
    cbn [DatabaseForms.mark_synced_like update_queue fst snd].
    apply wp_ret. subst Q. cbv beta zeta iota.
    split; [reflexivity|].
    cbn [db with_db count_statement requests record_request store_queue sync_queue] in *.
    rewrite Hd6. cbn [db record_request]. rewrite Hqueue, map_app.
    rewrite drop_app_length' by now rewrite length_map.
    match goal with |- context [map ?g (enqueued _ _ _ _ _ _ :: news)] => set (f := g) end.
    assert (Hkey : forall c, sq_record_id (f c) = sq_record_id c).
    { intros c. subst f. cbv beta. now destruct (_ && _)%bool. }
    assert (Hmark : forall c,
               (sq_table_name c = "form_responses"
                \/ sq_table_name c = "form_field_responses") ->
               String.prefix (Text.of_Z r) (sq_record_id c) = true ->
               sq_synced (f c) = true).
    { intros c Ht Hp. subst f. cbv beta. rewrite Hp.
      destruct Ht as [-> | ->]; reflexivity. }
    split; [|split].
    + rewrite map_map. rewrite (List.map_ext (fun c => sq_record_id (f c)) sq_record_id Hkey).
      cbn [map]. now rewrite Hids.
    + rewrite Hr6. cbn [requests record_request]. lia.
    + apply Forall_map. constructor.
      * apply Hmark; [now left|]. apply prefix_self.
      * apply List.Forall_forall. intros c Hc.
        rewrite List.Forall_forall in Hnews. destruct (Hnews c Hc) as [Ht _].
        apply Hmark; [now right|].
        assert (In (sq_record_id c) (map (fieldResponseId r) responses)) as Hin
          by (rewrite <- Hids; now apply in_map).
        apply in_map_iff in Hin as (x & <- & _). apply prefix_append.
Qed.

End Immediate.

(** X17: createFormResponse of the database layer, on a device whose store
    refuses no statement and with no transaction open, returns the new
    response's id and enqueues one outbox row for the response, under the
    id, and one for each field response, under the id, an underscore and
    the field id.  It then uploads at once.  When the remote accepts the
    insert of the response, one insert is sent for each field response and
    all the new outbox rows are marked synced, whatever the remote answered
    to the inserts of the field responses: a field response the remote
    refused is not sent again.  When the remote answers the insert of the
    response with an error, nothing more is sent and all the new rows stay
    pending. *)
Theorem immediate_upload_settles_the_new_rows (E : env) (formId visitId userId : Z)
    (responses : list (Z * string)) (w : world) :
  web E = false -> (forall n, statement_fails E n = false) -> transaction w = None ->
  let result := DatabaseForms.createFormResponse E formId visitId userId responses w in
  let r := next_id (db w) "form_responses" in
  let new_rows := skipn (length (sync_queue (db w))) (sync_queue (db (snd result))) in
  fst result = Return r
  /\ map sq_record_id new_rows = Text.of_Z r :: map (fieldResponseId r) responses
  /\ match request_error E (requests w) with
     | None => requests (snd result) = (requests w + 1 + length responses)%nat
               /\ Forall (fun c => sq_synced c = true) new_rows
     | Some _ => requests (snd result) = (requests w + 1)%nat
                 /\ Forall (fun c => is_pending c = true) new_rows
     end.
Proof.
  intros Hweb Hs Htx result r new_rows.
  pose proof (createFormResponse_run E Hweb Hs formId visitId userId responses w Htx) as H.
  subst result new_rows r. unfold wp in H.
  destruct (DatabaseForms.createFormResponse E formId visitId userId responses w)
    as [[a|e] w']; [|contradiction].
  cbn [fst snd]. destruct H as (-> & H). auto.
Qed.

Lemma immediate_upload_witness :
  Forall (fun c => sq_synced c = true)
    (skipn (length (sync_queue (db (device empty_database 100))))
       (sync_queue (db (snd (DatabaseForms.createFormResponse second_request_fails 1 1 1
                               [(5, "yes")] (device empty_database 100)))))).
Proof.
  destruct (immediate_upload_settles_the_new_rows second_request_fails 1 1 1 [(5, "yes")]
              (device empty_database 100) eq_refl (fun _ => eq_refl) eq_refl)
    as (_ & _ & H).
  exact (proj2 H).
Defined.


(** ** The id a queued field response is uploaded under *)

Lemma parseInt_fieldResponseId (r : Z) (response : Z * string) :
  parseInt (fieldResponseId r response) = Some r.
Proof. unfold fieldResponseId. apply parseInt_of_Z_then. right. eauto. Qed.

(** X18: the outbox row that createFormResponse of the database layer
    enqueues for a field response, under the record id made of the
    response id, an underscore and the field id, is uploaded by both upload
    passes (processSyncQueue and uploadFormResponses) as an upsert into
    form_field_responses of its data with [id] set to the id of the
    response: [parseInt] reads the record id up to the underscore.  All the
    field responses of one response are therefore sent under one and the
    same id, that of the response. *)
Theorem field_response_is_uploaded_under_the_response_id (E : env) (r : Z)
    (response : Z * string) (data : row) (d : database) (at_time : Z) (iso : string)
    (w : world) :
  let queued_row :=
    enqueued d "form_field_responses" (KeyText (fieldResponseId r response)) INSERT data
      at_time in
  request_of iso queued_row = Upsert "form_field_responses" (<["id" := VInt r]> data)
  /\ sent (snd (FormSync.upload_response E queued_row w))
     = (sent w ++ [Upsert "form_field_responses" (<["id" := VInt r]> data)])%list.
Proof.
  intros queued_row. subst queued_row. split.
  - unfold request_of, enqueued.
    cbn [sq_table_name sq_record_id sq_operation sq_data key_toString].
    rewrite parseInt_fieldResponseId. reflexivity.
  - unfold FormSync.upload_response, FormSync.upsert_response, enqueued.
    cbn [sq_table_name sq_record_id sq_operation sq_data sq_id key_toString].
    rewrite parseInt_fieldResponseId.
    unfold try_catch, bind, send, FormSync.raise_if, runAsync, throw, ret. cbn.
    destruct (request_error E (requests w)); cbn;
      repeat match goal with
             | |- context [statement_fails E ?n] => destruct (statement_fails E n); cbn
             end; reflexivity.
Qed.


(** ** updateUser of a user that is not there *)

Section UnknownUser.

Variable E : env.

Let never : unit -> world -> Prop := fun _ _ => False.
Let reported : string -> world -> Prop := fun e _ => In e store_errors.

(** The catch block of updateUser, entered with a store error or with no
    transaction left to roll back. *)
Lemma handler_reports (e : string) (w : world) :
  In e store_errors \/ transaction w = None ->
  wp (ROLLBACK ;; throw e) never reported w.
Proof.
  intros H. unfold wp, bind, ROLLBACK, throw.
  destruct (transaction w) eqn:Ht; cbn.
  - destruct H as [H|H]; [exact H|discriminate].
  - unfold store_errors. cbn. auto.
Qed.

Lemma wp_enqueue_in_transaction (t : string) (k : record_key) (op : operation)
    (data : row) (Q : unit -> world -> Prop) (X : string -> world -> Prop) (w : world) :
  X "SQLITE_ERROR" (count_statement w) ->
  (forall w1, transaction w1 = transaction w -> Q tt w1) ->
  wp (addToSyncQueue E t k op data) Q X w.
Proof.
  intros Hx Hq. destruct (web E) eqn:Hweb.
  - apply wp_addToSyncQueue_web; auto.
  - apply wp_addToSyncQueue; [exact Hweb|auto|].
    intros _ w1 ->. destruct (online w && negb (syncInProgress w))%bool;
      apply Hq; reflexivity.
Qed.

Ltac reports := apply handler_reports; left; unfold store_errors; cbn; auto 6.

Ltac statement :=
  apply wp_runAsync;
  [ intros _; reports
  | intros _ ? ? ?
  | intros _ ? ? ?; first [ discriminate | idtac ] ].

Lemma updateUser_unknown (id : Z) (username : string) (password : option string)
    (isAdmin : bool) (roleIds companyIds : list Z) (active : bool) (w : world) :
  Forall (fun r => id_is id r = false) (tbl (db w) "users") ->
  wp (updateUser E id username password isAdmin roleIds companyIds active)
     never reported w.
Proof.
  intros Hno. unfold updateUser.
  apply wp_try_catch, wp_bind, wp_BEGIN; [intros Htx|intros s Hs; reports].
  apply wp_bind, wp_getAllAsync. cbn [db with_db].
  rewrite (filter_nothing _ _ Hno).
  apply wp_bind, wp_gets. cbv beta.
  apply wp_bind.
  assert (Hopen : exists s, transaction (with_db (db w) (Some (db w)) w) = Some s)
    by (cbn; eauto).
  revert Hopen. generalize (with_db (db w) (Some (db w)) w). intros w0 Hopen.
  assert (Hinsert : forall ts t r (Q : Z -> world -> Prop) w1,
             (forall a w2, transaction w2 = transaction w1 -> Q a w2) ->
             wp (runAsync E (insert_row ts t r)) Q
               (fun e w' => wp (ROLLBACK ;; throw e) never reported w') w1).
  { intros ts t r Q w1 HQ. apply wp_runAsync.
    - intros _. reports.
    - intros _ a d' _. now apply HQ.
    - intros _ e d' Hins. unfold insert_row in Hins.
      destruct (existsb _ _); [injection Hins as <- _; reports|discriminate]. }
  assert (Hloop : forall t (key : Z -> record_key) (data : Z -> string -> row)
                    (current : list value) ts (ids : list Z) column
                    (Q : unit -> world -> Prop) w1,
             (exists s, transaction w1 = Some s) ->
             (forall w2, (exists s, transaction w2 = Some s) -> Q tt w2) ->
             wp (for_of ids (fun i =>
                   runAsync E (insert_row ts t {[ "user_id" := VInt id; column := VInt i ]}) ;;
                   if includes current (VInt i) then ret tt else
                   iso <- new_Date_toISOString E ;;
                   addToSyncQueue E t (key i) INSERT (data i iso)))
                Q (fun e w' => wp (ROLLBACK ;; throw e) never reported w') w1).
  { intros t key data current ts ids column Q w1 H1 HQ.
    apply (wp_for_of _ _ (fun w2 => exists s, transaction w2 = Some s));
      [exact H1| |exact HQ].
    intros i w2 _ H2. apply wp_bind, Hinsert. intros a w3 H3.
    destruct (includes current (VInt i)).
    - apply wp_ret. now rewrite H3.
    - apply wp_bind, wp_gets. apply wp_enqueue_in_transaction; [reports|].
      intros w4 H4. now rewrite H4, H3. }
  assert (Hrest : forall w1, transaction w1 = transaction w0 ->
             wp (currentRoleIds <- getAllAsync (fun d =>
                   map (fun r => col r "role_id")
                     (List.filter (fun r => sql_eq (col r "user_id") (VInt id))
                        (tbl d "user_roles"))) ;;
                 currentCompanyIds <- getAllAsync (fun d =>
                   map (fun c => col c "company_id")
                     (List.filter (fun r => sql_eq (col r "user_id") (VInt id))
                        (tbl d "user_companies"))) ;;
                 runAsync E (delete_where "user_roles"
                               (fun r => sql_eq (col r "user_id") (VInt id))) ;;
                 for_of roleIds (fun roleId =>
                   runAsync E (insert_row (current_timestamp E (now w0)) "user_roles"
                                 {[ "user_id" := VInt id; "role_id" := VInt roleId ]}) ;;
                   if includes currentRoleIds (VInt roleId) then ret tt else
                   iso <- new_Date_toISOString E ;;
                   addToSyncQueue E "user_roles"
                     (KeyText (Text.of_Z id ++ "," ++ Text.of_Z roleId)) INSERT
                     {[ "user_id" := VInt id; "role_id" := VInt roleId;
                        "created_at" := VText iso; "updated_at" := VText iso ]}) ;;
                 runAsync E (delete_where "user_companies"
                               (fun r => sql_eq (col r "user_id") (VInt id))) ;;
                 for_of companyIds (fun companyId =>
                   runAsync E (insert_row (current_timestamp E (now w0)) "user_companies"
                                 {[ "user_id" := VInt id; "company_id" := VInt companyId ]}) ;;
                   if includes currentCompanyIds (VInt companyId) then ret tt else
                   iso <- new_Date_toISOString E ;;
                   addToSyncQueue E "user_companies"
                     (KeyText (Text.of_Z id ++ "," ++ Text.of_Z companyId)) INSERT
                     {[ "user_id" := VInt id; "company_id" := VInt companyId;
                        "created_at" := VText iso; "updated_at" := VText iso ]}) ;;
                 COMMIT ;;
                 new_Date_toISOString E ;;
                 throw "TypeError: Cannot read property 'username' of undefined")
               never (fun e w' => wp (ROLLBACK ;; throw e) never reported w') w1).
  { intros w1 H1.
    apply wp_bind, wp_getAllAsync. apply wp_bind, wp_getAllAsync. cbv beta.
    apply wp_bind, wp_runAsync; [intros _; reports| |discriminate].
    intros _ a2 d2 _.
    apply wp_bind.
    apply (Hloop "user_roles" (fun i => KeyText (Text.of_Z id ++ "," ++ Text.of_Z i))
             (fun i iso => {[ "user_id" := VInt id; "role_id" := VInt i;
                              "created_at" := VText iso; "updated_at" := VText iso ]}));
      [cbn; rewrite H1; exact Hopen|].
    intros w2 H2.
    apply wp_bind, wp_runAsync; [intros _; reports| |discriminate].
    intros _ a3 d3 _.
    apply wp_bind.
    apply (Hloop "user_companies" (fun i => KeyText (Text.of_Z id ++ "," ++ Text.of_Z i))
             (fun i iso => {[ "user_id" := VInt id; "company_id" := VInt i;
                              "created_at" := VText iso; "updated_at" := VText iso ]}));
      [cbn; exact H2|].
    intros w3 [s3 H3].
    apply wp_bind, wp_COMMIT; [intros saved _|intros H; congruence].
    apply wp_bind, wp_gets. apply wp_throw, handler_reports. right. reflexivity. }
  destruct (given_text password) as [p|];
    (apply wp_runAsync; [intros _; reports| |discriminate]);
    intros _ a1 d1 _; apply Hrest; reflexivity.
Qed.

End UnknownUser.

(** X19: updateUser of an id that no row of users carries never returns,
    on any platform and whatever the store and the device do.  What it
    raises is an error of the store: the TypeError of reading
    [currentUser[0].username] is raised after COMMIT, so that the ROLLBACK
    of the catch block finds no transaction, and it is the error of that
    ROLLBACK that reaches the caller. *)
Theorem updateUser_of_unknown_user_raises (E : env) (id : Z) (username : string)
    (password : option string) (isAdmin : bool) (roleIds companyIds : list Z)
    (active : bool) (w : world) :
  Forall (fun r => id_is id r = false) (tbl (db w) "users") ->
  exists e,
    fst (updateUser E id username password isAdmin roleIds companyIds active w) = Throw e
    /\ In e store_errors.
Proof.
  intros Hno.
  pose proof (updateUser_unknown E id username password isAdmin roleIds companyIds active
                w Hno) as H.
  unfold wp in H.
  destruct (updateUser E id username password isAdmin roleIds companyIds active w)
    as [[[]|e] w']; [contradiction|].
  exists e. split; [reflexivity|exact H].
Qed.

Lemma updateUser_of_unknown_user_witness :
  exists e,
    fst (updateUser calm 9 "ana" None false [2] [] true (device empty_database 100))
    = Throw e
    /\ In e store_errors.
Proof.
  apply updateUser_of_unknown_user_raises. constructor.
Defined.


(** ** Visits: the start of a visit *)

Lemma startVisit_adds (E : env) (userId companyId roleId : Z) (latitude longitude : value)
    (noGpsSignal : bool) (w : world) :
  wp (startVisit E userId companyId roleId latitude longitude noGpsSignal)
     (fun id w' => row_added (current_timestamp E (now w)) "visits"
                     {[ "user_id" := VInt userId; "company_id" := VInt companyId;
                        "role_id" := VInt roleId;
                        "start_time" := VText (current_timestamp E (now w));
                        "latitude" := latitude; "longitude" := longitude;
                        "no_gps_signal" := flag noGpsSignal ]}
                     id (db w) (db w'))
     (fun _ _ => True) w.
Proof.
  unfold startVisit.
  apply (wp_single_insert E "visits"
           (fun ts => {[ "user_id" := VInt userId; "company_id" := VInt companyId;
                         "role_id" := VInt roleId; "start_time" := VText ts;
                         "latitude" := latitude; "longitude" := longitude;
                         "no_gps_signal" := flag noGpsSignal ]})).
  - after_commit.
  - intros. wp_steps.
Qed.

Lemma left_join_app {A : Type} (l l' : list A) (rows : list row) (on : A -> row -> bool) :
  Sql.left_join (l ++ l') rows on = (Sql.left_join l rows on ++ Sql.left_join l' rows on)%list.
Proof. unfold Sql.left_join. apply flat_map_app. Qed.

Lemma left_join_single {A : Type} (a : A) (rows : list row) (on : A -> row -> bool) :
  exists c rest, Sql.left_join [a] rows on = (a, c) :: rest.
Proof.
  unfold Sql.left_join. cbn [flat_map]. rewrite app_nil_r.
  destruct (List.filter (on a) rows) as [|m ms]; cbn; eauto.
Qed.

(** X20: startVisit does not look for a visit that is already open.  After
    it returned, getActiveVisit of the user answers with the visit that was
    open before the call, when there was one, and otherwise with the new
    visit: the row of the returned id, of that user and company. *)
Theorem started_visit_is_active (E : env) (userId companyId roleId : Z)
    (latitude longitude : value) (noGpsSignal : bool) (w : world) (visitId : Z) :
  fst (startVisit E userId companyId roleId latitude longitude noGpsSignal w)
  = Return visitId ->
  let d' := db (snd (startVisit E userId companyId roleId latitude longitude noGpsSignal w)) in
  match getActiveVisit userId (db w) with
  | Some open => getActiveVisit userId d' = Some open
  | None =>
      exists v, getActiveVisit userId d' = Some v
                /\ col v "id" = VInt visitId /\ col v "user_id" = VInt userId
                /\ col v "company_id" = VInt companyId /\ col v "end_time" = VNull
  end.
Proof.
  intros Hret d'.
  apply (wp_returns _ _ _ _ _ (startVisit_adds E userId companyId roleId latitude longitude
                                 noGpsSignal w)) in Hret.
  fold d' in Hret. clearbody d'. destruct Hret as (Ht & Hid & _ & Hother).
  remember (complete _ _ _ _) as full eqn:Hfull.
  assert (Hcols : col full "user_id" = VInt userId /\ col full "company_id" = VInt companyId
                  /\ col full "end_time" = VNull /\ live full = true
                  /\ col full "id" = VInt (id_of full)).
  { subst full. repeat split; reflexivity. }
  destruct Hcols as (Hu & Hc & He & Hl & Hi).
  unfold getActiveVisit.
  rewrite Ht, (Hother "companies") by discriminate.
  rewrite left_join_app, List.filter_app.
  destruct (left_join_single full (tbl (db w) "companies")
              (fun v c => sql_eq (col v "company_id") (col c "id"))) as (c & rest & ->).
  cbn [List.filter fst]. rewrite Hu, He, Hl. cbn [sql_eq is_null]. rewrite Z.eqb_refl.
  cbn [andb].
  destruct (List.filter _ (Sql.left_join (tbl (db w) "visits") _ _)) as [|[v0 c0] old];
    [|reflexivity].
  cbn [app]. eexists. split; [reflexivity|].
  rewrite !col_insert_ne by discriminate. subst visitId. auto.
Qed.

Lemma started_visit_witness :
  exists v,
    getActiveVisit 4
      (db (snd (startVisit calm 4 7 1 VNull VNull true (device empty_database 100))))
    = Some v
    /\ col v "id" = VInt 1 /\ col v "user_id" = VInt 4
    /\ col v "company_id" = VInt 7 /\ col v "end_time" = VNull.
Proof.
  exact (started_visit_is_active calm 4 7 1 VNull VNull true (device empty_database 100) 1
           eq_refl).
Defined.


(** ** The GROUP_CONCAT columns of getUsers and getUser, and their decoding *)

Lemma split_on_free (s : string) :
  Text.mem_char "," s = false -> Text.split_on "," s = [s].
Proof.
  induction s as [|c s IH]; [reflexivity|].
  cbn [Text.mem_char Text.split_on]. intros H. apply orb_false_iff in H as [Hc Hs].
  rewrite Hc, (IH Hs). reflexivity.
Qed.

Lemma split_on_sep (s t : string) :
  Text.mem_char "," s = false ->
  Text.split_on "," (s ++ String "," t) = s :: Text.split_on "," t.
Proof.
  induction s as [|c s IH]; [reflexivity|].
  cbn [Text.mem_char]. intros H. apply orb_false_iff in H as [Hc Hs].
  rewrite append_cons. cbn [Text.split_on]. rewrite Hc, (IH Hs). reflexivity.
Qed.

Lemma join_cons (x y : string) (rest : list string) :
  Text.join "," (x :: y :: rest) = x ++ String "," (Text.join "," (y :: rest)).
Proof. reflexivity. Qed.

Lemma split_join (xs : list string) :
  xs <> [] -> Forall (fun x => Text.mem_char "," x = false) xs ->
  Text.split_on "," (Text.join "," xs) = xs.
Proof.
  induction xs as [|x [|y rest] IH]; intros Hne Hfree; [contradiction| |].
  - apply split_on_free. now inversion Hfree.
  - rewrite join_cons. inversion Hfree as [|? ? Hx Hrest]; subst.
    rewrite (split_on_sep _ _ Hx), IH; [reflexivity|discriminate|exact Hrest].
Qed.

Lemma join_app (l1 l2 : list string) :
  l1 <> [] -> l2 <> [] ->
  Text.join "," (l1 ++ l2) = Text.join "," l1 ++ String "," (Text.join "," l2).
Proof.
  induction l1 as [|x [|y rest] IH]; intros H1 H2; [contradiction| |].
  - destruct l2 as [|z l2]; [contradiction|]. reflexivity.
  - change ((x :: y :: rest) ++ l2)%list with (x :: (y :: rest) ++ l2)%list.
    change ((y :: rest) ++ l2)%list with (y :: rest ++ l2)%list at 1.
    rewrite join_cons.
    change (y :: rest ++ l2)%list with ((y :: rest) ++ l2)%list.
    rewrite IH by (discriminate || exact H2).
    rewrite join_cons. generalize (Text.join "," (y :: rest)). intros s.
    generalize (String "," (Text.join "," l2)). intros t.
    clear. induction x as [|c x IHx]; [reflexivity|].
    rewrite !append_cons. now rewrite IHx.
Qed.

Lemma join_concat (ls : list (list string)) :
  Forall (fun l => l <> []) ls ->
  Text.join "," (map (Text.join ",") ls) = Text.join "," (concat ls).
Proof.
  induction ls as [|l [|l' ls] IH]; intros H; [reflexivity| |].
  - cbn. now rewrite app_nil_r.
  - inversion H as [|? ? Hl Hrest]; subst.
    change (map (Text.join ",") (l :: l' :: ls))
      with (Text.join "," l :: Text.join "," l' :: map (Text.join ",") ls).
    rewrite join_cons.
    change (Text.join "," l' :: map (Text.join ",") ls)
      with (map (Text.join ",") (l' :: ls)).
    rewrite (IH Hrest).
    change (concat (l :: l' :: ls)) with (l ++ concat (l' :: ls))%list.
    rewrite (join_app l); [reflexivity|exact Hl|].
    inversion Hrest; subst. destruct l'; [contradiction|discriminate].
Qed.

Section Stride.

Local Open Scope nat_scope.

Variable n : nat.
Hypothesis n_positive : (0 < n)%nat.

Lemma block_starts (k : nat) :
  List.filter (fun i => Nat.eqb (i mod n) 0) (seq (n * k) n) = [(n * k)%nat].
Proof.
  assert (H : forall m, n = S m ->
            List.filter (fun i => Nat.eqb (i mod n) 0) (seq (n * k) (S m)) = [(n * k)%nat]).
  { intros m Hm. cbn [seq List.filter].
    assert (H0 : (n * k) mod n = 0) by (rewrite Nat.mul_comm; apply Nat.Div0.mod_mul).
    rewrite H0. cbn [Nat.eqb]. f_equal.
    assert (Hall : Forall (fun i => Nat.eqb (i mod n) 0 = false) (seq (S (n * k)) m)).
    { apply List.Forall_forall. intros i Hi.
      apply in_seq in Hi. apply Nat.eqb_neq. intros Hmod.
      pose proof (Nat.Div0.div_mod i n) as Hdiv. rewrite Hmod in Hdiv.
      destruct (Nat.le_gt_cases (i / n) k) as [Hq|Hq].
      - pose proof (Nat.mul_le_mono_l _ _ n Hq). lia.
      - pose proof (Nat.mul_le_mono_l _ _ n Hq). lia. }
    induction Hall as [|i l Hi _ IH]; cbn [List.filter]; [reflexivity|]. now rewrite Hi. }
  destruct (Nat.lt_exists_pred 0 n n_positive) as (m & Hm & _).
  replace (seq (n * k) n) with (seq (n * k) (S m)) by (now rewrite <- Hm).
  now apply H.
Qed.

Lemma stride_blocks (m k : nat) :
  List.filter (fun i => Nat.eqb (i mod n) 0) (seq (n * k) (n * m))
  = map (fun j => (n * j)%nat) (seq k m).
Proof.
  revert k. induction m as [|m IH]; intros k.
  - rewrite Nat.mul_0_r. reflexivity.
  - replace (n * S m)%nat with (n + n * m)%nat by lia.
    rewrite seq_app, List.filter_app, block_starts.
    replace (n * k + n)%nat with (n * S k)%nat by lia.
    rewrite IH. reflexivity.
Qed.

Context {B : Type} `{EqDecision B}.
Variable fields : B -> list string.
Variable build : list string -> nat -> row.
Variable obj : B -> row.
Variable well_formed : B -> Prop.

Hypothesis fields_length : forall b, length (fields b) = n.
Hypothesis build_fields : forall pre b post,
  build (pre ++ fields b ++ post)%list (length pre) = obj b.
Hypothesis fields_free : forall b,
  well_formed b -> Forall (fun x => Text.mem_char "," x = false) (fields b).
Hypothesis fields_inj : forall x y, fields x = fields y -> x = y.
Hypothesis fields_head : forall b, exists c s, Text.join "," (fields b) = String c s.

Lemma build_blocks (bs : list B) (pre : list string) (k : nat) :
  length pre = (n * k)%nat ->
  map (build (pre ++ concat (map fields bs))%list) (map (fun j => (n * j)%nat) (seq k (length bs)))
  = map obj bs.
Proof.
  revert pre k. induction bs as [|b bs IH]; intros pre k Hpre; [reflexivity|].
  cbn [map concat length seq]. f_equal.
  - rewrite <- Hpre. apply build_fields.
  - rewrite app_assoc. apply IH. rewrite length_app, fields_length. lia.
Qed.

Lemma fields_nonempty (b : B) : fields b <> [].
Proof. intros H. pose proof (fields_length b) as Hl. rewrite H in Hl. cbn in Hl. lia. Qed.

Lemma decode_blocks (bs : list B) :
  bs <> [] -> Forall well_formed bs ->
  decode n build (VText (Text.join "," (map (fun b => Text.join "," (fields b)) bs)))
  = map obj bs.
Proof.
  intros Hne Hwf. unfold decode.
  rewrite <- (map_map fields (Text.join ",")).
  rewrite join_concat
    by (apply List.Forall_forall; intros l Hl; apply in_map_iff in Hl as (b & <- & _);
        apply fields_nonempty).
  assert (Hparts : concat (map fields bs) <> []).
  { destruct bs as [|b bs]; [contradiction|]. cbn [map concat].
    pose proof (fields_nonempty b). destruct (fields b); [contradiction|discriminate]. }
  assert (Hfree : Forall (fun x => Text.mem_char "," x = false) (concat (map fields bs))).
  { apply List.Forall_forall. intros x Hx. apply in_concat in Hx as (l & Hl & Hx).
    apply in_map_iff in Hl as (b & <- & Hb).
    rewrite List.Forall_forall in Hwf. specialize (fields_free b (Hwf b Hb)).
    rewrite List.Forall_forall in fields_free. now apply fields_free. }
  assert (Hs : String.eqb (Text.join "," (concat (map fields bs))) "" = false).
  { apply String.eqb_neq. intros Hempty.
    apply (f_equal (Text.split_on ",")) in Hempty.
    rewrite (split_join _ Hparts Hfree) in Hempty. cbn in Hempty.
    destruct bs as [|b bs]; [contradiction|]. cbn [map concat] in Hempty.
    destruct (fields_head b) as (c & s & Hb).
    pose proof (fields_nonempty b) as Hb0.
    destruct (fields b) as [|x [|y l]] eqn:Hf; [contradiction| |].
    - cbn in Hb. subst x. destruct (concat (map fields bs)); discriminate.
    - discriminate. }
  rewrite Hs, (split_join _ Hparts Hfree).
  assert (Hlen : length (concat (map fields bs)) = (n * length bs)%nat).
  { clear -fields_length. induction bs as [|b bs IH]; cbn [map concat length]; [lia|].
    rewrite length_app, fields_length, IH. lia. }
  unfold stride_starts. rewrite Hlen.
  pose proof (stride_blocks (length bs) 0) as Hstride.
  rewrite Nat.mul_0_r in Hstride. rewrite Hstride.
  apply (build_blocks bs [] 0). cbn. lia.
Qed.

Lemma first_occurrences_In (l : list B) (b : B) : In b (first_occurrences l) -> In b l.
Proof.
  revert b. induction l as [|x l IH]; intros b; cbn [first_occurrences In]; [tauto|].
  intros [->|H]; [now left|]. apply filter_In in H as [H _]. right. now apply IH.
Qed.

Lemma non_null_some (l : list string) : Sql.non_null (map Some l) = l.
Proof. induction l as [|x l IH]; cbn; [reflexivity|]. now rewrite IH. Qed.

Lemma dedup_texts (l : list B) :
  Forall well_formed l ->
  Sql.dedup (map (fun b => Text.join "," (fields b)) l)
  = map (fun b => Text.join "," (fields b)) (first_occurrences l).
Proof.
  induction 1 as [|x l Hx Hl IH]; [reflexivity|].
  cbn [map Sql.dedup first_occurrences]. f_equal. rewrite IH.
  assert (Hsub : Forall well_formed (first_occurrences l)).
  { apply List.Forall_forall. intros b Hb. rewrite List.Forall_forall in Hl.
    apply Hl. now apply first_occurrences_In. }
  clear IH. induction Hsub as [|y l' Hy _ IH']; [reflexivity|].
  cbn [map List.filter]. rewrite IH'.
  assert (Heq : String.eqb (Text.join "," (fields x)) (Text.join "," (fields y))
                = bool_decide (x = y)).
  { destruct (String.eqb_spec (Text.join "," (fields x)) (Text.join "," (fields y)))
      as [He|He].
    - apply (f_equal (Text.split_on ",")) in He.
      rewrite !split_join in He by (auto using fields_nonempty).
      symmetry. apply bool_decide_eq_true. now apply fields_inj.
    - symmetry. apply bool_decide_eq_false. intros ->. now apply He. }
  rewrite Heq. now destruct (bool_decide (x = y)).
Qed.

(** Decoding the GROUP_CONCAT(DISTINCT ...) of records whose fields hold
    no comma gives back the distinct records. *)
Lemma decode_group_concat (l : list B) :
  Forall well_formed l ->
  decode n build
    (Sql.group_concat_distinct (map (fun b => Some (Text.join "," (fields b))) l))
  = map obj (first_occurrences l).
Proof.
  intros Hwf. unfold Sql.group_concat_distinct.
  rewrite <- (map_map (fun b => Text.join "," (fields b)) Some), non_null_some.
  rewrite (dedup_texts l Hwf).
  destruct l as [|x l]; [reflexivity|].
  remember (first_occurrences (x :: l)) as bs eqn:Hbs.
  assert (Hne : bs <> []) by (subst bs; discriminate).
  assert (Hsub : Forall well_formed bs).
  { apply List.Forall_forall. intros b Hb. rewrite List.Forall_forall in Hwf.
    apply Hwf. apply first_occurrences_In. now rewrite <- Hbs. }
  clear Hbs. rewrite <- (decode_blocks bs Hne Hsub).
  destruct bs as [|b bs]; [contradiction|]. reflexivity.
Qed.

End Stride.

(** *** The text of an integer *)

Lemma uint_comma_free (d : uint) : Text.mem_char "," (NilEmpty.string_of_uint d) = false.
Proof. induction d; cbn [NilEmpty.string_of_uint Text.mem_char]; [reflexivity|..]; exact IHd. Qed.

Lemma of_Z_comma_free (n : Z) : Text.mem_char "," (Text.of_Z n) = false.
Proof.
  unfold Text.of_Z, NilZero.string_of_int, NilZero.string_of_uint.
  destruct n as [|p|p]; cbn [Z.to_int]; [reflexivity| |].
  - destruct (Pos.to_uint p) eqn:Hp; try reflexivity; rewrite <- Hp; apply uint_comma_free.
  - cbn [Text.mem_char].
    destruct (Pos.to_uint p) eqn:Hp; try reflexivity; rewrite <- Hp; apply uint_comma_free.
Qed.

Lemma of_Z_head (n : Z) (rest : string) : exists c s, Text.of_Z n ++ rest = String c s.
Proof.
  unfold Text.of_Z, NilZero.string_of_int, NilZero.string_of_uint.
  destruct n as [|p|p]; cbn [Z.to_int]; [eauto| |eauto].
  pose proof (DecimalPos.Unsigned.to_uint_nonnil p) as Hp.
  destruct (Pos.to_uint p); [contradiction|..]; eauto.
Qed.

Lemma parseInt10_of_Z (n : Z) : parseInt10 (Text.of_Z n) = Some n.
Proof.
  assert (Hu : forall d, d <> Nil ->
             Text.digits_prefix None (NilEmpty.string_of_uint d)
             = Some (Z.of_N (Pos.of_uint d))
             /\ Text.skip_spaces (NilEmpty.string_of_uint d) = NilEmpty.string_of_uint d
             /\ exists c s, NilEmpty.string_of_uint d = String c s
                            /\ Text.is_digit c = true).
  { intros d Hd.
    assert (H0 := digits_prefix_uint d "" (or_introl eq_refl)).
    rewrite append_empty in H0.
    destruct d as [|d|d|d|d|d|d|d|d|d|d]; [contradiction|..];
      (split; [exact H0|split; [reflexivity|eexists; eexists; split; reflexivity]]). }
  unfold Text.of_Z, NilZero.string_of_int, NilZero.string_of_uint.
  destruct n as [|p|p]; cbn [Z.to_int].
  - reflexivity.
  - assert (Hd : Pos.to_uint p <> Nil) by apply DecimalPos.Unsigned.to_uint_nonnil.
    destruct (Hu _ Hd) as (H1 & H2 & c & s & Hs & Hc).
    replace (match Pos.to_uint p with Nil => "0" | _ => NilEmpty.string_of_uint (Pos.to_uint p) end)
      with (NilEmpty.string_of_uint (Pos.to_uint p)) by (now destruct (Pos.to_uint p)).
    unfold parseInt10. rewrite H2. rewrite Hs in *.
    assert (Hsign : c <> "-"%char /\ c <> "+"%char).
    { split; intros ->; discriminate. }
    destruct Hsign as [Hm Hp].
    replace (match String c s with
             | String "-" r => option_map Z.opp (Text.digits_prefix None r)
             | String "+" r => Text.digits_prefix None r
             | t => Text.digits_prefix None t
             end) with (Text.digits_prefix None (String c s)).
    + rewrite H1, DecimalPos.Unsigned.of_to. reflexivity.
    + destruct c as [[] [] [] [] [] [] [] []]; try reflexivity; congruence.
  - assert (Hd : Pos.to_uint p <> Nil) by apply DecimalPos.Unsigned.to_uint_nonnil.
    destruct (Hu _ Hd) as (H1 & _).
    replace (match Pos.to_uint p with Nil => "0" | _ => NilEmpty.string_of_uint (Pos.to_uint p) end)
      with (NilEmpty.string_of_uint (Pos.to_uint p)) by (now destruct (Pos.to_uint p)).
    unfold parseInt10. cbn [Text.skip_spaces].
    change (Text.is_space "-") with false. cbv iota.
    rewrite H1, DecimalPos.Unsigned.of_to. reflexivity.
Qed.

Lemma int_at_of_Z (pre post : list string) (n : Z) :
  int_at (pre ++ Text.of_Z n :: post)%list (length pre) = Some (VInt n).
Proof.
  unfold int_at. rewrite List.nth_error_app2, Nat.sub_diag by lia.
  cbn [nth_error]. now rewrite parseInt10_of_Z.
Qed.

Lemma text_at_after (pre mid post : list string) (s : string) :
  text_at (pre ++ mid ++ s :: post)%list (length pre + length mid) = Some (VText s).
Proof.
  unfold text_at. rewrite app_assoc, List.nth_error_app2 by (rewrite length_app; lia).
  rewrite length_app, Nat.sub_diag. reflexivity.
Qed.

Lemma text_at_1 (pre post : list string) (a s : string) :
  text_at (pre ++ a :: s :: post)%list (length pre + 1) = Some (VText s).
Proof. exact (text_at_after pre [a] post s). Qed.

Lemma text_at_2 (pre post : list string) (a b s : string) :
  text_at (pre ++ a :: b :: s :: post)%list (length pre + 2) = Some (VText s).
Proof. exact (text_at_after pre [a; b] post s). Qed.

Lemma of_Z_inj (a b : Z) : Text.of_Z a = Text.of_Z b -> a = b.
Proof.
  intros H. apply (f_equal parseInt10) in H. rewrite !parseInt10_of_Z in H. congruence.
Qed.

Lemma decode_columns (roles : list (Z * string))
    (companies : list (Z * string * option string)) :
  Forall (fun role => Text.mem_char "," (snd role) = false) roles ->
  Forall (fun company => Text.mem_char "," (snd (fst company)) = false
                         /\ Text.mem_char "," (default "" (snd company)) = false)
    companies ->
  decode_roles (Sql.group_concat_distinct (map role_text roles))
  = map role_object (first_occurrences roles)
  /\ decode_companies (Sql.group_concat_distinct (map company_text companies))
     = map company_object (first_occurrences (map coalesced companies)).
Proof.
  intros Hroles Hcompanies. split.
  - unfold decode_roles.
    assert (Hmap : map role_text roles
                   = map (fun role : Z * string =>
                            Some (Text.join "," [Text.of_Z (fst role); snd role])) roles).
    { apply List.map_ext. intros [i name].
      unfold role_text. cbn [sql_concat sql_text fst snd].
      now rewrite append_empty. }
    rewrite Hmap.
    apply (decode_group_concat 2 ltac:(lia)
             (fun role : Z * string => [Text.of_Z (fst role); snd role])
             _ role_object
             (fun role => Text.mem_char "," (snd role) = false)).
    + reflexivity.
    + intros pre [i name] post. unfold role_object. cbn [fst snd app].
      now rewrite int_at_of_Z, text_at_1.
    + intros [i name] H. cbn [fst snd] in *.
      repeat constructor; [apply of_Z_comma_free|exact H].
    + intros [i name] [j name'] [= Hi ->]. now rewrite (of_Z_inj _ _ Hi).
    + intros [i name]. cbn [fst snd]. rewrite join_cons. apply of_Z_head.
    + exact Hroles.
  - unfold decode_companies.
    assert (Hmap : map company_text companies
                   = map (fun c : Z * string * string =>
                            Some (Text.join "," [Text.of_Z (fst (fst c)); snd (fst c); snd c]))
                       (map coalesced companies)).
    { rewrite map_map. apply List.map_ext. intros [[i name] description].
      unfold company_text, coalesced. cbn [sql_concat sql_text fst snd].
      now rewrite append_empty. }
    rewrite Hmap.
    apply (decode_group_concat 3 ltac:(lia)
             (fun c : Z * string * string => [Text.of_Z (fst (fst c)); snd (fst c); snd c])
             _ company_object
             (fun c => Text.mem_char "," (snd (fst c)) = false
                       /\ Text.mem_char "," (snd c) = false)).
    + reflexivity.
    + intros pre [[i name] description] post. unfold company_object. cbn [fst snd app].
      now rewrite int_at_of_Z, text_at_1, text_at_2.
    + intros [[i name] description] [H1 H2]. cbn [fst snd] in *.
      repeat constructor; [apply of_Z_comma_free|exact H1|exact H2].
    + intros [[i name] description] [[j name'] description'] [= Hi -> ->].
      now rewrite (of_Z_inj _ _ Hi).
    + intros [[i name] description]. cbn [fst snd]. rewrite join_cons. apply of_Z_head.
    + apply List.Forall_forall. intros c Hc. apply in_map_iff in Hc as (c0 & <- & Hc0).
      rewrite List.Forall_forall in Hcompanies. exact (Hcompanies c0 Hc0).
Qed.

Lemma non_null_present {A : Type} (f : A -> option string) (l : list (option A)) :
  Sql.non_null (map (fun o => match o with Some a => f a | None => None end) l)
  = Sql.non_null (map f (present l)).
Proof.
  induction l as [|[a|] l IH]; cbn [map present Sql.non_null]; [reflexivity| |exact IH].
  destruct (f a); [now rewrite IH|exact IH].
Qed.

Lemma present_Forall {A : Type} (P : A -> Prop) (l : list (option A)) :
  Forall (fun o => match o with Some a => P a | None => True end) l ->
  Forall P (present l).
Proof. induction 1 as [|[a|] l Ha _ IH]; cbn [present]; auto. Qed.

(** X21: the roles and companies that getUsers and getUser decode from
    the two GROUP_CONCAT(DISTINCT ...) columns of a user are the roles and
    companies of the rows joined to that user, each once and in the order
    of their first row, as long as no role name, company name or company
    description holds a comma: a role is read back with its id and name, a
    company with its id, its name and its description, a NULL description
    as the empty text, and a user without role or without company gets the
    empty list. *)
Theorem joined_roles_and_companies_are_decoded (g : user_join * list user_join)
    (roles : list (option (Z * string)))
    (companies : list (option (Z * string * option string))) :
  map joined_role (Sql.members g) = map role_values roles ->
  map joined_company (Sql.members g) = map company_values companies ->
  Forall (fun role => Text.mem_char "," (snd role) = false) (present roles) ->
  Forall (fun company => Text.mem_char "," (snd (fst company)) = false
                         /\ Text.mem_char "," (default "" (snd company)) = false)
    (present companies) ->
  user_roles (user_of_row (user_result g))
  = map role_object (first_occurrences (present roles))
  /\ user_companies (user_of_row (user_result g))
     = map company_object (first_occurrences (map coalesced (present companies))).
Proof.
  intros Hr Hc Hroles Hcompanies.
  destruct (decode_columns (present roles) (present companies) Hroles Hcompanies)
    as [H1 H2].
  unfold user_of_row, user_result. cbn [user_roles user_companies].
  unfold col at 1. rewrite lookup_insert_eq. cbn [default].
  rewrite (col_insert_ne _ "roles" "companies") by discriminate.
  unfold col at 1. rewrite lookup_insert_eq. cbn [default].
  rewrite <- H1, <- H2. unfold Sql.group_concat_distinct. split.
  - match goal with
    | |- context [map ?f (Sql.members g)] =>
        assert (Hmap : map f (Sql.members g)
                       = map (fun o => match o with
                                       | Some a => role_text a
                                       | None => None
                                       end) roles)
    end.
    { transitivity (map (fun p => sql_concat [sql_text (fst p); Some ","; sql_text (snd p)])
                      (map joined_role (Sql.members g))).
      - rewrite map_map. reflexivity.
      - rewrite Hr, map_map. apply List.map_ext. now intros [[i name]|]. }
    rewrite Hmap, non_null_present. reflexivity.
  - match goal with
    | |- context [map ?f (Sql.members g)] =>
        assert (Hmap : map f (Sql.members g)
                       = map (fun o => match o with
                                       | Some a => company_text a
                                       | None => None
                                       end) companies)
    end.
    { transitivity (map (fun p => sql_concat [sql_text (fst (fst p)); Some ",";
                                              sql_text (snd (fst p)); Some ",";
                                              Some (default "" (sql_text (snd p)))])
                      (map joined_company (Sql.members g))).
      - rewrite map_map. reflexivity.
      - rewrite Hc, map_map. apply List.map_ext.
        now intros [[[i name] [description|]]|]. }
    rewrite Hmap, non_null_present. reflexivity.
Qed.

Lemma joined_roles_and_companies_witness :
  user_roles (user_of_row (user_result
    ((local_user 4 "ana" 0 VNull,
      Some {[ "user_id" := VInt 4; "role_id" := VInt 2 ]},
      Some {[ "id" := VInt 2; "name" := VText "usuario" ]},
      Some {[ "user_id" := VInt 4; "company_id" := VInt 1 ]},
      Some {[ "id" := VInt 1; "name" := VText "AWS" ]}), [])))
  = [role_object (2, "usuario")]
  /\ user_companies (user_of_row (user_result
       ((local_user 4 "ana" 0 VNull,
         Some {[ "user_id" := VInt 4; "role_id" := VInt 2 ]},
         Some {[ "id" := VInt 2; "name" := VText "usuario" ]},
         Some {[ "user_id" := VInt 4; "company_id" := VInt 1 ]},
         Some {[ "id" := VInt 1; "name" := VText "AWS" ]}), [])))
     = [company_object (1, "AWS", "")].
Proof.
  apply (joined_roles_and_companies_are_decoded _ [Some (2, "usuario")]
           [Some (1, "AWS", None)]).
  - reflexivity.
  - reflexivity.
  - repeat constructor.
  - repeat constructor.
Defined.


(** ** downloadForms and the forms that are on the device *)

Lemma sql_eq_eq (a b : value) : sql_eq a b = true -> a = b.
Proof.
  destruct a, b; cbn; try discriminate; intros H.
  - apply Z.eqb_eq in H. now subst.
  - apply String.eqb_eq in H. now subst.
  - apply String.eqb_eq in H. now subst.
Qed.

Lemma ids_kept_upsert (t : string) (d0 : database) (rows : list row) (full : row) :
  unique_keys t = [["id"]] -> live full = true ->
  (forall r, In r (tbl d0 t) ->
             exists r', In r' rows /\ col r' "id" = col r "id"
                        /\ (live r = true -> live r' = true)) ->
  forall r, In r (tbl d0 t) ->
            exists r', In r' (upsert_rows t rows full) /\ col r' "id" = col r "id"
                       /\ (live r = true -> live r' = true).
Proof.
  intros Hu Hlive H r Hr. destruct (H r Hr) as (r1 & Hin & Hid & Hl).
  unfold upsert_rows. destruct (conflicting t full r1) eqn:Hc.
  - exists full. split; [apply in_or_app; right; now left|].
    unfold conflicting in Hc. rewrite Hu in Hc. cbn in Hc.
    rewrite orb_false_r, andb_true_r in Hc. apply sql_eq_eq in Hc.
    split; [congruence|auto].
  - exists r1. split; [|auto]. apply in_or_app. left. apply filter_In.
    now rewrite Hc.
Qed.

Lemma wp_select_active (E : env) (t : string) (Q : list row * option string -> world -> Prop)
    (X : string -> world -> Prop) (w : world) :
  (forall e, request_error E (requests w) = Some e ->
             Q ([], Some e) (record_request (SelectActive t) w)) ->
  (request_error E (requests w) = None ->
   Q (active_rows (remote w) t, None) (record_request (SelectActive t) w)) ->
  wp (select_active E t) Q X w.
Proof.
  intros H1 H2. unfold wp, select_active.
  destruct (request_error E (requests w)); auto.
Qed.

Lemma active_rows_live (store : gmap string (list row)) (t : string) (record : row) :
  In record (active_rows store t) -> col record "deleted_at" = VNull.
Proof.
  unfold active_rows. intros H. apply filter_In in H as [_ H].
  now destruct (col record "deleted_at").
Qed.

Lemma live_form (ts : string) (record : row) (d : database) :
  col record "deleted_at" = VNull ->
  live (complete ts "forms" (FormSync.form_columns record) d) = true.
Proof.
  intros H. unfold complete, FormSync.form_columns. rewrite H.
  generalize (bind_param (col record "id")) (bind_param (col record "name"))
    (bind_param (col record "description")) (bind_param (col record "created_at"))
    (bind_param (col record "updated_at")).
  intros v1 v2 v3 v4 v5. cbv zeta.
  destruct (_ && _)%bool; reflexivity.
Qed.

Lemma wp_isOnline (E : env) (Q : bool -> world -> Prop) (X : string -> world -> Prop)
    (w : world) :
  (forall b, Q b w) -> wp (isOnline E) Q X w.
Proof. intros H. unfold wp, isOnline. destruct (web E); apply H. Qed.

Section FormsKept.

Variable E : env.
Variable w : world.
Hypothesis no_transaction : transaction w = None.

Let K (d : database) : Prop := ids_kept "forms" (db w) d.
Let inside (w' : world) : Prop := K (db w') /\ exists s, transaction w' = Some s /\ K s.
Let outside (w' : world) : Prop := K (db w') /\ transaction w' = None.
Let done : unit -> world -> Prop := fun _ w' => K (db w').
Let failed : string -> world -> Prop := fun _ w' => K (db w').
Let caught : string -> world -> Prop := fun error w' =>
  wp (try_catch ROLLBACK (fun _ => ret tt) ;; throw error) done failed w'.

Lemma K_start : K (db w).
Proof. intros r Hr. exists r. auto. Qed.

Lemma caught_inside (e : string) (w' : world) : inside w' -> caught e w'.
Proof.
  intros (_ & s & Hs & Hk). unfold caught, wp, bind, try_catch, ROLLBACK, ret, throw.
  rewrite Hs. exact Hk.
Qed.

Lemma caught_outside (e : string) (w' : world) : outside w' -> caught e w'.
Proof.
  intros (Hk & Hn). unfold caught, wp, bind, try_catch, ROLLBACK, ret, throw.
  rewrite Hn. exact Hk.
Qed.

Lemma store_all_inside (t' : string) (columns : row -> row) (records : list row)
    (Q : unit -> world -> Prop) (w0 : world) :
  (t' = "forms" -> forall record ts d, In record records ->
                                       live (complete ts t' (columns record) d) = true) ->
  inside w0 -> (forall w1, inside w1 -> Q tt w1) ->
  wp (FormSync.store_all E t' columns records) Q caught w0.
Proof.
  intros Hlive H0 HQ. unfold FormSync.store_all.
  apply (wp_for_of _ _ inside); [exact H0| |exact HQ].
  intros record w1 Hrec H1. apply wp_bind, wp_gets. cbv beta.
  apply wp_bind, wp_runAsync.
  - intros _. apply caught_inside. exact H1.
  - intros _ a d' Hins. apply wp_ret.
    destruct H1 as (Hk & s & Hs & Hks). split; [|exists s; split; [exact Hs|exact Hks]].
    cbn [db with_db].
    pose proof (insert_or_replace_effect (current_timestamp E (now w1)) t'
                  (columns record) (db w1)) as Heff.
    rewrite Hins in Heff. destruct Heff as (Hother & _ & Hthis).
    destruct (String.eqb_spec t' "forms") as [->|Hne].
    + intros r Hr. rewrite (Hthis a eq_refl).
      apply (ids_kept_upsert "forms" (db w)); [reflexivity|now apply Hlive|exact Hk|exact Hr].
    + intros r Hr. unfold tbl. rewrite (Hother "forms") by congruence. now apply Hk.
  - intros _ e d' _. apply caught_inside. exact H1.
Qed.

Lemma downloadForms_operation_keeps :
  wp (FormSync.downloadForms_operation E) done failed w.
Proof.
  unfold FormSync.downloadForms_operation.
  apply wp_bind, wp_isOnline. intros b. destruct b; cbn [negb]; [|apply wp_ret, K_start].
  {
    apply wp_try_catch. fold caught.
    assert (Hout : forall r1 r2 r3,
               outside (record_request r3 (record_request r2 (record_request r1 w)))
               /\ outside (record_request r2 (record_request r1 w))
               /\ outside (record_request r1 w)).
    { intros r1 r2 r3. repeat split; try apply K_start; exact no_transaction. }
    apply wp_bind, wp_select_active; [intros e _|intros _]; cbv beta; cbn [fst snd].
    { apply wp_bind, wp_throw, caught_outside, (Hout (SelectActive "forms") (SelectActive "forms")
                                                  (SelectActive "forms")). }
    apply wp_bind, wp_ret.
    apply wp_bind, wp_select_active; [intros e _|intros _]; cbv beta; cbn [fst snd].
    { apply wp_bind, wp_throw, caught_outside, (Hout (SelectActive "forms")
                                                  (SelectActive "form_fields")
                                                  (SelectActive "form_fields")). }
    apply wp_bind, wp_ret.
    apply wp_bind, wp_select_active; [intros e _|intros _]; cbv beta; cbn [fst snd].
    { apply wp_bind, wp_throw, caught_outside, (Hout (SelectActive "forms")
                                                  (SelectActive "form_fields")
                                                  (SelectActive "form_companies")). }
    apply wp_bind, wp_ret.
    cbn [remote record_request].
    apply wp_bind, wp_BEGIN; [intros _|intros s Hs; cbn in Hs; congruence].
    apply wp_bind, store_all_inside.
    { intros _ record ts d Hrec. apply live_form. eapply active_rows_live, Hrec. }
    { split; [apply K_start|]. exists (db w). split; [reflexivity|apply K_start]. }
    intros w1 H1.
    apply wp_bind, store_all_inside; [|exact H1|].
    { intros Heq. discriminate Heq. }
    intros w2 H2.
    apply wp_bind, store_all_inside; [|exact H2|].
    { intros Heq. discriminate Heq. }
    intros w3 (Hk3 & s3 & Hs3 & _).
    apply wp_bind, wp_COMMIT; [intros saved _|intros Hn; congruence].
    apply wp_bind, wp_gets. apply wp_bind. unfold AsyncStorage_setItem. apply wp_modify.
    apply wp_bind, wp_getAllAsync. apply wp_ret. exact Hk3. }
Qed.

End FormsKept.

(** X22: downloadForms, called with no transaction open, never takes a
    form off the device and never marks one as deleted: whether it returns
    or raises, every row that forms held before still has a row of its id
    afterwards, and one without a deletion mark if it had none.  It fetches
    the remote forms that have no deletion mark and replaces local rows by
    them, so a form that was deleted at the remote stays live on the
    device. *)
Theorem downloadForms_removes_no_form (E : env) (w : world) (r : row) :
  transaction w = None -> In r (tbl (db w) "forms") ->
  exists r', In r' (tbl (db (snd (FormSync.downloadForms E w))) "forms")
             /\ col r' "id" = col r "id"
             /\ (live r = true -> live r' = true).
Proof.
  intros Htx Hr. unfold FormSync.downloadForms.
  destruct (web E); [exists r; auto|].
  pose proof (downloadForms_operation_keeps E w Htx) as H. unfold wp in H.
  destruct (FormSync.downloadForms_operation E w) as [[[]|e] w']; cbn [snd];
    exact (H r Hr).
Qed.

Lemma downloadForms_removes_no_form_witness :
  exists r', In r' (tbl (db (snd (FormSync.downloadForms calm form_deleted_remotely))) "forms")
             /\ col r' "id" = VInt 5 /\ live r' = true.
Proof.
  destruct (downloadForms_removes_no_form calm form_deleted_remotely
              (form_row 5 "old" VNull)) as (r' & Hin & Hid & Hlive).
  - reflexivity.
  - left. reflexivity.
  - exists r'. split; [exact Hin|]. split; [exact Hid|]. now apply Hlive.
Defined.


(** ** updateUser: what it enqueues *)

Lemma sql_eq_sym (a b : value) : sql_eq a b = sql_eq b a.
Proof.
  destruct a, b; cbn; try reflexivity;
    [apply Z.eqb_sym|apply String.eqb_sym|apply String.eqb_sym].
Qed.

Section Differences.

Variable E : env.
Hypothesis on_device : web E = false.
Hypothesis store_accepts : forall n, statement_fails E n = false.

Lemma wp_statement {A : Type} (statement : database -> outcome A * database)
    (Q : A -> world -> Prop) (X : string -> world -> Prop) (w : world) (a : A)
    (d' : database) :
  statement (db w) = (Return a, d') ->
  Q a (with_db d' (transaction w) (count_statement w)) ->
  wp (runAsync E statement) Q X w.
Proof. intros Hs H. unfold wp, runAsync. now rewrite store_accepts, Hs. Qed.

Lemma wp_enqueue_row (t : string) (k : record_key) (op : operation) (data : row)
    (Q : unit -> world -> Prop) (X : string -> world -> Prop) (w : world) :
  (forall w1,
     sync_queue (db w1)
     = (sync_queue (db w) ++ [enqueued (db w) t k op data (now w)])%list ->
     tables (db w1) = tables (db w) -> transaction w1 = transaction w ->
     now w1 = now w -> Q tt w1) ->
  wp (addToSyncQueue E t k op data) Q X w.
Proof.
  intros H. apply wp_addToSyncQueue; [exact on_device| |].
  - rewrite store_accepts. discriminate.
  - intros _ w1 ->. destruct (online w && negb (syncInProgress w))%bool;
      apply H; reflexivity.
Qed.

(** A loop that enqueues a row for the members of a list that fail a
    test. *)
Lemma wp_enqueue_filtered {A : Type} (xs : list A) (p : A -> bool) (t : string)
    (key : A -> record_key) (op : operation) (data : A -> row)
    (Q : unit -> world -> Prop) (X : string -> world -> Prop) (w : world) :
  (forall w1 news,
     sync_queue (db w1) = (sync_queue (db w) ++ news)%list ->
     map entry_of news
     = map (fun x => (t, key_toString (key x), op)) (List.filter (fun x => negb (p x)) xs) ->
     tables (db w1) = tables (db w) -> transaction w1 = transaction w ->
     now w1 = now w -> Q tt w1) ->
  wp (for_of xs (fun x => if p x then ret tt else addToSyncQueue E t (key x) op (data x)))
     Q X w.
Proof.
  revert Q w. induction xs as [|x xs IH]; intros Q w H.
  - apply (H w []); auto. now rewrite app_nil_r.
  - cbn [for_of]. apply wp_bind. destruct (p x) eqn:Hp.
    + apply wp_ret. apply IH. intros w1 news Hq Hk Ht Htx Hn.
      apply (H w1 news); auto. cbn [List.filter]. now rewrite Hp.
    + apply wp_enqueue_row. intros w1 Hq Ht Htx Hn. apply IH.
      intros w2 news Hq2 Hk Ht2 Htx2 Hn2.
      apply (H w2 (enqueued (db w) t (key x) op (data x) (now w) :: news)); try congruence.
      * rewrite Hq2, Hq, <- app_assoc. reflexivity.
      * cbn [List.filter]. rewrite Hp. cbn [negb map]. now rewrite Hk.
Qed.

Section Assignments.

Variable id : Z.
Variable t column : string.
Variable ts : string.
Variable key : Z -> record_key.
Variable data : Z -> string -> row.
Variable current : list value.

Hypothesis t_junction : junction t = true.
Hypothesis t_key : unique_keys t = [["user_id"; column]].
Hypothesis stored_columns : forall i d,
  col (complete ts t {[ "user_id" := VInt id; column := VInt i ]} d) "user_id" = VInt id
  /\ col (complete ts t {[ "user_id" := VInt id; column := VInt i ]} d) column = VInt i.

(** The rows of [t] that belong to the user are those of [assigned]. *)
Let assigned_only (assigned : list Z) (d : database) : Prop :=
  forall r, In r (tbl d t) -> sql_eq (VInt id) (col r "user_id") = true ->
            exists i, In i assigned /\ col r column = VInt i.

Lemma wp_assign_loop (ids assigned : list Z) (Q : unit -> world -> Prop)
    (X : string -> world -> Prop) (w : world) :
  List.NoDup (assigned ++ ids) -> assigned_only assigned (db w) ->
  (forall w1 news,
     sync_queue (db w1) = (sync_queue (db w) ++ news)%list ->
     map entry_of news
     = map (fun i => (t, key_toString (key i), INSERT))
         (List.filter (fun i => negb (includes current (VInt i))) ids) ->
     (forall t', t' <> t -> tbl (db w1) t' = tbl (db w) t') ->
     transaction w1 = transaction w -> now w1 = now w -> Q tt w1) ->
  wp (for_of ids (fun i =>
        runAsync E (insert_row ts t {[ "user_id" := VInt id; column := VInt i ]}) ;;
        if includes current (VInt i) then ret tt else
        iso <- new_Date_toISOString E ;;
        addToSyncQueue E t (key i) INSERT (data i iso)))
     Q X w.
Proof.
  revert assigned Q w. induction ids as [|i ids IH]; intros assigned Q w Hnd Hrows H.
  - apply (H w []); auto. now rewrite app_nil_r.
  - cbn [for_of]. apply wp_bind.
    set (full := complete ts t {[ "user_id" := VInt id; column := VInt i ]} (db w)).
    destruct (stored_columns i (db w)) as [Hu Hc]. fold full in Hu, Hc.
    assert (Hfree : existsb (conflicting t full) (tbl (db w) t) = false).
    { apply not_true_is_false. intros Hex.
      apply existsb_exists in Hex as (r & Hr & Hconf).
      unfold conflicting in Hconf. rewrite t_key in Hconf. cbn in Hconf.
      rewrite orb_false_r, andb_true_r, Hu, Hc in Hconf.
      apply andb_true_iff in Hconf as [H1 H2].
      destruct (Hrows r Hr H1) as (i0 & Hi0 & Hcol). rewrite Hcol in H2. cbn in H2.
      apply Z.eqb_eq in H2. subst i0.
      apply List.NoDup_remove_2 in Hnd. apply Hnd, in_or_app. now left. }
    eapply wp_bind, wp_statement.
    { unfold insert_row. fold full. rewrite Hfree. reflexivity. }
    set (w0 := with_db _ (transaction w) (count_statement w)).
    assert (Hq0 : sync_queue (db w0) = sync_queue (db w)).
    { subst w0. cbn. unfold bump_sequence. now rewrite t_junction. }
    assert (Ht0 : forall t', tbl (db w0) t'
                             = if String.eqb t' t then (tbl (db w) t ++ [full])%list
                               else tbl (db w) t').
    { intros t'. subst w0. cbn [db with_db].
      destruct (String.eqb_spec t' t) as [->|Hne].
      - apply tbl_store_rows.
      - rewrite tbl_store_rows_ne by exact Hne. apply tbl_bump_sequence. }
    assert (Hrows0 : assigned_only (assigned ++ [i]) (db w0)).
    { intros r Hr Hmine. rewrite Ht0, String.eqb_refl in Hr.
      apply in_app_or in Hr as [Hr|[<-|[]]].
      - destruct (Hrows r Hr Hmine) as (i0 & Hi0 & Hcol). exists i0.
        split; [apply in_or_app; now left|exact Hcol].
      - exists i. split; [apply in_or_app; right; now left|exact Hc]. }
    assert (Hnd0 : List.NoDup ((assigned ++ [i]) ++ ids))
      by now rewrite <- app_assoc.
    assert (Hx0 : transaction w0 = transaction w /\ now w0 = now w) by (split; reflexivity).
    destruct Hx0 as [Htx0 Hn0]. clearbody w0.
    destruct (includes current (VInt i)) eqn:Hinc.
    + apply wp_ret. apply (IH (assigned ++ [i])%list); [exact Hnd0|exact Hrows0|].
      intros w1 news Hq1 Hk Ht1 Htx1 Hn1. apply (H w1 news); try congruence.
      { cbn [List.filter]. now rewrite Hinc. }
      intros t' Hne. rewrite (Ht1 t' Hne), Ht0.
      now destruct (String.eqb_spec t' t).
    + apply wp_bind, wp_gets. apply wp_enqueue_row. intros w1 Hq1 Ht1 Htx1 Hn1.
      apply (IH (assigned ++ [i])%list); [exact Hnd0| |].
      { intros r Hr. apply Hrows0. unfold tbl in *. now rewrite <- Ht1. }
      intros w2 news Hq2 Hk Ht2 Htx2 Hn2.
      apply (H w2 (enqueued (db w0) t (key i) INSERT
                     (data i (toISOString E (now w0))) (now w0) :: news)); try congruence.
      * rewrite Hq2, Hq1, Hq0, <- app_assoc. reflexivity.
      * cbn [List.filter]. rewrite Hinc. cbn [negb map]. now rewrite Hk.
      * intros t' Hne. rewrite (Ht2 t' Hne). unfold tbl at 1. rewrite Ht1.
        fold (tbl (db w0) t'). rewrite Ht0. now destruct (String.eqb_spec t' t).
Qed.

End Assignments.

Lemma removed_rows_only (id : Z) (t column : string) (d : database) :
  forall r,
    In r (tbl (snd (delete_where t (fun r => sql_eq (col r "user_id") (VInt id)) d)) t) ->
    sql_eq (VInt id) (col r "user_id") = true ->
    exists i : Z, In i [] /\ col r column = VInt i.
Proof.
  intros r Hr Hmine. rewrite tbl_delete_where, String.eqb_refl in Hr.
  apply filter_In in Hr as [_ Hr]. rewrite sql_eq_sym, Hmine in Hr. discriminate.
Qed.

Lemma updateUser_run (id : Z) (username : string) (password : option string)
    (isAdmin : bool) (roleIds companyIds : list Z) (active : bool) (w : world)
    (current : row) (rest : list row) :
  transaction w = None ->
  List.filter (id_is id) (tbl (db w) "users") = current :: rest ->
  List.NoDup roleIds -> List.NoDup companyIds ->
  wp (updateUser E id username password isAdmin roleIds companyIds active)
     (fun _ w' =>
        map entry_of (skipn (length (sync_queue (db w))) (sync_queue (db w')))
        = updateUser_entries id
            (map (fun r => col r "role_id")
               (List.filter (fun r => sql_eq (col r "user_id") (VInt id))
                  (tbl (db w) "user_roles")))
            (map (fun c => col c "company_id")
               (List.filter (fun r => sql_eq (col r "user_id") (VInt id))
                  (tbl (db w) "user_companies")))
            roleIds companyIds
            (1 <? size (syncData current username password isAdmin active
                          (toISOString E (now w))))%nat
            (List.filter (fun o => negb (includes (map VInt roleIds) o))
               (map (fun r => col r "role_id")
                  (List.filter (fun r => sql_eq (col r "user_id") (VInt id))
                     (tbl (db w) "user_roles"))))
            (List.filter (fun o => negb (includes (map VInt companyIds) o))
               (map (fun c => col c "company_id")
                  (List.filter (fun r => sql_eq (col r "user_id") (VInt id))
                     (tbl (db w) "user_companies")))))
     (fun _ _ => False) w.
Proof.
  intros Htx Hcur Hroles Hcompanies. unfold updateUser.
  match goal with |- wp _ ?post _ _ => remember post as Q eqn:HQ end.
  apply wp_try_catch, wp_bind, wp_BEGIN; [intros _|intros s Hs; congruence].
  apply wp_bind, wp_getAllAsync. cbn [db with_db]. rewrite Hcur.
  apply wp_bind, wp_gets. cbv beta iota.
  cbn [now with_db].
  set (ts := current_timestamp E (now w)).
  set (oldRoles := map (fun r => col r "role_id")
                     (List.filter (fun r => sql_eq (col r "user_id") (VInt id))
                        (tbl (db w) "user_roles"))) in *.
  set (oldCompanies := map (fun c => col c "company_id")
                         (List.filter (fun r => sql_eq (col r "user_id") (VInt id))
                            (tbl (db w) "user_companies"))) in *.
  assert (Hrest : forall w1,
             sync_queue (db w1) = sync_queue (db w) ->
             (forall t', t' <> "users" -> tbl (db w1) t' = tbl (db w) t') ->
             transaction w1 = Some (db w) -> now w1 = now w ->
             wp (currentRoleIds <- getAllAsync (fun d =>
                   map (fun r => col r "role_id")
                     (List.filter (fun r => sql_eq (col r "user_id") (VInt id))
                        (tbl d "user_roles"))) ;;
                 currentCompanyIds <- getAllAsync (fun d =>
                   map (fun c => col c "company_id")
                     (List.filter (fun r => sql_eq (col r "user_id") (VInt id))
                        (tbl d "user_companies"))) ;;
                 runAsync E (delete_where "user_roles"
                               (fun r => sql_eq (col r "user_id") (VInt id))) ;;
                 for_of roleIds (fun roleId =>
                   runAsync E (insert_row ts "user_roles"
                                 {[ "user_id" := VInt id; "role_id" := VInt roleId ]}) ;;
                   if includes currentRoleIds (VInt roleId) then ret tt else
                   iso <- new_Date_toISOString E ;;
                   addToSyncQueue E "user_roles"
                     (KeyText (Text.of_Z id ++ "," ++ Text.of_Z roleId)) INSERT
                     {[ "user_id" := VInt id; "role_id" := VInt roleId;
                        "created_at" := VText iso; "updated_at" := VText iso ]}) ;;
                 runAsync E (delete_where "user_companies"
                               (fun r => sql_eq (col r "user_id") (VInt id))) ;;
                 for_of companyIds (fun companyId =>
                   runAsync E (insert_row ts "user_companies"
                                 {[ "user_id" := VInt id; "company_id" := VInt companyId ]}) ;;
                   if includes currentCompanyIds (VInt companyId) then ret tt else
                   iso <- new_Date_toISOString E ;;
                   addToSyncQueue E "user_companies"
                     (KeyText (Text.of_Z id ++ "," ++ Text.of_Z companyId)) INSERT
                     {[ "user_id" := VInt id; "company_id" := VInt companyId;
                        "created_at" := VText iso; "updated_at" := VText iso ]}) ;;
                 COMMIT ;;
                 iso <- new_Date_toISOString E ;;
                 let data := syncData current username password isAdmin active iso in
                 (if (1 <? size data)%nat
                  then addToSyncQueue E "users" (KeyNum id) UPDATE data
                  else ret tt) ;;
                 for_of currentRoleIds (fun oldRoleId =>
                   if includes (map VInt roleIds) oldRoleId then ret tt else
                   addToSyncQueue E "user_roles"
                     (KeyText (Text.of_Z id ++ "," ++ template oldRoleId)) DELETE
                     {[ "deleted_at" := VText iso ]}) ;;
                 for_of currentCompanyIds (fun oldCompanyId =>
                   if includes (map VInt companyIds) oldCompanyId then ret tt else
                   addToSyncQueue E "user_companies"
                     (KeyText (Text.of_Z id ++ "," ++ template oldCompanyId)) DELETE
                     {[ "deleted_at" := VText iso ]}))
               Q (fun e w' => wp (ROLLBACK ;; throw e) Q (fun _ _ => False) w') w1).
  { intros w1 Hq1 Ht1 Htx1 Hn1.
    apply wp_bind, wp_getAllAsync. apply wp_bind, wp_getAllAsync. cbv beta.
    rewrite (Ht1 "user_roles"), (Ht1 "user_companies") by discriminate.
    fold oldRoles oldCompanies.
    eapply wp_bind, wp_statement; [reflexivity|].
    apply wp_bind.
    apply (wp_assign_loop id "user_roles" "role_id" ts
             (fun i => KeyText (Text.of_Z id ++ "," ++ Text.of_Z i))
             (fun i iso => {[ "user_id" := VInt id; "role_id" := VInt i;
                              "created_at" := VText iso; "updated_at" := VText iso ]})
             oldRoles eq_refl eq_refl (fun i d => conj eq_refl eq_refl) roleIds []);
      [exact Hroles|apply (removed_rows_only id "user_roles" "role_id")|].
    intros w2 news1 Hq2 Hk2 Ht2 Htx2 Hn2.
    cbn [db with_db transaction now count_statement store_rows sync_queue] in Hq2, Htx2, Hn2.
    eapply wp_bind, wp_statement; [reflexivity|].
    apply wp_bind.
    apply (wp_assign_loop id "user_companies" "company_id" ts
             (fun i => KeyText (Text.of_Z id ++ "," ++ Text.of_Z i))
             (fun i iso => {[ "user_id" := VInt id; "company_id" := VInt i;
                              "created_at" := VText iso; "updated_at" := VText iso ]})
             oldCompanies eq_refl eq_refl (fun i d => conj eq_refl eq_refl) companyIds []);
      [exact Hcompanies|apply (removed_rows_only id "user_companies" "company_id")|].
    intros w3 news2 Hq3 Hk3 Ht3 Htx3 Hn3.
    cbn [db with_db transaction now count_statement store_rows sync_queue] in Hq3, Htx3, Hn3.
    apply wp_bind, wp_COMMIT; [intros saved _|intros Hn; congruence].
    apply wp_bind, wp_gets. cbv beta zeta. cbn [now with_db].
    assert (Hnow : now w3 = now w) by congruence. rewrite Hnow.
    set (changed := (1 <? size (syncData current username password isAdmin active
                                  (toISOString E (now w))))%nat) in *.
    assert (Hqueue : sync_queue (db (with_db (db w3) None w3))
                     = (sync_queue (db w) ++ news1 ++ news2)%list).
    { cbn [db with_db]. rewrite Hq3, Hq2, Hq1, <- app_assoc. reflexivity. }
    revert Hqueue. generalize (with_db (db w3) None w3). intros w4 Hq4.
    apply wp_bind.
    assert (Htail : forall w5 user_rows,
               sync_queue (db w5) = (sync_queue (db w4) ++ user_rows)%list ->
               map entry_of user_rows
               = (if changed then [("users", Text.of_Z id, UPDATE)] else []) ->
               wp (for_of oldRoles (fun oldRoleId =>
                     if includes (map VInt roleIds) oldRoleId then ret tt else
                     addToSyncQueue E "user_roles"
                       (KeyText (Text.of_Z id ++ "," ++ template oldRoleId)) DELETE
                       {[ "deleted_at" := VText (toISOString E (now w)) ]}) ;;
                   for_of oldCompanies (fun oldCompanyId =>
                     if includes (map VInt companyIds) oldCompanyId then ret tt else
                     addToSyncQueue E "user_companies"
                       (KeyText (Text.of_Z id ++ "," ++ template oldCompanyId)) DELETE
                       {[ "deleted_at" := VText (toISOString E (now w)) ]}))
                 Q (fun e w' => wp (ROLLBACK ;; throw e) Q (fun _ _ => False) w') w5).
    { intros w5 user_rows Hq5 Hk5.
      apply wp_bind.
      apply (wp_enqueue_filtered oldRoles (fun old => includes (map VInt roleIds) old)
               "user_roles" (fun old => KeyText (Text.of_Z id ++ "," ++ template old)) DELETE
               (fun _ => {[ "deleted_at" := VText (toISOString E (now w)) ]})).
      intros w6 news3 Hq6 Hk6 _ _ _.
      apply (wp_enqueue_filtered oldCompanies (fun old => includes (map VInt companyIds) old)
               "user_companies" (fun old => KeyText (Text.of_Z id ++ "," ++ template old))
               DELETE (fun _ => {[ "deleted_at" := VText (toISOString E (now w)) ]})).
      intros w7 news4 Hq7 Hk7 _ _ _.
      subst Q. rewrite Hq7, Hq6, Hq5, Hq4.
      rewrite <- !app_assoc, drop_app_length, !map_app, Hk2, Hk3, Hk5, Hk6, Hk7.
      reflexivity. }
    destruct changed eqn:Hchanged.
    - apply wp_enqueue_row. intros w5 Hq5 _ _ _.
      apply (Htail w5 _ Hq5). reflexivity.
    - apply wp_ret. apply (Htail w4 []); [now rewrite app_nil_r|reflexivity]. }
  apply wp_bind.
  destruct (given_text password) as [p|];
    (eapply wp_statement; [reflexivity|]); apply Hrest; try reflexivity;
    intros t' Hne; cbn [db with_db]; now apply tbl_store_rows_ne.
Qed.

End Differences.

Lemma syncData_size (current : row) (username : string) (password : option string)
    (isAdmin active : bool) (iso : string) :
  (1 <? size (syncData current username password isAdmin active iso))%nat
  = user_changed current username password isAdmin active.
Proof.
  unfold syncData, user_changed.
  destruct (bool_decide (VText username = col current "username"));
    destruct (given_text password) as [p|];
    destruct (Bool.eqb isAdmin (truthy (col current "is_admin")));
    destruct (Bool.eqb active (truthy (col current "active")));
    reflexivity.
Qed.

(** X23: updateUser of a user that is there, on a device whose store
    refuses no statement, with no transaction open and role and company
    ids given without repetition, returns and adds to the outbox, in this
    order: an INSERT row of user_roles for each given role the user did not
    have, in the order given, and one of user_companies for each given
    company the user did not have, under the record id "user,role" (or
    "user,company"); one UPDATE row of users when the username, the
    is_admin flag or the active flag differs from the stored row or a
    password is given, and none otherwise; and a DELETE row of user_roles,
    then of user_companies, for each role (company) the user had that is
    not among those given, these in the order in which the engine listed
    the current assignments.  An assignment that stays is not enqueued. *)
Theorem updateUser_enqueues_the_differences (E : env) (id : Z) (username : string)
    (password : option string) (isAdmin : bool) (roleIds companyIds : list Z)
    (active : bool) (w : world) (current : row) (rest : list row) :
  web E = false -> (forall n, statement_fails E n = false) -> transaction w = None ->
  List.filter (id_is id) (tbl (db w) "users") = current :: rest ->
  List.NoDup roleIds -> List.NoDup companyIds ->
  let result := updateUser E id username password isAdmin roleIds companyIds active w in
  let oldRoles :=
    map (fun r => col r "role_id")
      (List.filter (fun r => sql_eq (col r "user_id") (VInt id)) (tbl (db w) "user_roles")) in
  let oldCompanies :=
    map (fun c => col c "company_id")
      (List.filter (fun r => sql_eq (col r "user_id") (VInt id))
         (tbl (db w) "user_companies")) in
  fst result = Return tt
  /\ exists goneRoles goneCompanies,
       taken_away roleIds oldRoles goneRoles
       /\ taken_away companyIds oldCompanies goneCompanies
       /\ map entry_of (skipn (length (sync_queue (db w))) (sync_queue (db (snd result))))
          = updateUser_entries id oldRoles oldCompanies roleIds companyIds
              (user_changed current username password isAdmin active)
              goneRoles goneCompanies.
Proof.
  intros Hweb Hs Htx Hcur Hr Hc result oldRoles oldCompanies.
  pose proof (updateUser_run E Hweb Hs id username password isAdmin roleIds companyIds
                active w current rest Htx Hcur Hr Hc) as H.
  subst result. fold oldRoles oldCompanies in H. unfold wp in H.
  destruct (updateUser E id username password isAdmin roleIds companyIds active w)
    as [[[]|e] w']; [|contradiction].
  split; [reflexivity|].
  exists (List.filter (fun o => negb (includes (map VInt roleIds) o)) oldRoles),
    (List.filter (fun o => negb (includes (map VInt companyIds) o)) oldCompanies).
  split; [apply Permutation_refl|]. split; [apply Permutation_refl|].
  now rewrite <- (syncData_size _ _ _ _ _ (toISOString E (now w))).
Qed.

Lemma updateUser_enqueues_witness :
  exists goneRoles goneCompanies,
    taken_away [3] [VInt 1] goneRoles
    /\ taken_away [7] [] goneCompanies
    /\ map entry_of
         (skipn (length (sync_queue (db staffed_device)))
            (sync_queue (db (snd (updateUser calm 4 "ana" None false [3] [7] true
                                    staffed_device)))))
       = updateUser_entries 4 [VInt 1] [] [3] [7] false goneRoles goneCompanies.
Proof.
  refine (proj2 (updateUser_enqueues_the_differences calm 4 "ana" None false [3] [7] true
                   staffed_device (local_user 4 "ana" 0 VNull) [] eq_refl
                   (fun _ => eq_refl) eq_refl eq_refl _ _)).
  - constructor; [intros []|constructor].
  - constructor; [intros []|constructor].
Defined.
